(** * Scribe: prompt compiler, training preprocessing, context assembler
      and response decoder

    A shallow embedding of [final_api.py] and [final_training.py].

    Text model.  A Python [str] is a [string]: the sequence of bytes of
    its UTF-8 encoding.  Python's character classes are modelled on
    their ASCII range (white space for [strip], digits for [\d] and
    [int]); [lower] also folds the Latin-1 capital letters, which the
    keyword tables of the decoder use.  Python exceptions are values of
    [exn], carried by the [result] type. *)

From Stdlib Require Import String Ascii List ZArith Lia Bool Permutation DecimalString.
Import ListNotations.

Open Scope list_scope.
Open Scope nat_scope.

(** ** Exceptions *)

Inductive exn : Type :=
| IndexError
| ValueError
| NameError
| OverflowError.

Inductive result (A : Type) : Type :=
| Ok (a : A)
| Raise (e : exn).

Arguments Ok {A} a.
Arguments Raise {A} e.

Definition bind {A B : Type} (r : result A) (k : A -> result B) : result B :=
  match r with
  | Ok a => k a
  | Raise e => Raise e
  end.

Declare Scope result_scope.
Delimit Scope result_scope with result.
Notation "x <- r ;; k" := (bind r (fun x => k))
  (at level 61, r at next level, right associativity) : result_scope.

(** [try: ... except: return d] *)
Definition except {A : Type} (r : result A) (d : A) : A :=
  match r with
  | Ok a => a
  | Raise _ => d
  end.

(** ** Prompt compiler and the training-side rendering *)

Module Prompt.

#[local] Open Scope string_scope.

(** [LF] is the one-character string "\n". *)
Definition LF : string := String (ascii_of_nat 10) EmptyString.

(** final_api.py, [build_prompt_identical_to_training]:
    f"[INST] <TASK>{task}</TASK>\n<CONTEXT>\n{context_str}\n</CONTEXT> [/INST]" *)
Definition build_prompt_identical_to_training (task context_str : string) : string :=
  "[INST] <TASK>" ++ task ++ "</TASK>" ++ LF ++ "<CONTEXT>" ++ LF
    ++ context_str ++ LF ++ "</CONTEXT> [/INST]".

(** final_training.py, [preprocess_example_fast], the line
    prompt = f"[INST] {user_content} [/INST]" *)
Definition training_prompt (user_content : string) : string :=
  "[INST] " ++ user_content ++ " [/INST]".

(** The user turn that the data-generation step embeds for a task and a
    context: "<TASK>{t}</TASK>\n<CONTEXT>\n{c}\n</CONTEXT>". *)
Definition user_turn (task context_str : string) : string :=
  "<TASK>" ++ task ++ "</TASK>" ++ LF ++ "<CONTEXT>" ++ LF
    ++ context_str ++ LF ++ "</CONTEXT>".

(** The template of the specification, written out character by
    character around the two holes. *)
Definition prompt_template (task context_str : string) : string :=
  String.concat ""
    [ "[INST] <TASK>"; task; "</TASK>"; LF; "<CONTEXT>"; LF; context_str; LF;
      "</CONTEXT> [/INST]" ].

End Prompt.

(** ** Tokenisation and label masking (training side) *)

Module Training.

(** The three budgets of [ModelConfig]. *)
Record ModelConfig : Type := {
  max_prompt_length : nat;
  max_response_length : nat;
  max_length : nat
}.

(** The defaults of the dataclass: 1024, 512 and 1536. *)
Definition default_config : ModelConfig :=
  {| max_prompt_length := 1024; max_response_length := 512; max_length := 1536 |}.

(** The label value excluded from the loss. *)
Definition IGNORE : Z := (-100)%Z.

Record Example : Type := {
  input_ids : list Z;
  attention_mask : list Z;
  labels : list Z
}.

Section Preprocess.

(** The tokenizer is the external engine:
    [tokenize text n] stands for
    tokenizer(text, max_length=n, truncation=True,
              add_special_tokens=False)['input_ids']. *)
Variable tokenize : string -> nat -> list Z.
Variable bos_token_id : option Z.
Variable eos_token_id : option Z.
Variable config : ModelConfig.

Definition opt_token (t : option Z) : list Z :=
  match t with
  | Some id => [id]
  | None => []
  end.

Definition prompt_tokens (user_content : string) : list Z :=
  tokenize (Prompt.training_prompt user_content) (max_prompt_length config).

Definition response_tokens (assistant_content : string) : list Z :=
  tokenize assistant_content (max_response_length config).

(** [BOS] prompt_tokens response_tokens [EOS], before any cut. *)
Definition concatenation (user_content assistant_content : string) : list Z :=
  opt_token bos_token_id ++ prompt_tokens user_content
    ++ response_tokens assistant_content ++ opt_token eos_token_id.

(** [preprocess_example_fast], without its logging. *)
Definition preprocess_example_fast (user_content assistant_content : string) : Example :=
  let prompt_encoding := prompt_tokens user_content in
  let response_encoding := response_tokens assistant_content in
  let bos_token := opt_token bos_token_id in
  let eos_token := opt_token eos_token_id in
  let input_ids0 := bos_token ++ prompt_encoding ++ response_encoding ++ eos_token in
  let input_ids1 :=
    if max_length config <? length input_ids0
    then firstn (max_length config) input_ids0
    else input_ids0 in
  let attention_mask1 := repeat 1%Z (length input_ids1) in
  let prompt_length := length bos_token + length prompt_encoding in
  let labels0 := repeat IGNORE prompt_length ++ skipn prompt_length input_ids1 in
  let labels1 :=
    if negb (length labels0 =? length input_ids1)
    then firstn (length input_ids1) labels0
    else labels0 in
  {| input_ids := input_ids1; attention_mask := attention_mask1; labels := labels1 |}.

End Preprocess.

(** Number of label positions that take part in the loss. *)
Definition learned (l : list Z) : nat :=
  length (filter (fun x => negb (x =? IGNORE)%Z) l).

(** A tokenizer that honours [truncation=True]. *)
Definition truncating (tokenize : string -> nat -> list Z) : Prop :=
  forall text n, length (tokenize text n) <= n.

(** A character-level tokenizer, used to run the pipeline: one token per
    byte, cut at the budget. *)
Definition char_tokenize (text : string) (n : nat) : list Z :=
  firstn n (map (fun c => Z.of_nat (nat_of_ascii c)) (list_ascii_of_string text)).

Fixpoint replicate (n : nat) (c : ascii) : string :=
  match n with
  | O => EmptyString
  | S m => String c (replicate m c)
  end.

(** A prompt of 1024 bytes or more and a response of 512 bytes. *)
Definition long_user : string := replicate 1024 "a"%char.
Definition long_assistant : string := replicate 512 "b"%char.

End Training.

(** ** Python string operations *)

Module Text.

#[local] Open Scope string_scope.
#[local] Open Scope nat_scope.

Definition code (c : ascii) : nat := nat_of_ascii c.

Definition between (lo hi n : nat) : bool := (lo <=? n) && (n <=? hi).

(** ASCII white space as [str.isspace] has it: \t \n \v \f \r, the four
    separators 0x1c..0x1f and the space. *)
Definition is_space (c : ascii) : bool :=
  between 9 13 (code c) || between 28 32 (code c).

(** ASCII decimal digits. *)
Definition is_digit (c : ascii) : bool := between 48 57 (code c).

Definition digit_value (c : ascii) : Z := Z.of_nat (code c - 48).

Fixpoint lstrip (s : string) : string :=
  match s with
  | EmptyString => EmptyString
  | String c s' => if is_space c then lstrip s' else s
  end.

Fixpoint rstrip (s : string) : string :=
  match s with
  | EmptyString => EmptyString
  | String c s' =>
      match rstrip s' with
      | EmptyString => if is_space c then EmptyString else String c EmptyString
      | r => String c r
      end
  end.

(** [s.strip()] *)
Definition strip (s : string) : string := rstrip (lstrip s).

(** [not s] for a string: it is empty. *)
Definition is_empty (s : string) : bool :=
  match s with
  | EmptyString => true
  | String _ _ => false
  end.

(** [s.split(sep)] for a one-character separator: every occurrence
    cuts, and the result always has at least one piece. *)
Fixpoint split (sep : ascii) (s : string) : list string :=
  match s with
  | EmptyString => [EmptyString]
  | String c s' =>
      if Ascii.eqb c sep then EmptyString :: split sep s'
      else match split sep s' with
           | [] => [String c EmptyString]
           | p :: ps => String c p :: ps
           end
  end.

(** [sep.join(l)] *)
Definition join (sep : string) (l : list string) : string := String.concat sep l.

(** [word in text] *)
Fixpoint contains (word text : string) : bool :=
  prefix word text
  || match text with
     | EmptyString => false
     | String _ t => contains word t
     end.

(** [c in text] for a character. *)
Fixpoint has_char (c : ascii) (text : string) : bool :=
  match text with
  | EmptyString => false
  | String x t => Ascii.eqb x c || has_char c t
  end.

(** [any(word in text for word in words)] *)
Definition any_in (words : list string) (text : string) : bool :=
  existsb (fun w => contains w text) words.

Definition lower_ascii (c : ascii) : ascii :=
  if between 65 90 (code c) then ascii_of_nat (code c + 32) else c.

(** [s.lower()]: A..Z, and the capital letters U+00C0..U+00DE (but the
    sign U+00D7), which UTF-8 writes 0xC3 0x80 .. 0xC3 0x9E. *)
Fixpoint lower (s : string) : string :=
  match s with
  | EmptyString => EmptyString
  | String c1 s1 =>
      match s1 with
      | String c2 s2 =>
          if (code c1 =? 195) && between 128 158 (code c2) && negb (code c2 =? 151)
          then String c1 (String (ascii_of_nat (code c2 + 32)) (lower s2))
          else String (lower_ascii c1) (lower s1)
      | EmptyString => String (lower_ascii c1) EmptyString
      end
  end.

(** [s.replace(old, new)] for a non-empty [old]: occurrences are taken
    from the left and do not overlap.  [skip] counts the characters of
    the occurrence being replaced that are still to be passed. *)
Fixpoint replace_from (old new s : string) (skip : nat) : string :=
  match s with
  | EmptyString => EmptyString
  | String c s' =>
      match skip with
      | S k => replace_from old new s' k
      | O =>
          if prefix old s
          then new ++ replace_from old new s' (String.length old - 1)
          else String c (replace_from old new s' 0)
      end
  end.

Definition replace (old new s : string) : string := replace_from old new s 0.

(** [s[:n]] *)
Definition take (n : nat) (s : string) : string := substring 0 n s.

(** [str(n)] for an integer. *)
Definition str_of_Z (n : Z) : string := DecimalString.NilZero.string_of_int (Z.to_int n).

Definition str_of_nat (n : nat) : string := str_of_Z (Z.of_nat n).

Fixpoint zeros (n : nat) : string :=
  match n with
  | O => EmptyString
  | S k => String "0"%char (zeros k)
  end.

(** [s.zfill(width)] for a string of digits. *)
Definition zfill (width : nat) (s : string) : string :=
  zeros (width - String.length s) ++ s.

(** The value of a run of decimal digits, most significant first. *)
Fixpoint digits_value (acc : Z) (s : string) : Z :=
  match s with
  | EmptyString => acc
  | String c s' => digits_value (acc * 10 + digit_value c)%Z s'
  end.

(** The longest run of digits at the head of a string, and what follows. *)
Fixpoint span_digits (s : string) : string * string :=
  match s with
  | EmptyString => (EmptyString, EmptyString)
  | String c s' =>
      if is_digit c
      then let (d, r) := span_digits s' in (String c d, r)
      else (EmptyString, s)
  end.

(** [re.search(r'(\d+)', text)]: the first run of digits, if any. *)
Fixpoint search_digits (s : string) : option string :=
  match s with
  | EmptyString => None
  | String c s' => if is_digit c then Some (fst (span_digits s)) else search_digits s'
  end.

(** The body of an integer literal as [int] reads it: digits, with single
    underscores allowed between two digits.  [prev] tells whether the
    previous character was a digit. *)
Fixpoint int_body (acc : Z) (prev : bool) (s : string) : option Z :=
  match s with
  | EmptyString => if prev then Some acc else None
  | String c s' =>
      if is_digit c then int_body (acc * 10 + digit_value c)%Z true s'
      else if Ascii.eqb c "_"%char && prev
           then match s' with
                | String d _ => if is_digit d then int_body acc false s' else None
                | EmptyString => None
                end
           else None
  end.

(** [int(s)] on a string: surrounding white space, an optional sign, a
    decimal body; [ValueError] otherwise. *)
Definition py_int (s : string) : result Z :=
  let t := strip s in
  let '(sign, body) :=
    match t with
    | String "+"%char r => (1%Z, r)
    | String "-"%char r => ((-1)%Z, r)
    | _ => (1%Z, t)
    end in
  match int_body 0 false body with
  | Some v => Ok (sign * v)%Z
  | None => Raise ValueError
  end.

(** [enumerate(l)] *)
Definition enumerate {A : Type} (l : list A) : list (nat * A) :=
  combine (seq 0 (length l)) l.

(** [l[k]] *)
Definition index {A : Type} (l : list A) (k : nat) : result A :=
  match nth_error l k with
  | Some x => Ok x
  | None => Raise IndexError
  end.

End Text.
(** ** The calendar of [datetime]

    A [datetime] at midnight is its proleptic Gregorian ordinal: day 1
    is 0001-01-01, a Monday.  The decoder builds only such values. *)

Module Calendar.

Import Text.

#[local] Open Scope Z_scope.

Definition MINYEAR : Z := 1.
Definition MAXYEAR : Z := 9999.

(** The ordinal of 9999-12-31. *)
Definition MAXORDINAL : Z := 3652059.

Definition is_leap (y : Z) : bool :=
  (y mod 4 =? 0) && (negb (y mod 100 =? 0) || (y mod 400 =? 0)).

Definition days_in_month (y m : Z) : Z :=
  if (m =? 2) && is_leap y then 29
  else nth (Z.to_nat m) [0; 31; 28; 31; 30; 31; 30; 31; 31; 30; 31; 30; 31] 0.

Definition days_before_month (y m : Z) : Z :=
  nth (Z.to_nat m) [0; 0; 31; 59; 90; 120; 151; 181; 212; 243; 273; 304; 334] 0
  + (if (2 <? m) && is_leap y then 1 else 0).

Definition days_before_year (y : Z) : Z :=
  let y1 := y - 1 in
  y1 * 365 + y1 / 4 - y1 / 100 + y1 / 400.

Definition ymd2ord (y m d : Z) : Z :=
  days_before_year y + days_before_month y m + d.

(** [datetime(year, month, day)]: [ValueError] outside the calendar. *)
Definition datetime (y m d : Z) : result Z :=
  if (MINYEAR <=? y) && (y <=? MAXYEAR)
     && (1 <=? m) && (m <=? 12)
     && (1 <=? d) && (d <=? days_in_month y m)
  then Ok (ymd2ord y m d)
  else Raise ValueError.

(** [dt.weekday()]: Monday is 0, Sunday is 6. *)
Definition weekday (ord : Z) : Z := (ord + 6) mod 7.

(** [dt + timedelta(days=1)]: [OverflowError] past 9999-12-31. *)
Definition add_day (ord : Z) : result Z :=
  if MAXORDINAL <? ord + 1 then Raise OverflowError else Ok (ord + 1).

(** *** [datetime.strptime(s, '%Y-%m-%d')]

    The format compiles to the regular expression
    (\d\d\d\d)-(1[0-2]|0[1-9]|[1-9])-(3[01]|[12]\d|0[1-9]|[1-9]| [1-9]),
    matched at the head of the string.  Each piece below lists the ways
    it can match, in the order the alternatives are tried, with the rest
    of the string; the first way through the whole expression is the
    match, and data left after it is an error. *)

Definition in_range (lo hi : ascii) (c : ascii) : bool :=
  between (code lo) (code hi) (code c).

Definition year_ways (s : string) : list (Z * string) :=
  match s with
  | String a (String b (String c (String d r))) =>
      if is_digit a && is_digit b && is_digit c && is_digit d
      then [(digits_value 0 (String a (String b (String c (String d EmptyString)))), r)]
      else []
  | _ => []
  end.

Definition lit_ways (x : ascii) (s : string) : list string :=
  match s with
  | String a r => if Ascii.eqb a x then [r] else []
  | EmptyString => []
  end.

(** Two characters, the first in [lo1..hi1], the second in [lo2..hi2];
    the value is that of the digits among them. *)
Definition two_ways (lo1 hi1 lo2 hi2 : ascii) (s : string) : list (Z * string) :=
  match s with
  | String a (String b r) =>
      if in_range lo1 hi1 a && in_range lo2 hi2 b
      then [((if is_digit a then digit_value a else 0) * 10 + digit_value b, r)]
      else []
  | _ => []
  end.

Definition one_way (lo hi : ascii) (s : string) : list (Z * string) :=
  match s with
  | String a r => if in_range lo hi a then [(digit_value a, r)] else []
  | EmptyString => []
  end.

Definition month_ways (s : string) : list (Z * string) :=
  (two_ways "1" "1" "0" "2" s ++ two_ways "0" "0" "1" "9" s ++ one_way "1" "9" s)%list.

Definition day_ways (s : string) : list (Z * string) :=
  (two_ways "3" "3" "0" "1" s ++ two_ways "1" "2" "0" "9" s
   ++ two_ways "0" "0" "1" "9" s ++ one_way "1" "9" s
   ++ two_ways " " " " "1" "9" s)%list.

Definition ymd_ways (s : string) : list (Z * Z * Z * string) :=
  flat_map (fun '(y, r1) =>
    flat_map (fun r2 =>
      flat_map (fun '(m, r3) =>
        flat_map (fun r4 =>
          map (fun '(d, r5) => (y, m, d, r5)) (day_ways r4))
          (lit_ways "-" r3))
        (month_ways r2))
      (lit_ways "-" r1))
    (year_ways s).

Definition strptime_ymd (s : string) : result Z :=
  match ymd_ways s with
  | [] => Raise ValueError
  | (y, m, d, rest) :: _ =>
      if is_empty rest then datetime y m d else Raise ValueError
  end.

End Calendar.
(** ** Dictionaries with string keys, in insertion order *)

Module Dict.

Section Ops.

Context {V : Type}.

(** [d.get(k)] *)
Fixpoint get (d : list (string * V)) (k : string) : option V :=
  match d with
  | [] => None
  | (k', v) :: d' => if String.eqb k' k then Some v else get d' k
  end.

(** [k in d] *)
Definition mem (d : list (string * V)) (k : string) : bool :=
  match get d k with
  | Some _ => true
  | None => false
  end.

(** [d[k] = v]: a known key keeps its place, a new one goes last. *)
Fixpoint set (d : list (string * V)) (k : string) (v : V) : list (string * V) :=
  match d with
  | [] => [(k, v)]
  | (k', v') :: d' =>
      if String.eqb k' k then (k', v) :: d' else (k', v') :: set d' k v
  end.

(** [list(d.keys())] *)
Definition keys (d : list (string * V)) : list string := map fst d.

End Ops.

End Dict.

(** ** Field schema registry: the constants of final_api.py *)

Module Schema.

#[local] Open Scope string_scope.

Definition ALWAYS_INCLUDED : list string :=
  ["client"; "secteur"; "typeProjet"; "complexite"; "libelle"; "annee"].

Definition FIELD_GENERATION_ORDER : list string :=
  ["contexte_proj"; "besoin"; "objectifs"; "perimetre"; "horsPerimetre";
   "contraintes"; "risques"; "descriptionSolution"; "architecture";
   "composantsDimensionnement"; "phases"; "jalons"; "livrables";
   "conditionsHorsCrash"; "conditionsCrashSite"; "resilienceApplicative";
   "praPlanDegrade"; "sauvegardes"; "administrationSupervision";
   "impactCO2"; "modalitesPartage"; "coutsConstruction"; "coutsFonctionnement"].

Definition RELEVANT_CONTEXT : list (string * list string) :=
  [("contexte_proj", ["besoin"; "objectifs"]);
   ("besoin", ["contexte_proj"; "objectifs"; "perimetre"]);
   ("objectifs", ["contexte_proj"; "besoin"; "perimetre"]);
   ("perimetre", ["contexte_proj"; "besoin"; "objectifs"; "horsPerimetre"]);
   ("horsPerimetre", ["perimetre"; "contexte_proj"]);
   ("descriptionSolution", ["besoin"; "objectifs"; "architecture"]);
   ("architecture", ["descriptionSolution"; "besoin"; "composantsDimensionnement"]);
   ("composantsDimensionnement", ["architecture"; "perimetre"; "plageService"]);
   ("conditionsHorsCrash", ["architecture"; "plageService"; "resilienceApplicative"]);
   ("conditionsCrashSite", ["conditionsHorsCrash"; "dicp"; "dima"; "pdma"]);
   ("resilienceApplicative", ["architecture"; "conditionsHorsCrash"; "praPlanDegrade"]);
   ("praPlanDegrade", ["resilienceApplicative"; "dicp"; "dima"]);
   ("sauvegardes", ["pdma"; "rgpd"; "administrationSupervision"]);
   ("administrationSupervision", ["plageService"; "tauxContingence"]);
   ("impactCO2", ["composantsDimensionnement"; "architecture"]);
   ("modalitesPartage", ["rgpd"; "psee"; "lienDocumentation"]);
   ("contraintes", ["contexte_proj"; "besoin"; "complexite"]);
   ("risques", ["contraintes"; "contexte_proj"; "objectifs"]);
   ("phases", ["perimetre"; "objectifs"; "complexite"]);
   ("livrables", ["phases"; "objectifs"; "perimetre"]);
   ("jalons", ["phases"; "livrables"; "objectifs"]);
   ("coutsConstruction", ["phases"; "perimetre"; "complexite"]);
   ("coutsFonctionnement", ["coutsConstruction"; "architecture"; "administrationSupervision"])].

Definition TABLE_FIELDS : list (string * list string) :=
  [("contraintes", ["type"; "description"; "criticité"; "mitigation"]);
   ("risques", ["risque"; "probabilité"; "impact"; "planActions"; "responsable"]);
   ("phases", ["phase"; "description"; "dateDébut"; "dateFin"; "équipes"]);
   ("livrables", ["nom"; "description"; "date"; "responsable"]);
   ("jalons", ["nom"; "type"; "date"; "critères"]);
   ("coutsConstruction", ["profil"; "nombre_jh"; "tjm"; "total"; "code"]);
   ("coutsFonctionnement", ["poste"; "quantite"; "coutUnitaire"; "total"; "code"])].

(** [TABLE_FIELDS.get(field_name, [])] *)
Definition columns_of (field_name : string) : list string :=
  match Dict.get TABLE_FIELDS field_name with
  | Some cols => cols
  | None => []
  end.

(** [RELEVANT_CONTEXT.get(target_field, [])] *)
Definition relevant_of (target_field : string) : list string :=
  match Dict.get RELEVANT_CONTEXT target_field with
  | Some l => l
  | None => []
  end.

(** The key of the column at a position: f'col{i}'. *)
Definition col (i : nat) : string := "col" ++ Text.str_of_nat i.

End Schema.
(** ** Response decoder *)

Module Decoder.

Import Text Calendar.

#[local] Open Scope string_scope.
#[local] Open Scope nat_scope.
#[local] Open Scope result_scope.

Definition LF : ascii := ascii_of_nat 10.

(** A Python float, given by the exact quotient it approximates. *)
Record ratio : Type := { num : Z; den : Z }.

(** [n / d] on integers. *)
Definition true_div (n d : Z) : ratio := {| num := n; den := d |}.

(** [k * r] *)
Definition scale (k : Z) (r : ratio) : ratio := {| num := k * num r; den := den r |}.

(** The value stored under a key of a decoded record. *)
Inductive cell : Type :=
| Str (s : string)
| Num (r : ratio).

(** A decoded record: the dict literal, key by key in the order written. *)
Definition record : Type := list (string * cell).

(** *** Normalisation of severity words *)

Definition map_criticality (text : string) : string :=
  let text := strip (lower text) in
  if any_in ["faible"; "bas"; "low"] text then "Faible"
  else if any_in ["élevé"; "elevé"; "haut"; "high"; "critique"] text then "Élevé"
  else "Moyen".

Definition map_probability (text : string) : string :=
  let text := strip (lower text) in
  if any_in ["faible"; "bas"; "low"] text then "Faible"
  else if any_in ["élevé"; "elevé"; "haut"; "high"] text then "Élevée"
  else "Moyenne".

Definition map_impact (text : string) : string :=
  let text := strip (lower text) in
  if any_in ["faible"; "bas"; "low"] text then "Faible"
  else if any_in ["élevé"; "elevé"; "haut"; "high"; "majeur"] text then "Élevé"
  else "Moyen".

(** *** Dates in free text *)

Definition all_digits (s : string) : bool :=
  forallb is_digit (list_ascii_of_string s).

(** (\d{4})-(\d{2})-(\d{2}) at the head of a string. *)
Definition iso_at (s : string) : option string :=
  let m := take 10 s in
  if (String.length m =? 10)
     && all_digits (substring 0 4 m) && String.eqb (substring 4 1 m) "-"
     && all_digits (substring 5 2 m) && String.eqb (substring 7 1 m) "-"
     && all_digits (substring 8 2 m)
  then Some m else None.

(** [re.search]: the leftmost position where the pattern matches. *)
Fixpoint search_iso (s : string) : option string :=
  match iso_at s with
  | Some m => Some m
  | None =>
      match s with
      | EmptyString => None
      | String _ s' => search_iso s'
      end
  end.

(** \d{1,2}: two digits are tried before one. *)
Definition digits12_ways (s : string) : list (string * string) :=
  (match s with
   | String a (String b r) =>
       if is_digit a && is_digit b then [(String a (String b EmptyString), r)] else []
   | _ => []
   end
   ++
   match s with
   | String a r => if is_digit a then [(String a EmptyString, r)] else []
   | EmptyString => []
   end)%list.

Definition digits4_ways (s : string) : list (string * string) :=
  let m := take 4 s in
  if (String.length m =? 4) && all_digits m
  then [(m, substring 4 (String.length s - 4) s)] else [].

(** (\d{1,2})/(\d{1,2})/(\d{4}) at the head of a string: the groups. *)
Definition dmy_ways (s : string) : list (string * string * string) :=
  flat_map (fun '(day, r1) =>
    flat_map (fun r2 =>
      flat_map (fun '(month, r3) =>
        flat_map (fun r4 =>
          map (fun '(year, _) => (day, month, year)) (digits4_ways r4))
          (lit_ways "/" r3))
        (digits12_ways r2))
      (lit_ways "/" r1))
    (digits12_ways s).

Fixpoint search_dmy (s : string) : option (string * string * string) :=
  match dmy_ways s with
  | g :: _ => Some g
  | [] =>
      match s with
      | EmptyString => None
      | String _ s' => search_dmy s'
      end
  end.

Definition extract_date (text : string) : string :=
  if is_empty text || (String.length (strip text) <? 6) then ""
  else
    match search_iso text with
    | Some m => m
    | None =>
        match search_dmy text with
        | Some (day, month, year) => zfill 2 day ++ "/" ++ zfill 2 month ++ "/" ++ year
        | None => ""
        end
    end.

(** *** Numbers in free text *)

Definition extract_number (text : string) : Z :=
  let text := replace "k" "000" (replace "€" "" (replace "," "" (replace " " "" text))) in
  match search_digits text with
  | Some run => digits_value 0 run
  | None => 0%Z
  end.

(** *** Business days between two dates *)

(** One of the two parsing blocks: [Ok None] leaves the variable
    unbound (a slash but not three parts). *)
Definition parse_date (s : string) : result (option Z) :=
  if has_char "/" s then
    let parts := split "/" s in
    if length parts =? 3 then
      p2 <- index parts 2 ;; y <- py_int p2 ;;
      p1 <- index parts 1 ;; m <- py_int p1 ;;
      p0 <- index parts 0 ;; d <- py_int p0 ;;
      dt <- datetime y m d ;;
      Ok (Some dt)
    else Ok None
  else
    dt <- strptime_ymd (take 10 s) ;;
    Ok (Some dt).

(** Reading a local variable. *)
Definition bound (v : option Z) : result Z :=
  match v with
  | Some x => Ok x
  | None => Raise NameError
  end.

(** The loop [while current <= end], by the number [n] of days from
    [current] to [end] inclusive (none when [current > end]). *)
Fixpoint count_days (n : nat) (current days : Z) : result Z :=
  match n with
  | O => Ok days
  | S k =>
      let days' := if (weekday current <? 5)%Z then (days + 1)%Z else days in
      next <- add_day current ;;
      count_days k next days'
  end.

Definition calculate_days_between_dates (date_start date_end : string) : Z :=
  except
    (start <- parse_date date_start ;;
     end_ <- parse_date date_end ;;
     current <- bound start ;;
     last <- bound end_ ;;
     days <- count_days (Z.to_nat (last + 1 - current)) current 0%Z ;;
     Ok (Z.max 1 days))
    20%Z.

(** The days Monday to Friday. *)
Definition is_business_day (ord : Z) : bool := (weekday ord <? 5)%Z.

(** The days of the inclusive range from [s] to [e], in order. *)
Definition days_of_range (s e : Z) : list Z :=
  map (fun k => (s + Z.of_nat k)%Z) (seq 0 (Z.to_nat (e + 1 - s))).

(** The duration in the words of the specification: the number of days
    Monday to Friday of the inclusive range, and at least 1. *)
Definition business_days_spec (s e : Z) : Z :=
  Z.max 1 (Z.of_nat (length (filter is_business_day (days_of_range s e)))).

(** *** The row decoders

    All seven decoders run the same loop over the first lines of the
    stripped text: a blank line is skipped, the others are cut at the
    pipes into stripped parts, and the row function says what to append.
    [cap] is the test [if len(rows) >= cap: break] at the end of the
    body, which only the phase and milestone decoders have. *)

(** [[p.strip() for p in line.split('|')]] *)
Definition parts_of (line : string) : list string := map strip (split "|" line).

Fixpoint for_lines (row : nat -> list string -> result (option record))
    (cap : option nat) (lines : list (nat * string)) (rows : list record)
    : result (list record) :=
  match lines with
  | [] => Ok rows
  | (i, line) :: rest =>
      if is_empty (strip line) then for_lines row cap rest rows
      else
        let parts := parts_of line in
        r <- row i parts ;;
        let rows' := match r with
                     | Some x => (rows ++ [x])%list
                     | None => rows
                     end in
        if match cap with
           | Some n => n <=? length rows'
           | None => false
           end
        then Ok rows'
        else for_lines row cap rest rows'
  end.

(** [enumerate(content.strip().split('\n')[:n])] *)
Definition first_lines (n : nat) (content : string) : list (nat * string) :=
  enumerate (firstn n (split LF (strip content))).

(** [parts[k] if len(parts) > k else default] *)
Definition index_or (parts : list string) (k : nat) (default : string) : result string :=
  if k <? length parts then index parts k else Ok default.

Definition phases_row (i : nat) (parts : list string) : result (option record) :=
  if 5 <=? length parts then
    phase_name <- index parts 0 ;;
    description <- index parts 1 ;;
    date_start <- index parts 2 ;;
    date_end <- index parts 3 ;;
    let duration := calculate_days_between_dates date_start date_end in
    c5 <- (if 5 <? length parts then index parts 4 else Ok "Équipe projet") ;;
    Ok (Some [("col0", Str phase_name); ("col1", Str description);
              ("col2", Str (str_of_Z duration)); ("col3", Str date_start);
              ("col4", Str date_end); ("col5", Str c5)])
  else
    c0 <- index_or parts 0 ("Phase " ++ str_of_nat (i + 1)) ;;
    c1 <- index_or parts 1 "Description à définir" ;;
    Ok (Some [("col0", Str c0); ("col1", Str c1); ("col2", Str "20");
              ("col3", Str ""); ("col4", Str ""); ("col5", Str "Équipe projet")]).

Definition parse_phases (content : string) : result (list record) :=
  for_lines phases_row (Some 8) (first_lines 8 content) [].

Definition jalons_row (i : nat) (parts : list string) : result (option record) :=
  if 3 <=? length parts then
    c0 <- index parts 0 ;;
    c1 <- index_or parts 1 "Validation" ;;
    c2 <- (if 2 <? length parts
           then p2 <- index parts 2 ;; Ok (extract_date p2)
           else Ok "") ;;
    c3 <- index_or parts 3 "Critères à définir" ;;
    Ok (Some [("col0", Str c0); ("col1", Str c1); ("col2", Str c2); ("col3", Str c3)])
  else
    c0 <- index_or parts 0 ("Jalon " ++ str_of_nat (i + 1)) ;;
    Ok (Some [("col0", Str c0); ("col1", Str "Validation"); ("col2", Str "");
              ("col3", Str "Critères à définir")]).

Definition parse_jalons (content : string) : result (list record) :=
  for_lines jalons_row (Some 5) (first_lines 5 content) [].

Definition contraintes_row (_ : nat) (parts : list string) : result (option record) :=
  if 3 <=? length parts then
    c0 <- index parts 0 ;;
    c1 <- index parts 1 ;;
    p2 <- index parts 2 ;;
    c3 <- index_or parts 3 "À définir" ;;
    Ok (Some [("col0", Str c0); ("col1", Str c1); ("col2", Str (map_criticality p2));
              ("col3", Str c3)])
  else Ok None.

Definition parse_contraintes (content : string) : result (list record) :=
  for_lines contraintes_row None (first_lines 5 content) [].

Definition risques_row (_ : nat) (parts : list string) : result (option record) :=
  if 4 <=? length parts then
    c0 <- index parts 0 ;;
    p1 <- index parts 1 ;;
    p2 <- index parts 2 ;;
    c3 <- index parts 3 ;;
    c4 <- index_or parts 4 "Chef de projet" ;;
    Ok (Some [("col0", Str c0); ("col1", Str (map_probability p1));
              ("col2", Str (map_impact p2)); ("col3", Str c3); ("col4", Str c4)])
  else Ok None.

Definition parse_risques (content : string) : result (list record) :=
  for_lines risques_row None (first_lines 6 content) [].

Definition livrables_row (_ : nat) (parts : list string) : result (option record) :=
  if 3 <=? length parts then
    c0 <- index parts 0 ;;
    c1 <- index_or parts 1 "Document" ;;
    c2 <- (if 2 <? length parts
           then p2 <- index parts 2 ;; Ok (extract_date p2)
           else Ok "") ;;
    c3 <- index_or parts 3 "NOTRE ENTREPRISE" ;;
    Ok (Some [("col0", Str c0); ("col1", Str c1); ("col2", Str c2); ("col3", Str c3)])
  else Ok None.

Definition parse_livrables (content : string) : result (list record) :=
  for_lines livrables_row None (first_lines 6 content) [].

Definition couts_construction_row (_ : nat) (parts : list string)
  : result (option record) :=
  if 3 <=? length parts then
    p1 <- index parts 1 ;;
    let nb_jh := extract_number p1 in
    p2 <- index parts 2 ;;
    let tjm := extract_number p2 in
    let total := (nb_jh * tjm)%Z in
    c0 <- index parts 0 ;;
    c4 <- index_or parts 4 "" ;;
    Ok (Some [("col0", Str c0); ("col1", Str (str_of_Z nb_jh)); ("col2", Str (str_of_Z tjm));
              ("col3", Str (str_of_Z total)); ("col4", Str c4)])
  else Ok None.

Definition parse_couts_construction (content : string) : result (list record) :=
  for_lines couts_construction_row None (first_lines 7 content) [].

(** quantite * prix_mensuel * 12 *)
Definition total_annuel_of (quantite : Z) (prix_mensuel : ratio) : ratio :=
  scale 12 (scale quantite prix_mensuel).

Definition couts_fonctionnement_row (_ : nat) (parts : list string)
  : result (option record) :=
  if 3 <=? length parts then
    p1 <- index parts 1 ;;
    let quantite := extract_number p1 in
    p2 <- index parts 2 ;;
    let prix_mensuel := true_div (extract_number p2) 12 in
    let total_annuel := total_annuel_of quantite prix_mensuel in
    c0 <- index parts 0 ;;
    c1 <- index parts 1 ;;
    c3 <- index parts 3 ;;
    c4 <- index_or parts 4 "" ;;
    Ok (Some [("col0", Str c0); ("col1", Str c1); ("col2", Num prix_mensuel);
              ("col3", Str c3); ("col4", Str c4)])
  else Ok None.

Definition parse_couts_fonctionnement (content : string) : result (list record) :=
  for_lines couts_fonctionnement_row None (first_lines 7 content) [].

Definition parse_table_content (content table_type : string) : result (list record) :=
  if String.eqb table_type "contraintes" then parse_contraintes content
  else if String.eqb table_type "risques" then parse_risques content
  else if String.eqb table_type "phases" then parse_phases content
  else if String.eqb table_type "livrables" then parse_livrables content
  else if String.eqb table_type "jalons" then parse_jalons content
  else if String.eqb table_type "coutsConstruction" then parse_couts_construction content
  else if String.eqb table_type "coutsFonctionnement" then parse_couts_fonctionnement content
  else Ok [].

(** The row decoder of a tabular field, and the number of lines it reads. *)
Definition table_types : list string :=
  ["contraintes"; "risques"; "phases"; "livrables"; "jalons";
   "coutsConstruction"; "coutsFonctionnement"].

Definition max_rows (table_type : string) : nat :=
  if String.eqb table_type "contraintes" then 5
  else if String.eqb table_type "risques" then 6
  else if String.eqb table_type "phases" then 8
  else if String.eqb table_type "livrables" then 6
  else if String.eqb table_type "jalons" then 5
  else if String.eqb table_type "coutsConstruction" then 7
  else if String.eqb table_type "coutsFonctionnement" then 7
  else 0.

(** The numbered lines that the loop does not skip. *)
Definition nonblank (l : nat * string) : bool := negb (is_empty (strip (snd l))).

Definition is_str (c : cell) : bool :=
  match c with
  | Str _ => true
  | Num _ => false
  end.

(** A record with the keys col0 .. col(n-1), in this order, and string
    values. *)
Definition positional (n : nat) (r : record) : Prop :=
  map fst r = map Schema.col (seq 0 n) /\ forallb is_str (map snd r) = true.

End Decoder.
(** ** Context assembler *)

Module Assembler.

Import Text Schema.

#[local] Open Scope string_scope.
#[local] Open Scope nat_scope.

Definition LF : string := String (ascii_of_nat 10) EmptyString.

(** A row of a table of the caller context: a dict from column keys to
    values, each value given by its [str()]. *)
Definition row : Type := list (string * string).

(** A value of the caller context.  A list is a list of rows; any other
    value is given by its [str()] and its truth value.  [text] of a list
    is its [str()] too. *)
Inductive value : Type :=
| Scalar (text : string) (truthy : bool)
| Table (rows : list row) (text : string).

Definition context : Type := list (string * value).

(** [isinstance(v, list)] *)
Definition is_list (v : value) : bool :=
  match v with
  | Table _ _ => true
  | Scalar _ _ => false
  end.

(** [bool(v)] *)
Definition truth (v : value) : bool :=
  match v with
  | Scalar _ t => t
  | Table rows _ => negb (length rows =? 0)
  end.

(** [str(v)] *)
Definition str (v : value) : string :=
  match v with
  | Scalar text _ => text
  | Table _ text => text
  end.

Definition rows_of (v : value) : list row :=
  match v with
  | Table rows _ => rows
  | Scalar _ _ => []
  end.

(** [l.append(x)] *)
Definition push (l : list string) (x : string) : list string := (l ++ [x])%list.

(** [x in l] on lists of strings. *)
Definition mem (x : string) (l : list string) : bool := existsb (String.eqb x) l.

(** One row of [format_table_for_context]: the values under col0, col1,
    ... for the columns of the schema, joined by pipes; a missing key
    gives the empty string. *)
Definition format_row (columns : list string) (item : row) : string :=
  join "|"
    (map (fun '(i, _) =>
            match Dict.get item (col i) with
            | Some v => v
            | None => ""
            end)
         (enumerate columns)).

Definition format_table_for_context (data : list row) (field_name : string) : string :=
  match data with
  | [] => ""
  | _ => join LF (map (format_row (columns_of field_name)) data)
  end.

Definition mapping : list (string * string) :=
  [("sector", "secteur"); ("project_type", "typeProjet"); ("complexity", "complexite");
   ("contexte", "contexte_proj"); ("besoin", "besoin"); ("objectifs", "objectifs");
   ("lots", "phases")].

Definition map_frontend_to_model_fields (frontend_context : context) : context :=
  fold_left
    (fun model_context '(key, v) =>
       let model_key := match Dict.get mapping key with
                        | Some k => k
                        | None => key
                        end in
       Dict.set model_context model_key v)
    frontend_context [].

(** *** The random source

    The draws still to come; [randbelow n] consumes one and reduces it
    below [n]. An exhausted source draws 0. *)
Definition rng : Type := list nat.

Definition randbelow (n : nat) (g : rng) : nat * rng :=
  match g with
  | [] => (0, [])
  | x :: g' => (x mod n, g')
  end.

(** [random.choice(l)] on a non-empty list. *)
Definition choice (l : list string) (g : rng) : option string * rng :=
  let (j, g') := randbelow (length l) g in (nth_error l j, g').

(** [random.randint(a, b)] *)
Definition randint (a b : nat) (g : rng) : nat * rng :=
  let (j, g') := randbelow (b - a + 1) g in (a + j, g').

(** [l[k] = v] inside the list. *)
Fixpoint update (l : list string) (k : nat) (v : string) : list string :=
  match l, k with
  | [], _ => []
  | _ :: l', O => v :: l'
  | x :: l', S k' => x :: update l' k' v
  end.

(** [x[i], x[j] = x[j], x[i]] *)
Definition swap (x : list string) (i j : nat) : list string :=
  match nth_error x i, nth_error x j with
  | Some a, Some b => update (update x i b) j a
  | _, _ => x
  end.

(** The loop of [random.shuffle]:
    for i in reversed(range(1, len(x))): j = randbelow(i + 1); swap. *)
Fixpoint shuffle_from (i : nat) (x : list string) (g : rng) : list string * rng :=
  match i with
  | O => (x, g)
  | S i' =>
      let (j, g') := randbelow (S i) g in
      shuffle_from i' (swap x i j) g'
  end.

Definition shuffle (x : list string) (g : rng) : list string * rng :=
  shuffle_from (length x - 1) x g.

(** *** Assembly *)

(** The two lists the function fills: [context_parts] and [used_fields]. *)
Definition state : Type := (list string * list string)%type.

(** The text appended for a field of the context. *)
Definition block_text (field : string) (v : value) : string :=
  if Dict.mem TABLE_FIELDS field && is_list v
  then field ++ ":" ++ LF ++ format_table_for_context (rows_of v) field
  else field ++ ": " ++ str v.

(** The block of statements that appends a field, as every branch but
    the always-included loop writes it. *)
Definition append_field (field : string) (v : value) (st : state) : state :=
  let '(context_parts, used_fields) := st in
  if Dict.mem TABLE_FIELDS field && is_list v then
    let value := format_table_for_context (rows_of v) field in
    if negb (is_empty value)
    then (push context_parts (field ++ ":" ++ LF ++ value), push used_fields field)
    else st
  else (push context_parts (field ++ ": " ++ str v), push used_fields field).

(** The body of the always-included loop: the field is marked used
    whatever its block. *)
Definition always_step (ctx : context) (st : state) (field : string) : state :=
  let '(context_parts, used_fields) := st in
  match Dict.get ctx field with
  | Some v =>
      if truth v then
        let context_parts' :=
          if Dict.mem TABLE_FIELDS field && is_list v then
            let value := format_table_for_context (rows_of v) field in
            if negb (is_empty value)
            then push context_parts (field ++ ":" ++ LF ++ value)
            else context_parts
          else push context_parts (field ++ ": " ++ str v) in
        (context_parts', push used_fields field)
      else st
  | None => st
  end.

(** The body of the loop over the relevant fields. *)
Definition relevant_step (ctx : context) (st : state) (field : string) : state :=
  match Dict.get ctx field with
  | Some v => if negb (mem field (snd st)) then append_field field v st else st
  | None => st
  end.

(** The body of the loops over randomly chosen fields. *)
Definition random_step (ctx : context) (st : state) (field : string) : state :=
  match Dict.get ctx field with
  | Some v => append_field field v st
  | None => st
  end.

Definition available_fields (target_field : string) : list string :=
  filter (fun f => negb (String.eqb f target_field)) FIELD_GENERATION_ORDER.

(** [f for f in available_fields if f not in relevant and f not in used_fields] *)
Definition random_fields (target_field : string) (relevant used_fields : list string)
  : list string :=
  filter (fun f => negb (mem f relevant) && negb (mem f used_fields))
         (available_fields target_field).

Definition after_always (ctx : context) : state :=
  fold_left (always_step ctx) ALWAYS_INCLUDED ([], []).

(** The state after the loop over the first [n] relevant fields. *)
Definition after_relevant (n : nat) (target_field : string) (ctx : context) : state :=
  fold_left (relevant_step ctx) (firstn n (relevant_of target_field)) (after_always ctx).

(** The lists [context_parts] and [used_fields] at the end of
    [build_context_identical_to_training]. *)
Definition assemble (target_field : string) (frontend_context : context)
    (complexity : string) (g : rng) : state :=
  let ctx := map_frontend_to_model_fields frontend_context in
  if String.eqb complexity "minimal" then
    after_relevant 2 target_field ctx
  else if String.eqb complexity "medium" || String.eqb complexity "related" then
    let relevant := firstn 3 (relevant_of target_field) in
    let st := after_relevant 3 target_field ctx in
    let pool := random_fields target_field relevant (snd st) in
    match pool with
    | [] => st
    | _ =>
        match fst (choice pool g) with
        | Some random_field => random_step ctx st random_field
        | None => st
        end
    end
  else
    let relevant := firstn 2 (relevant_of target_field) in
    let st := after_relevant 2 target_field ctx in
    let pool := random_fields target_field relevant (snd st) in
    let (shuffled, g1) := shuffle pool g in
    let (k, _) := randint 3 5 g1 in
    fold_left (random_step ctx) (firstn k shuffled) st.

Definition build_context_identical_to_training (target_field : string)
    (frontend_context : context) (complexity : string) (g : rng)
  : string * list string :=
  let (context_parts, used_fields) := assemble target_field frontend_context complexity g in
  (join LF context_parts, used_fields).

(** *** Reading the result *)

(** The block of a field of the context, as it appears in
    [context_parts]. *)
Definition block_of (ctx : context) (field : string) : string :=
  match Dict.get ctx field with
  | Some v => block_text field v
  | None => ""
  end.

(** The fields that the always-included loop marks used: present, with
    a true value. *)
Definition marked (ctx : context) (field : string) : bool :=
  match Dict.get ctx field with
  | Some v => truth v
  | None => false
  end.

(** The fields that the appending block appends when it is reached:
    present, and for a table of a tabular field, formatted to a
    non-empty text. *)
Definition appendable (ctx : context) (field : string) : bool :=
  match Dict.get ctx field with
  | Some v =>
      if Dict.mem TABLE_FIELDS field && is_list v
      then negb (is_empty (format_table_for_context (rows_of v) field))
      else true
  | None => false
  end.

(** What the assembled lists must satisfy for a target field: the blocks
    are those of the used fields, in order; no field is used twice; the
    target is used only if it is one of the always-included fields; and
    every used field is a key of the context. *)
Definition sound (ctx : context) (target_field : string) (st : state) : Prop :=
  fst st = map (block_of ctx) (snd st)
  /\ NoDup (snd st)
  /\ (In target_field (snd st) -> In target_field ALWAYS_INCLUDED)
  /\ Forall (fun f => Dict.mem ctx f = true) (snd st).

(** No string occurs twice. *)
Fixpoint all_distinct (l : list string) : bool :=
  match l with
  | [] => true
  | x :: l' => negb (mem x l') && all_distinct l'
  end.

(** The dict literal of a row with the given cells: col0, col1, ... *)
Definition row_of_cells (cells : list string) : row :=
  combine (map col (seq 0 (length cells))) cells.

(** A cell value with no pipe and no newline. *)
Definition clean (c : string) : bool :=
  negb (has_char "|" c) && negb (has_char (ascii_of_nat 10) c).

End Assembler.

(** ** Markers in generated text *)

Module Markers.

Import Text.

#[local] Open Scope string_scope.
#[local] Open Scope nat_scope.
#[local] Open Scope result_scope.

(** [s.split(sep)] for a non-empty separator of any length: the
    occurrences are taken from the left and do not overlap.  [skip]
    counts the characters of the occurrence just found that are still to
    be passed. *)
Fixpoint split_from (sep s : string) (skip : nat) : list string :=
  match s with
  | EmptyString => [EmptyString]
  | String c s' =>
      match skip with
      | S k => split_from sep s' k
      | O =>
          if prefix sep s
          then EmptyString :: split_from sep s' (String.length sep - 1)
          else match split_from sep s' 0 with
               | [] => [String c EmptyString]
               | p :: ps => String c p :: ps
               end
      end
  end.

Definition split_str (sep s : string) : list string := split_from sep s 0.

(** final_api.py, the end of [ModelManager.generate]: the text between
    the markers when both occur, the whole response otherwise. *)
Definition extract_content (response : string) : string :=
  if contains "<START>" response && contains "<END>" response then
    except
      (after <- index (split_str "<START>" response) 1 ;;
       inner <- index (split_str "<END>" after) 0 ;;
       Ok (strip inner))
      response
  else response.

(** final_training.py, [generate_validation_examples]: the task named
    in a user turn, 'unknown' when the marker is missing. *)
Definition task_of (user_content : string) : string :=
  except
    (after <- index (split_str "<TASK>" user_content) 1 ;;
     index (split_str "</TASK>" after) 0)
    "unknown".

End Markers.

(** ** Batch padding (training side) *)

Module Collator.

Import Training.

#[local] Open Scope nat_scope.
#[local] Open Scope result_scope.

Record Batch : Type := {
  batch_input_ids : list (list Z);
  batch_attention_mask : list (list Z);
  batch_labels : list (list Z)
}.

(** [max(len(ids) for ids in l)]: [ValueError] on an empty sequence. *)
Definition max_len (l : list (list Z)) : result nat :=
  match l with
  | [] => Raise ValueError
  | _ => Ok (list_max (map (@length Z) l))
  end.

(** ((m + p - 1) // p) * p *)
Definition round_up (p m : nat) : nat := ((m + p - 1) / p) * p.

(** [torch.tensor(rows)]: rows of unequal lengths are refused. *)
Definition tensor (rows : list (list Z)) : result (list (list Z)) :=
  match rows with
  | [] => Ok []
  | r :: rest =>
      if forallb (fun x => length x =? length r) rest then Ok rows else Raise ValueError
  end.

(** [RobustDataCollator.__call__]: every example is padded on the right
    by the same number of positions in its three sequences, counted
    from the length of its [input_ids]. *)
Definition collate (pad_token_id : Z) (pad_to_multiple_of : nat) (features : list Example)
  : result Batch :=
  m <- max_len (map input_ids features) ;;
  let max_length :=
    if pad_to_multiple_of =? 0 then m else round_up pad_to_multiple_of m in
  let padding_length (f : Example) := max_length - length (input_ids f) in
  ids <- tensor (map (fun f => input_ids f ++ repeat pad_token_id (padding_length f))
                     features) ;;
  mask <- tensor (map (fun f => attention_mask f ++ repeat 0%Z (padding_length f))
                      features) ;;
  labs <- tensor (map (fun f => labels f ++ repeat IGNORE (padding_length f)) features) ;;
  Ok {| batch_input_ids := ids; batch_attention_mask := mask; batch_labels := labs |}.

(** An example whose three sequences have the same length. *)
Definition aligned (f : Example) : Prop :=
  length (attention_mask f) = length (input_ids f)
  /\ length (labels f) = length (input_ids f).

End Collator.

(** ** Request validation and checkpoint discovery *)

Module Endpoints.

Import Text.

#[local] Open Scope string_scope.
#[local] Open Scope nat_scope.

(** A value of a JSON body as Python holds it.  A finite float is the
    binary fraction [m * 2^e]; [JNonFinite] is nan or an infinity;
    [JOther] is None, a list or a dict. *)
Inductive jvalue : Type :=
| JInt (z : Z)
| JBool (b : bool)
| JFloat (m e : Z)
| JNonFinite
| JStr (s : string)
| JOther.

(** [int(value)]: [None] when it raises. *)
Definition int_of (v : jvalue) : option Z :=
  match v with
  | JInt z => Some z
  | JBool b => Some (if b then 1%Z else 0%Z)
  | JFloat m e =>
      Some (if (0 <=? e)%Z then (m * 2 ^ e)%Z else Z.quot m (2 ^ (- e)))
  | JNonFinite => None
  | JStr s =>
      match py_int s with
      | Ok z => Some z
      | Raise _ => None
      end
  | JOther => None
  end.

(** final_api.py, [validate_field]: the list of warnings and the flag
    [valid]. *)
Definition year_warnings (value : jvalue) : list string :=
  match int_of value with
  | Some year =>
      if ((year <? 2024) || (2030 <? year))%Z
      then ["L'année semble inhabituellement éloignée"]
      else []
  | None => ["Format d'année invalide"]
  end.

Definition validate_field (field : string) (value : jvalue) : bool * list string :=
  let warnings := if String.eqb field "annee" then year_warnings value else [] in
  (length warnings =? 0, warnings).

(** *** [find_latest_checkpoint] *)

(** [l.sort(key=..., reverse=True)] on pairs (step, path): a stable
    sort by decreasing step, written as the insertion of each element,
    in order, after the elements that are not smaller. *)
Fixpoint insert_desc (x : Z * string) (l : list (Z * string)) : list (Z * string) :=
  match l with
  | [] => [x]
  | y :: l' => if (fst y <? fst x)%Z then x :: l else y :: insert_desc x l'
  end.

Definition sort_desc (l : list (Z * string)) : list (Z * string) :=
  fold_left (fun acc x => insert_desc x acc) l [].

(** The body of the loop over the directory: [Some (step, path)] when
    the entry is appended. [path_join] is [os.path.join]. *)
Definition checkpoint_of (path_join : string -> string -> string) (output_dir : string)
    (entry : string * bool) : option (Z * string) :=
  let (item, is_dir) := entry in
  if is_dir && prefix "checkpoint-" item then
    match index (split "-" item) 1 with
    | Ok p =>
        match py_int p with
        | Ok step => Some (step, path_join output_dir item)
        | Raise _ => None
        end
    | Raise _ => None
    end
  else None.

(** [exists] is [os.path.exists(output_dir)], [listing] the entries of
    the directory with [os.path.isdir] of each. *)
Definition find_latest_checkpoint (path_join : string -> string -> string)
    (output_dir : string) (exists_ : bool) (listing : list (string * bool))
  : option string :=
  let checkpoint_dirs :=
    if exists_
    then flat_map (fun entry =>
                     match checkpoint_of path_join output_dir entry with
                     | Some x => [x]
                     | None => []
                     end) listing
    else [] in
  match sort_desc checkpoint_dirs with
  | [] => None
  | (_, path) :: _ => Some path
  end.

End Endpoints.

(** ** The generation endpoint *)

Module Generate.

Import Text Schema Decoder Assembler Markers.

#[local] Open Scope string_scope.
#[local] Open Scope nat_scope.

(** The value of a response: the text of the model, or the records
    decoded from it. *)
Inductive parsed : Type :=
| Raw (text : string)
| Rows (rows : list record).

(** The body of a successful response, without its timestamp. *)
Record response : Type := {
  field : string;
  value : parsed;
  task : string;
  strategy : string;
  complexity : string;
  context_fields : list string;
  token_count : nat
}.

(** A line of generation_logs.jsonl, without its timestamp. *)
Record log_entry : Type := {
  log_field : string;
  log_prompt : string;
  log_raw_response : string;
  log_parsed_response : option parsed;
  log_error : option exn
}.

(** What a request ends in: a response, or an [HTTPException] with its
    status code; and the line written to the generation log, if any. *)
Inductive outcome : Type :=
| Returned (r : response) (log : log_entry)
| Failed (status_code : nat) (log : option log_entry).

Definition complexity_map : list (string * string) :=
  [("minimal", "minimal"); ("related", "medium"); ("smart", "medium");
   ("full", "full"); ("debug", "full")].

Definition table_fields : list string :=
  ["contraintes"; "risques"; "lots"; "livrables"; "jalons";
   "coutsConstruction"; "coutsFonctionnement"].

Section Endpoint.

(** [model_manager.is_loaded]; the text that the tokenizer decodes from
    the tokens the model generates for a prompt; the number of tokens of
    a prompt.  The calls to the tokenizer and to the model are taken to
    return. *)
Variable is_loaded : bool.
Variable decode : string -> string.
Variable count_tokens : string -> nat.

(** [ModelManager.generate] on a loaded model. *)
Definition generate (prompt : string) : string := extract_content (decode prompt).

(** final_api.py, [generate_field], for a request with the given field,
    context and strategy; [g] is the random source of the assembler. *)
Definition generate_field (request_field : string) (request_context : context)
    (request_strategy : string) (g : rng) : outcome :=
  if negb is_loaded then Failed 503 None
  else
    let task := if String.eqb request_field "lots" then "phases" else request_field in
    let task := if String.eqb task "contexte" then "contexte_proj" else task in
    let complexity := match Dict.get complexity_map request_strategy with
                      | Some c => c
                      | None => "medium"
                      end in
    let '(context_str, used_fields) :=
      build_context_identical_to_training task request_context complexity g in
    let prompt := Prompt.build_prompt_identical_to_training task context_str in
    let token_count := count_tokens prompt in
    let raw_response := generate prompt in
    let answer (parsed_response : parsed) : outcome :=
      Returned
        {| field := request_field; value := parsed_response; task := task;
           strategy := request_strategy; complexity := complexity;
           context_fields := used_fields; token_count := token_count |}
        {| log_field := request_field; log_prompt := prompt;
           log_raw_response := raw_response;
           log_parsed_response := Some parsed_response; log_error := None |} in
    if mem request_field table_fields then
      let parse_type := if String.eqb request_field "lots" then "phases" else request_field in
      match parse_table_content raw_response parse_type with
      | Ok rows => answer (Rows rows)
      | Raise e =>
          Failed 500
            (Some {| log_field := request_field; log_prompt := prompt;
                     log_raw_response := raw_response;
                     log_parsed_response := None; log_error := Some e |})
      end
    else answer (Raw raw_response).

End Endpoint.

(** *** Several fields in one request *)

(** The body of the response of [generate_multiple_fields], without its
    timestamp; an error is given by the status code of its
    [HTTPException]. *)
Record summary : Type := {
  success : bool;
  results : list (string * parsed);
  errors : option (list (string * nat))
}.

Section Multiple.

(** The model samples and the assembler draws at every call: [decode k]
    and [draws k] are the text of the model and the random source at
    the call for the field of index [k]. *)
Variable is_loaded : bool.
Variable decode : nat -> string -> string.
Variable count_tokens : string -> nat.
Variable draws : nat -> rng.

(** The body of the loop: the value of an answered request goes to
    [results], the error of a failed one to [errors]. *)
Definition multiple_step (request_context : context) (request_strategy : string)
    (acc : list (string * parsed) * list (string * nat)) (kf : nat * string)
  : list (string * parsed) * list (string * nat) :=
  let '(results, errors) := acc in
  let '(k, request_field) := kf in
  match generate_field is_loaded (decode k) count_tokens request_field request_context
          request_strategy (draws k) with
  | Returned r _ => (Dict.set results request_field (value r), errors)
  | Failed status_code _ => (results, Dict.set errors request_field status_code)
  end.

(** final_api.py, [generate_multiple_fields]: the loop over
    [request.fields[:5]]. *)
Definition generate_multiple_fields (request_fields : list string)
    (request_context : context) (request_strategy : string) : summary :=
  let '(results, errors) :=
    fold_left (multiple_step request_context request_strategy)
              (enumerate (firstn 5 request_fields)) ([], []) in
  {| success := length errors =? 0;
     results := results;
     errors := match errors with
               | [] => None
               | _ => Some errors
               end |}.

End Multiple.

End Generate.

(** ** Loading the training records *)

Module Dataset.

Import Text.

#[local] Open Scope string_scope.
#[local] Open Scope nat_scope.

(** A value that [json.loads] returns.  A number is given by its
    literal; the members of an object hold each key once. *)
#[warnings="-register-all"]
Inductive json : Type :=
| JNull
| JBoolean (b : bool)
| JNumber (literal : string)
| JString (s : string)
| JArray (items : list json)
| JObject (members : list (string * json)).

(** The exceptions of the validation of a record. *)
Inductive error : Type :=
| TypeError
| AttributeError
| KeyError
| IndexError.

Inductive answer (A : Type) : Type :=
| Returns (a : A)
| Raises (e : error).

Arguments Returns {A} a.
Arguments Raises {A} e.

Definition then_ {A B : Type} (r : answer A) (k : A -> answer B) : answer B :=
  match r with
  | Returns a => k a
  | Raises e => Raises e
  end.

(** [v == s] for a string [s]. *)
Definition is_string (v : json) (s : string) : bool :=
  match v with
  | JString t => String.eqb t s
  | _ => false
  end.

(** A byte 10xxxxxx of the UTF-8 encoding, which continues a character. *)
Definition continues (c : ascii) : bool := between 128 191 (code c).

(** The characters of a string: each byte with the bytes that continue
    it. *)
Fixpoint chars (s : string) : list string :=
  match s with
  | EmptyString => []
  | String c s' =>
      match s' with
      | String d _ =>
          if continues d
          then match chars s' with
               | h :: t => String c h :: t
               | [] => [String c EmptyString]
               end
          else String c EmptyString :: chars s'
      | EmptyString => [String c EmptyString]
      end
  end.

(** [s.endswith(suffix)] *)
Definition endswith (suffix s : string) : bool :=
  (String.length suffix <=? String.length s)
  && String.eqb (substring (String.length s - String.length suffix) (String.length suffix) s)
                suffix.

(** [key in v] *)
Definition has_key (key : string) (v : json) : answer bool :=
  match v with
  | JObject members => Returns (Dict.mem members key)
  | JArray items => Returns (existsb (fun x => is_string x key) items)
  | JString s => Returns (contains key s)
  | _ => Raises TypeError
  end.

(** [v[key]] for a string key, on a value that passed [key in v]. *)
Definition item (key : string) (v : json) : answer json :=
  match v with
  | JObject members =>
      match Dict.get members key with
      | Some x => Returns x
      | None => Raises KeyError
      end
  | _ => Raises TypeError
  end.

(** [len(v)] *)
Definition len (v : json) : answer nat :=
  match v with
  | JArray items => Returns (length items)
  | JObject members => Returns (length members)
  | JString s => Returns (length (chars s))
  | _ => Raises TypeError
  end.

(** [v[k]] for an integer [k]; a character of a string is a string,
    and no key of an object is an integer. *)
Definition at_ (k : nat) (v : json) : answer json :=
  match v with
  | JArray items =>
      match nth_error items k with
      | Some x => Returns x
      | None => Raises IndexError
      end
  | JString s =>
      match nth_error (chars s) k with
      | Some c => Returns (JString c)
      | None => Raises IndexError
      end
  | JObject _ => Raises KeyError
  | _ => Raises TypeError
  end.

(** [v.get(key)] and [v.get(key, default)]: only a dict has the method. *)
Definition get_or (key : string) (default : json) (v : json) : answer json :=
  match v with
  | JObject members =>
      Returns match Dict.get members key with
              | Some x => x
              | None => default
              end
  | _ => Raises AttributeError
  end.

(** final_training.py, [BankingDatasetProcessor.validate_entry]. *)
Definition validate_entry (entry : json) : answer bool :=
  then_ (has_key "messages" entry) (fun present =>
  if negb present then Returns false else
  then_ (item "messages" entry) (fun messages =>
  then_ (len messages) (fun n =>
  if negb (n =? 2) then Returns false else
  then_ (at_ 0 messages) (fun m0 =>
  then_ (get_or "role" JNull m0) (fun role0 =>
  if negb (is_string role0 "user") then Returns false else
  then_ (at_ 1 messages) (fun m1 =>
  then_ (get_or "role" JNull m1) (fun role1 =>
  if negb (is_string role1 "assistant") then Returns false else
  then_ (get_or "content" (JString "") m1) (fun response =>
  match response with
  | JString s => Returns (prefix "<START>" s && endswith "<END>" s)
  | _ => Raises AttributeError
  end)))))))).

(** The counters [self.stats] that [load_dataset] updates. *)
Record stats : Type := { valid : nat; invalid : nat; errors : nat }.

(** The body of the loop of [load_dataset] for one line; [None] is a
    line on which [json.loads] raises. *)
Definition load_line (acc : list json * stats) (line : option json) : list json * stats :=
  let (data, st) := acc in
  match line with
  | Some entry =>
      match validate_entry entry with
      | Returns true =>
          ((data ++ [entry])%list,
           {| valid := valid st + 1; invalid := invalid st; errors := errors st |})
      | Returns false =>
          (data, {| valid := valid st; invalid := invalid st + 1; errors := errors st |})
      | Raises _ =>
          (data, {| valid := valid st; invalid := invalid st; errors := errors st + 1 |})
      end
  | None => (data, {| valid := valid st; invalid := invalid st; errors := errors st + 1 |})
  end.

(** final_training.py, [BankingDatasetProcessor.load_dataset]: the
    records kept and the counters after the file; [loads] is
    [json.loads], [None] where it raises. *)
Definition load_dataset (loads : string -> option json) (lines : list string) (st : stats)
  : list json * stats :=
  fold_left (fun acc line => load_line acc (loads line)) lines ([], st).

End Dataset.

(** * Theorems *)

Module PromptFacts.
Import Prompt.

#[local] Open Scope string_scope.

Lemma append_assoc (a b c : string) : (a ++ b) ++ c = a ++ (b ++ c).
Proof.
  induction a as [|x a IH]; simpl; [reflexivity | now rewrite IH].
Qed.

(** C1. The prompt compiler returns exactly the template
    "[INST] <TASK>{t}</TASK>\n<CONTEXT>\n{c}\n</CONTEXT> [/INST]", and the
    training-side rendering "[INST] {text} [/INST]" of the user turn
    "<TASK>{t}</TASK>\n<CONTEXT>\n{c}\n</CONTEXT>" is the same string. *)
Theorem prompt_matches_training (t c : string) :
  build_prompt_identical_to_training t c = prompt_template t c
  /\ training_prompt (user_turn t c) = build_prompt_identical_to_training t c.
Proof.
  split.
  - unfold build_prompt_identical_to_training, prompt_template.
    cbn [String.concat].
    reflexivity.
  - unfold training_prompt, user_turn, build_prompt_identical_to_training.
    repeat rewrite append_assoc. reflexivity.
Qed.

End PromptFacts.

Module TrainingFacts.
Import Training.

Lemma learned_app (l1 l2 : list Z) : learned (l1 ++ l2) = learned l1 + learned l2.
Proof.
  unfold learned. now rewrite filter_app, length_app.
Qed.

Lemma learned_repeat_IGNORE (n : nat) : learned (repeat IGNORE n) = 0.
Proof.
  induction n as [|n IH]; [reflexivity | exact IH].
Qed.

Lemma learned_le_length (l : list Z) : learned l <= length l.
Proof.
  unfold learned. induction l as [|x l IH]; simpl; [lia|].
  destruct (negb (x =? IGNORE)%Z); simpl; lia.
Qed.

Lemma learned_firstn (n : nat) (l : list Z) : learned (firstn n l) <= learned l.
Proof.
  rewrite <- (firstn_skipn n l) at 2. rewrite learned_app. lia.
Qed.

Lemma length_opt_token (t : option Z) : length (opt_token t) <= 1.
Proof.
  destruct t; simpl; lia.
Qed.

Lemma char_tokenize_truncating : truncating char_tokenize.
Proof.
  intros text n. unfold char_tokenize. rewrite length_firstn. lia.
Defined.

Section Facts.

Variable tokenize : string -> nat -> list Z.
Variables bos eos : option Z.
Variable config : ModelConfig.

#[local] Abbreviation run := (preprocess_example_fast tokenize bos eos config).
#[local] Abbreviation whole := (concatenation tokenize bos eos config).

Lemma input_ids_firstn (u a : string) :
  input_ids (run u a) = firstn (max_length config) (whole u a).
Proof.
  unfold preprocess_example_fast, concatenation. cbn [input_ids].
  destruct (Nat.ltb_spec (max_length config)
    (length (opt_token bos ++ prompt_tokens tokenize config u
               ++ response_tokens tokenize config a ++ opt_token eos))) as [H|H].
  - reflexivity.
  - symmetry. now apply firstn_all2.
Qed.

Lemma lengths_agree (u a : string) :
  length (input_ids (run u a)) = length (attention_mask (run u a))
  /\ length (attention_mask (run u a)) = length (labels (run u a)).
Proof.
  unfold preprocess_example_fast. cbn [input_ids attention_mask labels].
  set (ids := if _ <? _ then _ else _).
  set (p := length (opt_token bos) + length (prompt_tokens tokenize config u)).
  rewrite repeat_length. split; [reflexivity|].
  destruct (Nat.eqb_spec (length (repeat IGNORE p ++ skipn p ids)) (length ids)) as [E|E];
    cbn [negb].
  - now rewrite E.
  - rewrite length_firstn, length_app, repeat_length, length_skipn. lia.
Qed.

Lemma learned_bound (u a : string) :
  learned (labels (run u a))
  <= length (response_tokens tokenize config a) + length (opt_token eos).
Proof.
  unfold preprocess_example_fast. cbn [labels].
  set (ids0 := opt_token bos ++ _).
  set (ids := if _ <? _ then _ else _).
  set (p := length (opt_token bos) + length (prompt_tokens tokenize config u)).
  assert (Hids : length ids <= length ids0).
  { unfold ids. destruct (_ <? _); [rewrite length_firstn|]; lia. }
  assert (Hl0 : learned (repeat IGNORE p ++ skipn p ids)
                <= length (response_tokens tokenize config a) + length (opt_token eos)).
  { rewrite learned_app, learned_repeat_IGNORE.
    pose proof (learned_le_length (skipn p ids)) as Hs.
    rewrite length_skipn in Hs.
    unfold ids0 in Hids. rewrite !length_app in Hids. subst p. lia. }
  destruct (negb _).
  - etransitivity; [apply learned_firstn | exact Hl0].
  - exact Hl0.
Qed.

End Facts.

(** C2. The three sequences of a preprocessed example have the same
    length, and at most [max_response_length + 1] label positions differ
    from the sentinel -100 (the response tokens and the end marker). *)
Theorem example_lengths_and_learned
  (tokenize : string -> nat -> list Z) (bos eos : option Z) (config : ModelConfig)
  (u a : string) (Htok : truncating tokenize) :
  let ex := preprocess_example_fast tokenize bos eos config u a in
  length (input_ids ex) = length (attention_mask ex)
  /\ length (attention_mask ex) = length (labels ex)
  /\ learned (labels ex) <= max_response_length config + 1.
Proof.
  cbv zeta.
  destruct (lengths_agree tokenize bos eos config u a) as [H1 H2].
  split; [exact H1 | split; [exact H2 |]].
  pose proof (learned_bound tokenize bos eos config u a) as Hb.
  pose proof (Htok a (max_response_length config)) as Hr.
  pose proof (length_opt_token eos) as He.
  unfold response_tokens in Hb. lia.
Qed.

Lemma example_lengths_and_learned_witness :
  truncating char_tokenize
  /\ (let ex := preprocess_example_fast char_tokenize (Some 1%Z) (Some 2%Z)
                  default_config "<TASK>besoin</TASK>" "<START>ok<END>" in
      length (input_ids ex) = length (attention_mask ex)
      /\ length (attention_mask ex) = length (labels ex)
      /\ learned (labels ex) <= max_response_length default_config + 1).
Proof.
  split.
  - exact char_tokenize_truncating.
  - exact (example_lengths_and_learned char_tokenize (Some 1%Z) (Some 2%Z)
             default_config "<TASK>besoin</TASK>" "<START>ok<END>"
             char_tokenize_truncating).
Defined.

(** C3, as stated, fails: with both halves at their budgets and both
    marker tokens present the concatenation has 1538 tokens, and the
    example keeps only its first 1536: the cut is applied after the
    concatenation. *)
Lemma truncation_after_concatenation :
  let whole := concatenation char_tokenize (Some 1%Z) (Some 2%Z) default_config
                 long_user long_assistant in
  let ex := preprocess_example_fast char_tokenize (Some 1%Z) (Some 2%Z) default_config
              long_user long_assistant in
  length whole = 1538
  /\ length (input_ids ex) = 1536
  /\ input_ids ex = firstn 1536 whole
  /\ input_ids ex <> whole.
Proof.
  cbv zeta.
  assert (L1 : length (concatenation char_tokenize (Some 1%Z) (Some 2%Z) default_config
                         long_user long_assistant) = 1538) by (vm_compute; reflexivity).
  assert (L2 : length (input_ids (preprocess_example_fast char_tokenize (Some 1%Z)
                         (Some 2%Z) default_config long_user long_assistant)) = 1536)
    by (vm_compute; reflexivity).
  split; [exact L1 | split; [exact L2 | split]].
  - apply (input_ids_firstn char_tokenize (Some 1%Z) (Some 2%Z) default_config).
  - intro E. rewrite E, L1 in L2. discriminate L2.
Qed.

(** C3, amended.  The example never has more than [max_length] tokens.
    The prompt and the response are cut to their own budgets first; the
    concatenation with the marker tokens is then cut to [max_length], and
    it is kept whole when it fits. *)
Theorem total_length_bounded
  (tokenize : string -> nat -> list Z) (bos eos : option Z) (config : ModelConfig)
  (u a : string) (Htok : truncating tokenize) :
  let ex := preprocess_example_fast tokenize bos eos config u a in
  let whole := concatenation tokenize bos eos config u a in
  length (input_ids ex) <= max_length config
  /\ length (prompt_tokens tokenize config u) <= max_prompt_length config
  /\ length (response_tokens tokenize config a) <= max_response_length config
  /\ input_ids ex = firstn (max_length config) whole
  /\ (length whole <= max_length config -> input_ids ex = whole).
Proof.
  cbv zeta. rewrite input_ids_firstn.
  split; [rewrite length_firstn; lia|].
  split; [apply Htok|]. split; [apply Htok|]. split; [reflexivity|].
  intro H. now apply firstn_all2.
Qed.

Lemma total_length_bounded_witness :
  truncating char_tokenize
  /\ (let ex := preprocess_example_fast char_tokenize (Some 1%Z) (Some 2%Z)
                  default_config long_user long_assistant in
      let whole := concatenation char_tokenize (Some 1%Z) (Some 2%Z) default_config
                     long_user long_assistant in
      length (input_ids ex) <= max_length default_config
      /\ length (prompt_tokens char_tokenize default_config long_user)
         <= max_prompt_length default_config
      /\ length (response_tokens char_tokenize default_config long_assistant)
         <= max_response_length default_config
      /\ input_ids ex = firstn (max_length default_config) whole
      /\ (length whole <= max_length default_config -> input_ids ex = whole)).
Proof.
  split.
  - exact char_tokenize_truncating.
  - exact (total_length_bounded char_tokenize (Some 1%Z) (Some 2%Z) default_config
             long_user long_assistant char_tokenize_truncating).
Defined.

End TrainingFacts.

Module DatesFacts.
Import Text Calendar Decoder.

#[local] Open Scope Z_scope.

Lemma count_days_ok (n : nat) : forall current days,
  current + Z.of_nat n <= MAXORDINAL ->
  count_days n current days
  = Ok (days + Z.of_nat (length (filter is_business_day
                                   (map (fun k => current + Z.of_nat k) (seq 0 n))))).
Proof.
  induction n as [|n IH]; intros current days Hmax.
  - simpl. f_equal. lia.
  - cbn [count_days]. unfold add_day.
    destruct (Z.ltb_spec MAXORDINAL (current + 1)) as [Hlt|_]; [lia|].
    cbn [bind]. rewrite IH by lia.
    f_equal. cbn [seq map filter].
    rewrite <- seq_shift, map_map.
    replace (current + Z.of_nat 0) with current by lia.
    unfold is_business_day at 2.
    rewrite (map_ext (fun k => current + Z.of_nat (S k)) (fun k => current + 1 + Z.of_nat k))
      by (intro k; lia).
    destruct (weekday current <? 5); cbn [length]; lia.
Qed.

Lemma count_days_overflow (n : nat) : forall current days,
  current + Z.of_nat n = MAXORDINAL ->
  count_days (S n) current days = Raise OverflowError.
Proof.
  induction n as [|n IH]; intros current days Hmax.
  - cbn [count_days]. unfold add_day.
    destruct (Z.ltb_spec MAXORDINAL (current + 1)) as [_|Hge]; [reflexivity | lia].
  - cbn [count_days] in *. unfold add_day at 1.
    destruct (Z.ltb_spec MAXORDINAL (current + 1)) as [Hlt|_]; [lia|].
    cbn [bind]. apply IH. lia.
Qed.

Lemma calculate_unfold (ds de : string) (s e : Z) :
  parse_date ds = Ok (Some s) -> parse_date de = Ok (Some e) ->
  calculate_days_between_dates ds de
  = except (bind (count_days (Z.to_nat (e + 1 - s)) s 0) (fun days => Ok (Z.max 1 days))) 20.
Proof.
  intros Hs He. unfold calculate_days_between_dates. rewrite Hs, He. reflexivity.
Qed.

Lemma calculate_counts (ds de : string) (s e : Z) :
  parse_date ds = Ok (Some s) -> parse_date de = Ok (Some e) ->
  e < s \/ e < MAXORDINAL ->
  calculate_days_between_dates ds de = business_days_spec s e.
Proof.
  intros Hs He Hr. rewrite (calculate_unfold ds de s e Hs He).
  unfold business_days_spec, days_of_range.
  destruct (Z.ltb_spec e s) as [Hlt|Hge].
  - replace (Z.to_nat (e + 1 - s)) with 0%nat by lia. reflexivity.
  - rewrite count_days_ok by lia. reflexivity.
Qed.

Lemma calculate_overflow (ds de : string) (s : Z) :
  parse_date ds = Ok (Some s) -> parse_date de = Ok (Some MAXORDINAL) ->
  s <= MAXORDINAL ->
  calculate_days_between_dates ds de = 20.
Proof.
  intros Hs He Hr. rewrite (calculate_unfold ds de s MAXORDINAL Hs He).
  replace (Z.to_nat (MAXORDINAL + 1 - s)) with (S (Z.to_nat (MAXORDINAL - s))) by lia.
  rewrite count_days_overflow by lia. reflexivity.
Qed.

Lemma calculate_default (ds de : string) :
  (forall s, parse_date ds <> Ok (Some s)) \/ (forall e, parse_date de <> Ok (Some e)) ->
  calculate_days_between_dates ds de = 20.
Proof.
  intros H. unfold calculate_days_between_dates.
  destruct (parse_date ds) as [[s|]|x]; cbn [bind except]; try reflexivity.
  - destruct (parse_date de) as [[e|]|y]; cbn [bind except bound]; try reflexivity.
    destruct H as [H|H]; [now destruct (H s) | now destruct (H e)].
  - destruct (parse_date de) as [[e|]|y]; reflexivity.
Qed.

(** Everywhere but at the end of the calendar the function does what
    its docstring says.  When both dates parse and the range does not
    end on 9999-12-31, the result is the number of days Monday to Friday
    of the inclusive range, clamped to at least 1; any parse failure
    yields the default 20.  From 2024-01-01 to 2024-01-05 the result is
    5, a single-day range on a weekday before 9999-12-31 yields 1, and
    an unparseable pair yields 20.  A range that ends on 9999-12-31
    yields 20. *)
Lemma business_days_characterised (ds de : string) :
  (forall s e, parse_date ds = Ok (Some s) -> parse_date de = Ok (Some e) ->
     e < s \/ e < MAXORDINAL ->
     calculate_days_between_dates ds de = business_days_spec s e)
  /\ (forall s, parse_date ds = Ok (Some s) -> parse_date de = Ok (Some MAXORDINAL) ->
     s <= MAXORDINAL ->
     calculate_days_between_dates ds de = 20)
  /\ ((forall s, parse_date ds <> Ok (Some s)) \/ (forall e, parse_date de <> Ok (Some e)) ->
     calculate_days_between_dates ds de = 20)
  /\ (forall d, parse_date ds = Ok (Some d) -> parse_date de = Ok (Some d) ->
     is_business_day d = true -> d < MAXORDINAL ->
     calculate_days_between_dates ds de = 1)
  /\ calculate_days_between_dates "2024-01-01" "2024-01-05" = 5
  /\ calculate_days_between_dates "2024-01-03" "2024-01-03" = 1
  /\ calculate_days_between_dates "pas de date" "inconnue" = 20.
Proof.
  split; [intros s e; apply calculate_counts|].
  split; [intros s; apply calculate_overflow|].
  split; [apply calculate_default|].
  split.
  - intros d Hs He Hb Hd.
    rewrite (calculate_counts ds de d d Hs He) by lia.
    unfold business_days_spec, days_of_range.
    replace (Z.to_nat (d + 1 - d)) with 1%nat by lia.
    cbn [seq map filter]. replace (d + Z.of_nat 0) with d by lia.
    rewrite Hb. reflexivity.
  - repeat split; vm_compute; reflexivity.
Qed.

(** C9 at the last day of the calendar.  Both dates parse, 9999-12-31
    is a Friday, and the single-day range on it counts one business day;
    the function returns the default 20, because the loop steps past the
    last day after counting it and the overflow is caught with every
    other error. *)
Theorem last_day_yields_default :
  parse_date "9999-12-31" = Ok (Some MAXORDINAL)
  /\ weekday MAXORDINAL = 4
  /\ is_business_day MAXORDINAL = true
  /\ business_days_spec MAXORDINAL MAXORDINAL = 1
  /\ count_days 1 MAXORDINAL 0 = Raise OverflowError
  /\ calculate_days_between_dates "9999-12-31" "9999-12-31" = 20.
Proof.
  repeat split; vm_compute; reflexivity.
Qed.

Lemma business_days_characterised_witness :
  parse_date "2024-01-01" = Ok (Some 738886)
  /\ parse_date "2024-01-12" = Ok (Some 738897)
  /\ calculate_days_between_dates "2024-01-01" "2024-01-12"
     = business_days_spec 738886 738897.
Proof.
  split; [reflexivity | split; [reflexivity |]].
  apply (proj1 (business_days_characterised "2024-01-01" "2024-01-12") 738886 738897).
  - reflexivity.
  - reflexivity.
  - right. unfold MAXORDINAL. lia.
Defined.

End DatesFacts.

Module TextFacts.
Import Text.

#[local] Open Scope string_scope.

Lemma split_nonempty (sep : ascii) (s : string) : split sep s <> [].
Proof.
  destruct s as [|c s]; simpl; [discriminate|].
  destruct (Ascii.eqb c sep); [discriminate|].
  destruct (split sep s); discriminate.
Qed.

Lemma split_head (sep c : ascii) (s : string) :
  Ascii.eqb c sep = false ->
  exists p ps, split sep (String c s) = String c p :: ps.
Proof.
  intro H. simpl. rewrite H.
  destruct (split sep s) as [|p ps]; eauto.
Qed.

Lemma lstrip_head (s : string) :
  lstrip s = "" \/ exists c r, lstrip s = String c r /\ is_space c = false.
Proof.
  induction s as [|c s IH]; simpl; [now left|].
  destruct (is_space c) eqn:E; [exact IH|]. right. eauto.
Qed.

Lemma rstrip_head (c : ascii) (s : string) :
  is_space c = false -> exists r, rstrip (String c s) = String c r.
Proof.
  intro H. simpl. rewrite H. destruct (rstrip s); eauto.
Qed.

Lemma strip_head (s : string) :
  strip s = "" \/ exists c r, strip s = String c r /\ is_space c = false.
Proof.
  unfold strip. destruct (lstrip_head s) as [E|(c & r & E & Hc)]; rewrite E.
  - now left.
  - right. destruct (rstrip_head c r Hc) as [r' E']. eauto.
Qed.

Lemma strip_keeps_head (c : ascii) (s : string) :
  is_space c = false -> exists r, strip (String c s) = String c r.
Proof.
  intro H. unfold strip. simpl lstrip. rewrite H. now apply rstrip_head.
Qed.

Lemma space_neq (c x : ascii) :
  is_space c = false -> is_space x = true -> Ascii.eqb c x = false.
Proof.
  intros Hc Hx. destruct (Ascii.eqb_spec c x) as [->|]; congruence.
Qed.

(** The first line of a text that is not blank is not blank. *)
Lemma first_line_nonblank (content : string) :
  strip content <> "" ->
  exists c p ps, split (ascii_of_nat 10) (strip content) = String c p :: ps
                 /\ is_empty (strip (String c p)) = false.
Proof.
  intro H. destruct (strip_head content) as [E|(c & r & E & Hc)]; [contradiction|].
  rewrite E.
  destruct (split_head (ascii_of_nat 10) c r) as (p & ps & Hs).
  { apply space_neq; [exact Hc | reflexivity]. }
  exists c, p, ps. split; [exact Hs|].
  destruct (strip_keeps_head c p Hc) as [r' ->]. reflexivity.
Qed.

Lemma enumerate_length {A : Type} (l : list A) : length (enumerate l) = length l.
Proof.
  unfold enumerate. rewrite length_combine, length_seq. lia.
Qed.

Lemma index_lt {A : Type} (l : list A) (k : nat) :
  k < length l -> exists x, index l k = Ok x /\ nth_error l k = Some x.
Proof.
  intro H. unfold index. destruct (nth_error l k) eqn:E; [eauto|].
  apply nth_error_None in E. lia.
Qed.

End TextFacts.

Module DecoderFacts.
Import Text Calendar Schema Decoder TextFacts.

#[local] Open Scope string_scope.
#[local] Open Scope list_scope.
#[local] Open Scope nat_scope.

Lemma parts_of_nonempty (line : string) : parts_of line <> [].
Proof.
  unfold parts_of. pose proof (split_nonempty "|" line) as H.
  destruct (split "|" line); [contradiction | discriminate].
Qed.

Lemma first_lines_length (n : nat) (content : string) :
  length (first_lines n content) <= n.
Proof.
  unfold first_lines. rewrite enumerate_length, length_firstn. lia.
Qed.

(** *** The shared loop *)

Section Loop.

Variable row : nat -> list string -> result (option record).

(** A row function that appends a record for every line: the loop with
    a cap that the number of lines respects appends one record per line
    that is not blank, in order. *)
Lemma for_lines_total (n : nat)
  (Hrow : forall i parts, parts <> [] -> exists r, row i parts = Ok (Some r)) :
  forall lines rows0,
    length rows0 + length lines <= n ->
    exists rows,
      for_lines row (Some n) lines rows0 = Ok (rows0 ++ rows)
      /\ Forall2 (fun l r => row (fst l) (parts_of (snd l)) = Ok (Some r))
                 (filter nonblank lines) rows.
Proof.
  induction lines as [|[i line] rest IH]; intros rows0 Hlen.
  - exists []. rewrite app_nil_r. split; constructor.
  - cbn [for_lines filter]. unfold nonblank at 1. cbn [snd].
    destruct (is_empty (strip line)) eqn:E; cbn [negb].
    + apply IH. cbn [length] in Hlen. lia.
    + destruct (Hrow i (parts_of line) (parts_of_nonempty line)) as [r Hr].
      rewrite Hr. cbn [bind].
      destruct (n <=? length (rows0 ++ [r])) eqn:Ecap.
      * apply Nat.leb_le in Ecap. rewrite length_app in Ecap. cbn [length] in Ecap, Hlen.
        destruct rest as [|x rest]; [|cbn [length] in Hlen; lia].
        exists [r]. split; [reflexivity|].
        cbn [filter]. constructor; [exact Hr | constructor].
      * destruct (IH (rows0 ++ [r])) as (rows & Hrows & Hall).
        { rewrite length_app. cbn [length] in *. lia. }
        exists (r :: rows). split.
        -- rewrite Hrows. now rewrite <- app_assoc.
        -- constructor; [exact Hr | exact Hall].
Qed.

(** A row function that never raises makes the loop return. *)
Lemma for_lines_returns (cap : option nat)
  (Hrow : forall i parts, parts <> [] -> exists r, row i parts = Ok r) :
  forall lines rows0, exists rows, for_lines row cap lines rows0 = Ok rows.
Proof.
  induction lines as [|[i line] rest IH]; intros rows0.
  - now exists rows0.
  - cbn [for_lines]. destruct (is_empty (strip line)); [apply IH|].
    destruct (Hrow i (parts_of line) (parts_of_nonempty line)) as [r Hr].
    rewrite Hr. cbn [bind].
    destruct (match cap with Some n => n <=? _ | None => false end); [eauto | apply IH].
Qed.

(** What holds of every record a row function builds holds of every
    record the loop returns, and there is at most one record per line. *)
Lemma for_lines_inv (P : record -> Prop) (cap : option nat)
  (Hrow : forall i parts r, row i parts = Ok (Some r) -> P r) :
  forall lines rows0 rows,
    for_lines row cap lines rows0 = Ok rows ->
    Forall P rows0 ->
    Forall P rows /\ length rows <= length rows0 + length lines.
Proof.
  induction lines as [|[i line] rest IH]; intros rows0 rows Hrun Hall.
  - cbn in Hrun. injection Hrun as <-. split; [exact Hall | cbn; lia].
  - cbn [for_lines] in Hrun. cbn [length].
    destruct (is_empty (strip line)).
    { destruct (IH _ _ Hrun Hall). split; [assumption | lia]. }
    destruct (row i (parts_of line)) as [[r|]|e] eqn:Hr; cbn [bind] in Hrun;
      [| | discriminate].
    + assert (Hall' : Forall P (rows0 ++ [r])).
      { apply Forall_app. split; [exact Hall|]. constructor; [|constructor].
        exact (Hrow _ _ _ Hr). }
      assert (Hlen' : length (rows0 ++ [r]) = length rows0 + 1)
        by (rewrite length_app; reflexivity).
      destruct (match cap with Some n => n <=? _ | None => false end).
      * injection Hrun as <-. split; [exact Hall' | lia].
      * destruct (IH _ _ Hrun Hall'). split; [assumption | lia].
    + destruct (match cap with Some n => n <=? _ | None => false end).
      * injection Hrun as <-. split; [exact Hall | lia].
      * destruct (IH _ _ Hrun Hall). split; [assumption | lia].
Qed.

End Loop.

(** A blank text decodes to the empty list, whatever the row function. *)
Lemma blank_text_decodes_to_nil row cap (n : nat) (content : string) :
  strip content = "" -> for_lines row cap (first_lines n content) [] = Ok [].
Proof.
  intro H. unfold first_lines. rewrite H.
  destruct n as [|n]; [reflexivity|].
  cbn [split firstn]. rewrite firstn_nil. reflexivity.
Qed.

(** *** The row functions *)

Ltac by_cases_on_parts parts :=
  destruct parts as [|?p0 [|?p1 [|?p2 [|?p3 [|?p4 [|?p5 ?rest]]]]]].

Lemma phases_row_total (i : nat) (parts : list string) :
  parts <> [] -> exists r, phases_row i parts = Ok (Some r).
Proof.
  intro H. by_cases_on_parts parts; [contradiction | ..]; eexists; reflexivity.
Qed.

Lemma jalons_row_total (i : nat) (parts : list string) :
  parts <> [] -> exists r, jalons_row i parts = Ok (Some r).
Proof.
  intro H. by_cases_on_parts parts; [contradiction | ..]; eexists; reflexivity.
Qed.

Lemma phases_row_shape (i : nat) (parts : list string) (r : record) :
  phases_row i parts = Ok (Some r) -> positional 6 r.
Proof.
  by_cases_on_parts parts; intro H; injection H as <-; split; reflexivity.
Qed.

Lemma jalons_row_shape (i : nat) (parts : list string) (r : record) :
  jalons_row i parts = Ok (Some r) -> positional 4 r.
Proof.
  by_cases_on_parts parts; intro H; injection H as <-; split; reflexivity.
Qed.

Lemma contraintes_row_shape (i : nat) (parts : list string) (r : record) :
  contraintes_row i parts = Ok (Some r) -> positional 4 r.
Proof.
  by_cases_on_parts parts; intro H; try discriminate H;
    injection H as <-; split; reflexivity.
Qed.

Lemma risques_row_shape (i : nat) (parts : list string) (r : record) :
  risques_row i parts = Ok (Some r) -> positional 5 r.
Proof.
  by_cases_on_parts parts; intro H; try discriminate H;
    injection H as <-; split; reflexivity.
Qed.

Lemma livrables_row_shape (i : nat) (parts : list string) (r : record) :
  livrables_row i parts = Ok (Some r) -> positional 4 r.
Proof.
  by_cases_on_parts parts; intro H; try discriminate H;
    injection H as <-; split; reflexivity.
Qed.

Lemma couts_construction_row_shape (i : nat) (parts : list string) (r : record) :
  couts_construction_row i parts = Ok (Some r) -> positional 5 r.
Proof.
  by_cases_on_parts parts; intro H; try discriminate H;
    injection H as <-; split; reflexivity.
Qed.

Lemma couts_fonctionnement_row_keys (i : nat) (parts : list string) (r : record) :
  couts_fonctionnement_row i parts = Ok (Some r) -> map fst r = map col (seq 0 5).
Proof.
  by_cases_on_parts parts; intro H; try discriminate H;
    injection H as <-; reflexivity.
Qed.

Lemma contraintes_row_returns (i : nat) (parts : list string) :
  parts <> [] -> exists r, contraintes_row i parts = Ok r.
Proof.
  intros _. by_cases_on_parts parts; eexists; reflexivity.
Qed.

Lemma risques_row_returns (i : nat) (parts : list string) :
  parts <> [] -> exists r, risques_row i parts = Ok r.
Proof.
  intros _. by_cases_on_parts parts; eexists; reflexivity.
Qed.

Lemma livrables_row_returns (i : nat) (parts : list string) :
  parts <> [] -> exists r, livrables_row i parts = Ok r.
Proof.
  intros _. by_cases_on_parts parts; eexists; reflexivity.
Qed.

Lemma couts_construction_row_returns (i : nat) (parts : list string) :
  parts <> [] -> exists r, couts_construction_row i parts = Ok r.
Proof.
  intros _. by_cases_on_parts parts; eexists; reflexivity.
Qed.

(** The total of a construction-cost row is the product of the two
    extracted numbers. *)
Lemma construction_total_is_product (i : nat) (parts : list string) (r : record) :
  couts_construction_row i parts = Ok (Some r) ->
  exists p1 p2,
    nth_error parts 1 = Some p1 /\ nth_error parts 2 = Some p2
    /\ Dict.get r "col1" = Some (Str (str_of_Z (extract_number p1)))
    /\ Dict.get r "col2" = Some (Str (str_of_Z (extract_number p2)))
    /\ Dict.get r "col3" = Some (Str (str_of_Z (extract_number p1 * extract_number p2))).
Proof.
  by_cases_on_parts parts; intro H; try discriminate H;
    injection H as <-; do 2 eexists; repeat split.
Qed.

(** *** Lines with too few columns *)

Lemma first_lines_head (n : nat) (content : string) :
  strip content <> "" ->
  exists l rest, first_lines (S n) content = l :: rest /\ nonblank l = true.
Proof.
  intro H. destruct (first_line_nonblank content H) as (c & p & ps & Hs & Hb).
  unfold first_lines, Decoder.LF. rewrite Hs.
  exists (0, String c p), (combine (seq 1 (length (firstn n ps))) (firstn n ps)).
  split; [reflexivity|]. unfold nonblank. cbn [snd]. now rewrite Hb.
Qed.

Lemma fallback_rows row (n : nat) (content : string)
  (Hrow : forall i parts, parts <> [] -> exists r, row i parts = Ok (Some r)) :
  exists rows,
    for_lines row (Some (S n)) (first_lines (S n) content) [] = Ok rows
    /\ Forall2 (fun l r => row (fst l) (parts_of (snd l)) = Ok (Some r))
               (filter nonblank (first_lines (S n) content)) rows
    /\ (strip content <> "" -> rows <> []).
Proof.
  destruct (for_lines_total row (S n) Hrow (first_lines (S n) content) [])
    as (rows & Hrun & Hall).
  { pose proof (first_lines_length (S n) content). cbn [length]. lia. }
  exists rows. split; [exact Hrun | split; [exact Hall|]].
  intros Hne ->. destruct (first_lines_head n content Hne) as (l & rest & Hl & Hb).
  rewrite Hl in Hall. cbn [filter] in Hall. rewrite Hb in Hall. inversion Hall.
Qed.

(** C4, as stated, fails: the constraint and risk decoders drop a line
    that is not empty but has too few columns, and a text made of one
    blank line decodes to the empty list even for the phase and
    milestone decoders, which define a fallback. *)
Lemma short_line_dropped_blank_text_empty :
  parts_of "Budget|annuel" = ["Budget"; "annuel"]
  /\ parse_contraintes "Budget|annuel" = Ok []
  /\ parse_risques "Retard|Faible|Fort" = Ok []
  /\ parse_phases (String Decoder.LF "") = Ok []
  /\ parse_jalons (String Decoder.LF "") = Ok [].
Proof.
  repeat split; vm_compute; reflexivity.
Qed.

(** C4, amended.  Only the phase and milestone decoders define a
    fallback.  They never raise and append one record for every line
    that is not blank among the first 8 (5) lines of the stripped text;
    a line with fewer columns than the minimum gives the minimal record
    made of the columns that exist and the fixed defaults; so a text
    that is not blank decodes to a non-empty list.  The five other
    decoders skip a line with fewer columns than their minimum, and a
    blank text decodes to the empty list for every field. *)
Theorem fallback_decoders (content : string) :
  (exists rows,
     parse_phases content = Ok rows
     /\ Forall2 (fun l r => phases_row (fst l) (parts_of (snd l)) = Ok (Some r))
                (filter nonblank (first_lines 8 content)) rows
     /\ (strip content <> "" -> rows <> []))
  /\ (exists rows,
     parse_jalons content = Ok rows
     /\ Forall2 (fun l r => jalons_row (fst l) (parts_of (snd l)) = Ok (Some r))
                (filter nonblank (first_lines 5 content)) rows
     /\ (strip content <> "" -> rows <> []))
  /\ (forall i p0 rest, length rest < 4 ->
      phases_row i (p0 :: rest)
      = Ok (Some [("col0", Str p0); ("col1", Str (hd "Description à définir" rest));
                  ("col2", Str "20"); ("col3", Str ""); ("col4", Str "");
                  ("col5", Str "Équipe projet")]))
  /\ (forall i p0 rest, length rest < 2 ->
      jalons_row i (p0 :: rest)
      = Ok (Some [("col0", Str p0); ("col1", Str "Validation"); ("col2", Str "");
                  ("col3", Str "Critères à définir")]))
  /\ (forall i parts,
      (length parts < 3 -> contraintes_row i parts = Ok None)
      /\ (length parts < 4 -> risques_row i parts = Ok None)
      /\ (length parts < 3 -> livrables_row i parts = Ok None)
      /\ (length parts < 3 -> couts_construction_row i parts = Ok None)
      /\ (length parts < 3 -> couts_fonctionnement_row i parts = Ok None))
  /\ (forall f, strip content = "" -> parse_table_content content f = Ok []).
Proof.
  split; [exact (fallback_rows phases_row 7 content phases_row_total)|].
  split; [exact (fallback_rows jalons_row 4 content jalons_row_total)|].
  split.
  { intros i p0 rest H.
    destruct rest as [|p1 [|p2 [|p3 [|p4 rest]]]]; try reflexivity.
    cbn [length] in H. lia. }
  split.
  { intros i p0 rest H.
    destruct rest as [|p1 [|p2 rest]]; try reflexivity.
    cbn [length] in H. lia. }
  split.
  { intros i parts.
    repeat split; intro H; by_cases_on_parts parts; try reflexivity;
      cbn [length] in H; lia. }
  intros f H. unfold parse_table_content.
  repeat (match goal with |- context [String.eqb ?a ?b] => destruct (String.eqb a b) end);
    try reflexivity; now apply blank_text_decodes_to_nil.
Qed.

Lemma fallback_decoders_witness :
  strip "Cadrage" <> ""
  /\ length ["Etude"] < 4
  /\ (exists rows, parse_phases "Cadrage" = Ok rows /\ rows <> [])
  /\ phases_row 0 ["Cadrage"; "Etude"]
     = Ok (Some [("col0", Str "Cadrage"); ("col1", Str "Etude");
                 ("col2", Str "20"); ("col3", Str ""); ("col4", Str "");
                 ("col5", Str "Équipe projet")]).
Proof.
  assert (Hne : strip "Cadrage" <> "") by (vm_compute; discriminate).
  assert (Hlen : length ["Etude"] < 4) by (cbn; lia).
  split; [exact Hne | split; [exact Hlen | split]].
  - destruct (proj1 (fallback_decoders "Cadrage")) as (rows & Hrun & _ & Hrows).
    exists rows. split; [exact Hrun | exact (Hrows Hne)].
  - exact (proj1 (proj2 (proj2 (fallback_decoders "Cadrage"))) 0 "Cadrage" ["Etude"] Hlen).
Defined.

(** *** Shape of the decoded records *)

Lemma decoder_shape row cap (n k : nat) (content : string)
  (Hret : forall i parts, parts <> [] -> exists r, row i parts = Ok r)
  (Hshape : forall i parts r, row i parts = Ok (Some r) -> positional k r) :
  exists rows,
    for_lines row cap (first_lines n content) [] = Ok rows
    /\ length rows <= n /\ Forall (positional k) rows.
Proof.
  destruct (for_lines_returns row cap Hret (first_lines n content) []) as [rows Hrun].
  exists rows. split; [exact Hrun|].
  destruct (for_lines_inv row (positional k) cap Hshape _ _ _ Hrun (Forall_nil _))
    as [Hall Hlen].
  pose proof (first_lines_length n content). cbn [length] in Hlen.
  split; [lia | exact Hall].
Qed.

Lemma some_returns (row : nat -> list string -> result (option record)) :
  (forall i parts, parts <> [] -> exists r, row i parts = Ok (Some r)) ->
  forall i parts, parts <> [] -> exists r, row i parts = Ok r.
Proof.
  intros H i parts Hp. destruct (H i parts Hp) as [r Hr]. eauto.
Qed.

(** C8, as stated, fails: a decoded phase record has the six keys
    col0 .. col5, while the schema of the field has five columns. *)
Lemma phase_record_has_six_columns :
  length (columns_of "phases") = 5
  /\ parse_phases "Cadrage|Etude|2024-01-01|2024-01-05|MOA"
     = Ok [[("col0", Str "Cadrage"); ("col1", Str "Etude"); ("col2", Str "5");
            ("col3", Str "2024-01-01"); ("col4", Str "2024-01-05");
            ("col5", Str "Équipe projet")]]
  /\ ~ positional (length (columns_of "phases"))
         [("col0", Str "Cadrage"); ("col1", Str "Etude"); ("col2", Str "5");
          ("col3", Str "2024-01-01"); ("col4", Str "2024-01-05");
          ("col5", Str "Équipe projet")].
Proof.
  split; [reflexivity | split; [vm_compute; reflexivity |]].
  intros [H _]. vm_compute in H. discriminate H.
Qed.

(** C8, amended.  The decoders of constraints, risks, deliverables,
    milestones and construction costs always return; their records have
    the keys col0, col1, ... in order, as many as the schema of the
    field has columns, with string values.  The phase decoder always
    returns records with the six keys col0 .. col5 and string values,
    one more than the five columns of its schema.  The records of the
    operating-cost decoder, when it returns, have the five keys
    col0 .. col4.  Every returned list is at most as long as the number
    of lines the decoder reads: 5, 6, 8, 6, 5, 7 and 7. *)
Theorem decoded_records_shape (content : string) :
  (forall f, In f ["contraintes"; "risques"; "livrables"; "jalons"; "coutsConstruction"] ->
     exists rows,
       parse_table_content content f = Ok rows
       /\ length rows <= max_rows f
       /\ Forall (positional (length (columns_of f))) rows)
  /\ (exists rows,
       parse_table_content content "phases" = Ok rows
       /\ length rows <= max_rows "phases"
       /\ Forall (positional 6) rows
       /\ length (columns_of "phases") = 5)
  /\ (forall rows,
       parse_table_content content "coutsFonctionnement" = Ok rows ->
       length rows <= max_rows "coutsFonctionnement"
       /\ Forall (fun r => map fst r = map col (seq 0 5)) rows).
Proof.
  split; [|split].
  - intros f Hf. cbn [In] in Hf.
    destruct Hf as [<-|[<-|[<-|[<-|[<-|[]]]]]].
    + exact (decoder_shape contraintes_row None 5 4 content
               contraintes_row_returns contraintes_row_shape).
    + exact (decoder_shape risques_row None 6 5 content
               risques_row_returns risques_row_shape).
    + exact (decoder_shape livrables_row None 6 4 content
               livrables_row_returns livrables_row_shape).
    + exact (decoder_shape jalons_row (Some 5) 5 4 content
               (some_returns jalons_row jalons_row_total) jalons_row_shape).
    + exact (decoder_shape couts_construction_row None 7 5 content
               couts_construction_row_returns couts_construction_row_shape).
  - destruct (decoder_shape phases_row (Some 8) 8 6 content
                (some_returns phases_row phases_row_total) phases_row_shape)
      as (rows & Hrun & Hlen & Hall).
    exists rows. repeat split; assumption.
  - intros rows Hrun.
    change (parse_table_content content "coutsFonctionnement")
      with (for_lines couts_fonctionnement_row None (first_lines 7 content) []) in Hrun.
    destruct (for_lines_inv couts_fonctionnement_row
                (fun r => map fst r = map col (seq 0 5)) None
                couts_fonctionnement_row_keys _ _ _ Hrun (Forall_nil _)) as [Hall Hlen].
    pose proof (first_lines_length 7 content). cbn [length] in Hlen.
    split; [change (max_rows "coutsFonctionnement") with 7; lia | exact Hall].
Qed.

Lemma decoded_records_shape_witness :
  In "risques" ["contraintes"; "risques"; "livrables"; "jalons"; "coutsConstruction"]
  /\ (exists rows,
        parse_table_content "Retard|Faible|Fort|Suivi hebdomadaire" "risques" = Ok rows
        /\ length rows <= max_rows "risques"
        /\ Forall (positional (length (columns_of "risques"))) rows)
  /\ parse_table_content "Licence|2|1200|7|X" "coutsFonctionnement"
     = Ok [[("col0", Str "Licence"); ("col1", Str "2");
            ("col2", Num (true_div 1200 12)); ("col3", Str "7"); ("col4", Str "X")]]
  /\ length [[("col0", Str "Licence"); ("col1", Str "2");
              ("col2", Num (true_div 1200 12)); ("col3", Str "7"); ("col4", Str "X")]]
     <= max_rows "coutsFonctionnement".
Proof.
  assert (Hin : In "risques"
                  ["contraintes"; "risques"; "livrables"; "jalons"; "coutsConstruction"])
    by (cbn; tauto).
  assert (Hrun : parse_table_content "Licence|2|1200|7|X" "coutsFonctionnement"
                 = Ok [[("col0", Str "Licence"); ("col1", Str "2");
                        ("col2", Num (true_div 1200 12)); ("col3", Str "7");
                        ("col4", Str "X")]])
    by (vm_compute; reflexivity).
  split; [exact Hin | split; [| split; [exact Hrun |]]].
  - exact (proj1 (decoded_records_shape "Retard|Faible|Fort|Suivi hebdomadaire")
             "risques" Hin).
  - exact (proj1 (proj2 (proj2 (decoded_records_shape "Licence|2|1200|7|X")) _ Hrun)).
Defined.

(** *** Cost totals *)

(** C7 on the operating-cost decoder: for the row Licence|2|1200|7|X the
    quantity is 2 and the monthly price 1200 / 12, so the annual total
    is 2400; the record keeps the fourth column of the line, "7", under
    col3, and the total is not stored. *)
Theorem operating_total_not_stored :
  extract_number "2" = 2%Z
  /\ extract_number "1200" = 1200%Z
  /\ num (total_annuel_of 2 (true_div 1200 12))
     = (2400 * den (total_annuel_of 2 (true_div 1200 12)))%Z
  /\ parse_couts_fonctionnement "Licence|2|1200|7|X"
     = Ok [[("col0", Str "Licence"); ("col1", Str "2");
            ("col2", Num (true_div 1200 12)); ("col3", Str "7"); ("col4", Str "X")]]
  /\ parse_couts_fonctionnement "Licence|2|1200" = Raise IndexError.
Proof.
  repeat split; vm_compute; reflexivity.
Qed.

End DecoderFacts.

Module AssemblerFacts.
Import Text Schema Assembler.

#[local] Open Scope string_scope.
#[local] Open Scope list_scope.
#[local] Open Scope nat_scope.

(** *** Lists of strings *)

Lemma mem_In (x : string) (l : list string) : mem x l = true <-> In x l.
Proof.
  unfold mem. rewrite existsb_exists. split.
  - intros (y & Hy & E). apply String.eqb_eq in E. now subst.
  - intro H. exists x. split; [exact H | apply String.eqb_refl].
Qed.

Lemma mem_false (x : string) (l : list string) : mem x l = false <-> ~ In x l.
Proof.
  rewrite <- mem_In. destruct (mem x l); split; congruence.
Qed.

Lemma all_distinct_NoDup (l : list string) : all_distinct l = true -> NoDup l.
Proof.
  induction l as [|x l IH]; intro H; [constructor|].
  cbn in H. apply andb_prop in H as [Hx Hl].
  constructor; [|now apply IH].
  apply mem_false. now destruct (mem x l).
Qed.

Lemma In_firstn {A : Type} (n : nat) (l : list A) (x : A) : In x (firstn n l) -> In x l.
Proof.
  intro H. rewrite <- (firstn_skipn n l). apply in_or_app. now left.
Qed.

Lemma NoDup_firstn {A : Type} (n : nat) (l : list A) : NoDup l -> NoDup (firstn n l).
Proof.
  intro H. rewrite <- (firstn_skipn n l) in H. exact (NoDup_app_remove_r _ _ H).
Qed.

Lemma get_In {V : Type} (d : list (string * V)) (k : string) (v : V) :
  Dict.get d k = Some v -> In (k, v) d.
Proof.
  induction d as [|[k' v'] d IH]; cbn; [discriminate|].
  destruct (String.eqb_spec k' k) as [->|_].
  - intro H. injection H as ->. now left.
  - intro H. right. now apply IH.
Qed.

(** *** The tables of the registry *)

Lemma order_distinct : NoDup FIELD_GENERATION_ORDER.
Proof.
  apply all_distinct_NoDup. vm_compute. reflexivity.
Qed.

Lemma always_distinct : NoDup ALWAYS_INCLUDED.
Proof.
  apply all_distinct_NoDup. vm_compute. reflexivity.
Qed.

Lemma always_not_tabular (f : string) :
  In f ALWAYS_INCLUDED -> Dict.mem TABLE_FIELDS f = false.
Proof.
  assert (H : forallb (fun f => negb (Dict.mem TABLE_FIELDS f)) ALWAYS_INCLUDED = true)
    by (vm_compute; reflexivity).
  rewrite forallb_forall in H. intro Hf. specialize (H f Hf).
  now destruct (Dict.mem TABLE_FIELDS f).
Qed.

(** No field is relevant to itself, and no relevance list repeats one. *)
Lemma relevant_table_sound (t : string) :
  ~ In t (relevant_of t) /\ NoDup (relevant_of t).
Proof.
  assert (H : forallb (fun '(k, l) => negb (mem k l) && all_distinct l) RELEVANT_CONTEXT
              = true) by (vm_compute; reflexivity).
  rewrite forallb_forall in H. unfold relevant_of.
  destruct (Dict.get RELEVANT_CONTEXT t) as [l|] eqn:E.
  - specialize (H (t, l) (get_In _ _ _ E)). cbn in H.
    apply andb_prop in H as [H1 H2]. split.
    + apply mem_false. now destruct (mem t l).
    + now apply all_distinct_NoDup.
  - split; [intros [] | constructor].
Qed.

(** *** The random source *)

Lemma randbelow_lt (n : nat) (g : rng) : 0 < n -> fst (randbelow n g) < n.
Proof.
  intro H. destruct g as [|x g]; cbn; [exact H|].
  apply Nat.mod_upper_bound. lia.
Qed.

Lemma randint_range (g : rng) : 3 <= fst (randint 3 5 g) <= 5.
Proof.
  unfold randint. pose proof (randbelow_lt (5 - 3 + 1) g) as H.
  destruct (randbelow (5 - 3 + 1) g) as [j g']. cbn [fst] in *.
  cbn in H. lia.
Qed.

Lemma update_length (l : list string) (k : nat) (v : string) :
  length (update l k v) = length l.
Proof.
  revert k; induction l as [|x l IH]; intros [|k]; cbn; auto.
Qed.

Lemma nth_error_update_same (l : list string) (k : nat) (v a : string) :
  nth_error l k = Some a -> nth_error (update l k v) k = Some v.
Proof.
  revert k; induction l as [|x l IH]; intros [|k]; cbn; try discriminate; auto.
Qed.

Lemma nth_error_update_other (l : list string) (k j : nat) (v : string) :
  k <> j -> nth_error (update l k v) j = nth_error l j.
Proof.
  revert k j; induction l as [|x l IH]; intros [|k] [|j] H; cbn; auto; try lia.
Qed.

Lemma update_perm (l : list string) (k : nat) (a b : string) :
  nth_error l k = Some a -> Permutation (b :: l) (a :: update l k b).
Proof.
  revert k; induction l as [|x l IH]; intros [|k]; cbn; try discriminate.
  - intro H. injection H as ->. apply perm_swap.
  - intro H. specialize (IH k H).
    transitivity (x :: b :: l); [apply perm_swap|].
    transitivity (x :: a :: update l k b); [now constructor | apply perm_swap].
Qed.

Lemma swap_perm (x : list string) (i j : nat) : Permutation (swap x i j) x.
Proof.
  unfold swap.
  destruct (nth_error x i) as [a|] eqn:Ei; [|reflexivity].
  destruct (nth_error x j) as [b|] eqn:Ej; [|reflexivity].
  assert (Hj : nth_error (update x i b) j = Some b).
  { destruct (Nat.eq_dec i j) as [<-|Hne].
    - exact (nth_error_update_same x i b a Ei).
    - now rewrite nth_error_update_other. }
  pose proof (update_perm x i a b Ei) as P1.
  pose proof (update_perm (update x i b) j b a Hj) as P2.
  symmetry. apply (Permutation_cons_inv (a := b)).
  etransitivity; [exact P1|].
  etransitivity; [exact P2|]. reflexivity.
Qed.

Lemma shuffle_from_perm (i : nat) : forall x g, Permutation (fst (shuffle_from i x g)) x.
Proof.
  induction i as [|i IH]; intros x g; [reflexivity|].
  cbn [shuffle_from]. destruct (randbelow (S (S i)) g) as [j g'].
  etransitivity; [apply IH | apply swap_perm].
Qed.

Lemma shuffle_perm (x : list string) (g : rng) : Permutation (fst (shuffle x g)) x.
Proof.
  apply shuffle_from_perm.
Qed.

(** *** The loops of the assembler *)

Section Loops.

Variable ctx : context.
Variable target : string.

Lemma always_step_marked (f : string) (parts used : list string) :
  Dict.mem TABLE_FIELDS f = false ->
  always_step ctx (parts, used) f
  = if marked ctx f then (push parts (block_of ctx f), push used f) else (parts, used).
Proof.
  intro Hf. unfold always_step, marked, block_of, block_text.
  destruct (Dict.get ctx f) as [v|]; [|reflexivity].
  destruct (truth v); [|reflexivity].
  rewrite Hf. reflexivity.
Qed.

Lemma always_fold (l : list string) :
  (forall f, In f l -> Dict.mem TABLE_FIELDS f = false) ->
  forall parts used,
    fold_left (always_step ctx) l (parts, used)
    = (parts ++ map (block_of ctx) (filter (marked ctx) l), used ++ filter (marked ctx) l).
Proof.
  induction l as [|f l IH]; intros Hl parts used.
  - cbn. now rewrite !app_nil_r.
  - cbn [fold_left filter].
    rewrite always_step_marked by (apply Hl; now left).
    assert (Hl' : forall x, In x l -> Dict.mem TABLE_FIELDS x = false)
      by (intros x Hx; apply Hl; now right).
    destruct (marked ctx f); rewrite (IH Hl'); [|reflexivity].
    unfold push. cbn [map]. now rewrite <- !app_assoc.
Qed.

Lemma random_step_appendable (f : string) (parts used : list string) :
  random_step ctx (parts, used) f
  = if appendable ctx f then (push parts (block_of ctx f), push used f) else (parts, used).
Proof.
  unfold random_step, appendable, append_field, block_of, block_text.
  destruct (Dict.get ctx f) as [v|]; [|reflexivity].
  destruct (Dict.mem TABLE_FIELDS f && is_list v); [|reflexivity].
  destruct (negb (is_empty (format_table_for_context (rows_of v) f))); reflexivity.
Qed.

Lemma random_fold (fs : list string) :
  forall parts used,
    fold_left (random_step ctx) fs (parts, used)
    = (parts ++ map (block_of ctx) (filter (appendable ctx) fs),
       used ++ filter (appendable ctx) fs).
Proof.
  induction fs as [|f fs IH]; intros parts used.
  - cbn. now rewrite !app_nil_r.
  - cbn [fold_left filter]. rewrite random_step_appendable.
    destruct (appendable ctx f); rewrite IH; [|reflexivity].
    unfold push. cbn [map]. now rewrite <- !app_assoc.
Qed.

Lemma mem_of_get (f : string) (v : value) : Dict.get ctx f = Some v -> Dict.mem ctx f = true.
Proof.
  intro E. unfold Dict.mem. now rewrite E.
Qed.

Lemma sound_append (f : string) (v : value) (st : state) :
  sound ctx target st -> ~ In f (snd st) -> f <> target ->
  Dict.get ctx f = Some v ->
  sound ctx target (append_field f v st).
Proof.
  intros (Hb & Hn & Ht & Hp) Hf Hne E. destruct st as [parts used]. cbn [fst snd] in *.
  assert (Hpush : sound ctx target (push parts (block_of ctx f), push used f)).
  { unfold sound, push. cbn [fst snd]. repeat split.
    - rewrite map_app, Hb. reflexivity.
    - apply NoDup_app; [exact Hn | constructor; [intros [] | constructor] |].
      intros a Ha [<-|[]]. contradiction.
    - intro H. apply in_app_or in H as [H|[H|[]]]; [now apply Ht | congruence].
    - apply Forall_app. split; [exact Hp|]. constructor; [|constructor].
      exact (mem_of_get f v E). }
  unfold append_field.
  unfold block_of, block_text in Hpush. rewrite E in Hpush.
  destruct (Dict.mem TABLE_FIELDS f && is_list v).
  - destruct (negb (is_empty (format_table_for_context (rows_of v) f))).
    + exact Hpush.
    + repeat split; assumption.
  - exact Hpush.
Qed.

Lemma append_field_used (f : string) (v : value) (st : state) :
  snd (append_field f v st) = snd st \/ snd (append_field f v st) = snd st ++ [f].
Proof.
  destruct st as [parts used]. unfold append_field, push.
  destruct (Dict.mem TABLE_FIELDS f && is_list v);
    [destruct (negb (is_empty (format_table_for_context (rows_of v) f)))|]; cbn; auto.
Qed.

Lemma sound_always : sound ctx target (after_always ctx).
Proof.
  unfold after_always. rewrite (always_fold ALWAYS_INCLUDED always_not_tabular).
  cbn [app]. unfold sound. cbn [fst snd]. repeat split.
  - apply NoDup_filter, always_distinct.
  - intro H. apply filter_In in H. tauto.
  - apply Forall_forall. intros f Hf. apply filter_In in Hf as [_ Hm].
    unfold marked in Hm. unfold Dict.mem. now destruct (Dict.get ctx f).
Qed.

Lemma sound_relevant_fold (l : list string) :
  ~ In target l ->
  forall st, sound ctx target st -> sound ctx target (fold_left (relevant_step ctx) l st).
Proof.
  induction l as [|f l IH]; intros Hl st Hst; [exact Hst|].
  cbn [fold_left]. apply IH; [intro H; apply Hl; now right|].
  unfold relevant_step.
  destruct (Dict.get ctx f) as [v|] eqn:E; [|exact Hst].
  destruct (mem f (snd st)) eqn:Em; cbn [negb]; [exact Hst|].
  apply sound_append; [exact Hst | now apply mem_false | | exact E].
  intros ->. apply Hl. now left.
Qed.

Lemma sound_random_fold (fs : list string) :
  NoDup fs -> ~ In target fs ->
  forall st, sound ctx target st -> (forall f, In f fs -> ~ In f (snd st)) ->
  sound ctx target (fold_left (random_step ctx) fs st).
Proof.
  induction fs as [|f fs IH]; intros Hn Ht st Hst Hfresh; [exact Hst|].
  cbn [fold_left]. inversion Hn as [|? ? Hf Hn']; subst.
  assert (Hstep : sound ctx target (random_step ctx st f)
                  /\ (snd (random_step ctx st f) = snd st
                      \/ snd (random_step ctx st f) = snd st ++ [f])).
  { unfold random_step. destruct (Dict.get ctx f) as [v|] eqn:E.
    - split; [|apply append_field_used].
      apply sound_append; [exact Hst | apply Hfresh; now left | | exact E].
      intros ->. apply Ht. now left.
    - split; [exact Hst | now left]. }
  destruct Hstep as [Hs Hu].
  apply IH; [exact Hn' | intro H; apply Ht; now right | exact Hs |].
  intros x Hx Hin.
  destruct Hu as [Hu|Hu]; rewrite Hu in Hin.
  - apply (Hfresh x); [now right | exact Hin].
  - apply in_app_or in Hin as [Hin|[<-|[]]].
    + apply (Hfresh x); [now right | exact Hin].
    + contradiction.
Qed.

Lemma random_fields_In (rel used : list string) (f : string) :
  In f (random_fields target rel used) ->
  In f FIELD_GENERATION_ORDER /\ f <> target /\ ~ In f rel /\ ~ In f used.
Proof.
  unfold random_fields, available_fields. intro H.
  apply filter_In in H as [H Hc]. apply filter_In in H as [Ho Hne].
  apply andb_prop in Hc as [Hr Hu].
  repeat split.
  - exact Ho.
  - intros ->. rewrite String.eqb_refl in Hne. discriminate.
  - apply mem_false. now destruct (mem f rel).
  - apply mem_false. now destruct (mem f used).
Qed.

Lemma random_fields_distinct (rel used : list string) :
  NoDup (random_fields target rel used).
Proof.
  unfold random_fields, available_fields. do 2 apply NoDup_filter. apply order_distinct.
Qed.

Lemma sound_after_relevant (n : nat) : sound ctx target (after_relevant n target ctx).
Proof.
  unfold after_relevant. apply sound_relevant_fold; [|apply sound_always].
  intro H. apply In_firstn in H. now apply (proj1 (relevant_table_sound target)).
Qed.

End Loops.

(** *** The assembled context *)

Lemma assemble_sound (target : string) (fctx : context) (complexity : string) (g : rng) :
  sound (map_frontend_to_model_fields fctx) target (assemble target fctx complexity g).
Proof.
  unfold assemble. set (ctx := map_frontend_to_model_fields fctx).
  destruct (String.eqb complexity "minimal"); [apply sound_after_relevant|].
  destruct (String.eqb complexity "medium" || String.eqb complexity "related").
  - pose proof (sound_after_relevant ctx target 3) as Hst.
    set (st := after_relevant 3 target ctx) in *.
    set (pool := random_fields target (firstn 3 (relevant_of target)) (snd st)).
    assert (Hpool : forall f, In f pool -> f <> target /\ ~ In f (snd st)).
    { intros f Hf. apply random_fields_In in Hf. tauto. }
    destruct pool as [|p pool']; [exact Hst|].
    destruct (fst (choice (p :: pool') g)) as [f|] eqn:Ec; [|exact Hst].
    assert (Hin : In f (p :: pool')).
    { unfold choice in Ec. destruct (randbelow (length (p :: pool')) g) as [j g'].
      cbn [fst] in Ec. exact (nth_error_In _ _ Ec). }
    destruct (Hpool f Hin) as [Hne Hfresh].
    apply (sound_random_fold ctx target [f]).
    + constructor; [intros [] | constructor].
    + intros [E|[]]. now apply Hne.
    + exact Hst.
    + intros x [<-|[]]. exact Hfresh.
  - pose proof (sound_after_relevant ctx target 2) as Hst.
    set (st := after_relevant 2 target ctx) in *.
    set (pool := random_fields target (firstn 2 (relevant_of target)) (snd st)).
    pose proof (shuffle_perm pool g) as Hperm.
    destruct (shuffle pool g) as [shuffled g1]. cbn [fst] in Hperm.
    destruct (randint 3 5 g1) as [k g2].
    assert (Hsh : forall f, In f (firstn k shuffled) -> f <> target /\ ~ In f (snd st)).
    { intros f Hf. apply In_firstn in Hf. apply (Permutation_in _ Hperm) in Hf.
      apply random_fields_In in Hf. tauto. }
    apply sound_random_fold.
    + apply NoDup_firstn. apply (Permutation_NoDup (Permutation_sym Hperm)).
      apply random_fields_distinct.
    + intro H. now destruct (Hsh target H).
    + exact Hst.
    + intros f Hf. now destruct (Hsh f Hf).
Qed.

(** C10, as stated, fails for a target that is one of the
    always-included fields: it is put in the context like any other
    always-included field. *)
Lemma always_included_target_is_used :
  assemble "client" [("client", Scalar "ACME" true)] "minimal" []
  = (["client: ACME"], ["client"])
  /\ build_context_identical_to_training "client" [("client", Scalar "ACME" true)]
       "minimal" []
     = ("client: ACME", ["client"])
  /\ In "client" (snd (assemble "client" [("client", Scalar "ACME" true)] "minimal" [])).
Proof.
  split; [vm_compute; reflexivity | split; [vm_compute; reflexivity |]].
  vm_compute. now left.
Qed.

(** C10, amended.  For every strategy, target field, caller context and
    outcome of the random draws, the blocks of the assembled context are
    those of the used fields, one block per field in the same order, and
    no field is used twice; the target field is used only when it is one
    of the always-included fields (client, secteur, typeProjet,
    complexite, libelle, annee), so a target outside them has no block
    and is not in the used-fields list. *)
Theorem assembled_context_sound
  (target : string) (fctx : context) (complexity : string) (g : rng) :
  let ctx := map_frontend_to_model_fields fctx in
  let st := assemble target fctx complexity g in
  build_context_identical_to_training target fctx complexity g
  = (join Assembler.LF (fst st), snd st)
  /\ fst st = map (block_of ctx) (snd st)
  /\ NoDup (snd st)
  /\ (In target (snd st) -> In target ALWAYS_INCLUDED)
  /\ (~ In target ALWAYS_INCLUDED -> ~ In target (snd st))
  /\ Forall (fun f => Dict.mem ctx f = true) (snd st).
Proof.
  cbv zeta. destruct (assemble_sound target fctx complexity g) as (Hb & Hn & Ht & Hp).
  split; [|repeat split; auto].
  unfold build_context_identical_to_training.
  now destruct (assemble target fctx complexity g).
Qed.

Lemma assembled_context_sound_witness :
  ~ In "besoin" ALWAYS_INCLUDED
  /\ ~ In "besoin"
         (snd (assemble "besoin"
                 [("client", Scalar "ACME" true); ("besoin", Scalar "B" true);
                  ("contexte", Scalar "C" true); ("perimetre", Scalar "P" true)]
                 "related" [3])).
Proof.
  assert (H : ~ In "besoin" ALWAYS_INCLUDED).
  { apply mem_false. vm_compute. reflexivity. }
  split; [exact H|].
  exact (proj1 (proj2 (proj2 (proj2 (proj2
           (assembled_context_sound "besoin"
              [("client", Scalar "ACME" true); ("besoin", Scalar "B" true);
               ("contexte", Scalar "C" true); ("perimetre", Scalar "P" true)]
              "related" [3]))))) H).
Defined.

(** *** The full strategy *)

(** C6, as stated, fails: five candidate fields are present in the
    context, every draw is 0, the count drawn is 3, only one of the first
    three fields of the shuffled pool is present, and a single field is
    appended. *)
Lemma full_appends_fewer_than_three :
  let fctx := [("perimetre", Scalar "P" true); ("risques", Scalar "R" true);
               ("architecture", Scalar "A" true); ("jalons", Scalar "J" true);
               ("livrables", Scalar "L" true)] in
  let pool := random_fields "besoin" (firstn 2 (relevant_of "besoin")) [] in
  after_relevant 2 "besoin" (map_frontend_to_model_fields fctx) = ([], [])
  /\ Forall (fun f => In f pool) (map fst fctx)
  /\ fst (randint 3 5 (snd (shuffle pool (repeat 0 20)))) = 3
  /\ firstn 3 (fst (shuffle pool (repeat 0 20)))
     = ["horsPerimetre"; "contraintes"; "risques"]
  /\ assemble "besoin" fctx "full" (repeat 0 20) = (["risques: R"], ["risques"])
  /\ build_context_identical_to_training "besoin" fctx "full" (repeat 0 20)
     = ("risques: R", ["risques"]).
Proof.
  cbv zeta. split; [vm_compute; reflexivity|].
  split; [|repeat split; vm_compute; reflexivity].
  repeat constructor; apply mem_In; vm_compute; reflexivity.
Qed.

(** C6, amended.  Under the full strategy (any strategy tag other than
    minimal, medium and related), after the loop over the first two
    relevant fields, the assembler shuffles the pool of the fields of the
    generation order that are not the target, not among these two
    relevant fields and not yet used, draws a number k between 3 and 5,
    and appends, in order, those of the first k fields of the shuffled
    pool that are present in the context (a table of a tabular field
    only when it formats to a non-empty text): at most k fields, and
    possibly none. *)
Theorem full_strategy_appends
  (target : string) (fctx : context) (complexity : string) (g : rng)
  (Hmin : complexity <> "minimal") (Hmed : complexity <> "medium")
  (Hrel : complexity <> "related") :
  let ctx := map_frontend_to_model_fields fctx in
  let st := after_relevant 2 target ctx in
  let pool := random_fields target (firstn 2 (relevant_of target)) (snd st) in
  let shuffled := fst (shuffle pool g) in
  let k := fst (randint 3 5 (snd (shuffle pool g))) in
  let appended := filter (appendable ctx) (firstn k shuffled) in
  Permutation shuffled pool
  /\ 3 <= k <= 5
  /\ assemble target fctx complexity g
     = (fst st ++ map (block_of ctx) appended, snd st ++ appended)
  /\ length appended <= k
  /\ Forall (fun f => Dict.mem ctx f = true) appended
  /\ incl appended pool.
Proof.
  cbv zeta. set (ctx := map_frontend_to_model_fields fctx).
  set (st := after_relevant 2 target ctx).
  set (pool := random_fields target (firstn 2 (relevant_of target)) (snd st)).
  split; [apply shuffle_perm|]. split; [apply randint_range|]. split; [|split; [|split]].
  - unfold assemble. fold ctx. fold st. fold pool.
    apply String.eqb_neq in Hmin, Hmed, Hrel. rewrite Hmin, Hmed, Hrel. cbn [orb].
    destruct (shuffle pool g) as [shuffled g1]. cbn [fst snd].
    destruct (randint 3 5 g1) as [k g2]. cbn [fst].
    destruct st as [parts used]. apply random_fold.
  - etransitivity; [apply filter_length_le|].
    rewrite length_firstn. lia.
  - apply Forall_forall. intros f Hf. apply filter_In in Hf as [_ Ha].
    unfold appendable in Ha. unfold Dict.mem. now destruct (Dict.get ctx f).
  - intros f Hf. apply filter_In in Hf as [Hf _]. apply In_firstn in Hf.
    exact (Permutation_in _ (shuffle_perm pool g) Hf).
Qed.

Lemma full_strategy_appends_witness :
  "full" <> "minimal" /\ "full" <> "medium" /\ "full" <> "related"
  /\ assemble "besoin" [("perimetre", Scalar "P" true); ("risques", Scalar "R" true)]
       "full" [0; 0; 0; 0; 0; 0; 0; 0; 0; 0; 0; 0; 0; 0; 0; 0; 0; 0; 0; 2]
     = (let ctx := map_frontend_to_model_fields
                     [("perimetre", Scalar "P" true); ("risques", Scalar "R" true)] in
        let st := after_relevant 2 "besoin" ctx in
        let pool := random_fields "besoin" (firstn 2 (relevant_of "besoin")) (snd st) in
        let draws := [0; 0; 0; 0; 0; 0; 0; 0; 0; 0; 0; 0; 0; 0; 0; 0; 0; 0; 0; 2] in
        let appended :=
          filter (appendable ctx)
            (firstn (fst (randint 3 5 (snd (shuffle pool draws))))
                    (fst (shuffle pool draws))) in
        (fst st ++ map (block_of ctx) appended, snd st ++ appended)).
Proof.
  assert (H1 : "full" <> "minimal") by discriminate.
  assert (H2 : "full" <> "medium") by discriminate.
  assert (H3 : "full" <> "related") by discriminate.
  split; [exact H1 | split; [exact H2 | split; [exact H3 |]]].
  exact (proj1 (proj2 (proj2
           (full_strategy_appends "besoin"
              [("perimetre", Scalar "P" true); ("risques", Scalar "R" true)]
              "full" [0; 0; 0; 0; 0; 0; 0; 0; 0; 0; 0; 0; 0; 0; 0; 0; 0; 0; 0; 2]
              H1 H2 H3)))).
Defined.

End AssemblerFacts.

Module StripFacts.
Import Text TextFacts.

#[local] Open Scope string_scope.

Lemma lstrip_idem (s : string) : lstrip (lstrip s) = lstrip s.
Proof.
  induction s as [|c s IH]; [reflexivity|].
  cbn [lstrip]. destruct (is_space c) eqn:E; [exact IH|].
  cbn [lstrip]. now rewrite E.
Qed.

Lemma rstrip_idem (s : string) : rstrip (rstrip s) = rstrip s.
Proof.
  induction s as [|c s IH]; [reflexivity|].
  cbn [rstrip]. destruct (rstrip s) as [|d r] eqn:E.
  - destruct (is_space c) eqn:Ec; [reflexivity|]. cbn [rstrip]. now rewrite Ec.
  - cbn [rstrip]. cbn [rstrip] in IH. now rewrite IH.
Qed.

Lemma lstrip_rstrip (s : string) : lstrip (rstrip s) = rstrip (lstrip s).
Proof.
  induction s as [|c s IH]; [reflexivity|].
  cbn [lstrip]. destruct (is_space c) eqn:Ec.
  - rewrite <- IH. cbn [rstrip]. destruct (rstrip s) as [|d r].
    + rewrite Ec. reflexivity.
    + cbn [lstrip]. now rewrite Ec.
  - destruct (rstrip_head c s Ec) as [r Hr]. rewrite Hr. cbn [lstrip]. now rewrite Ec.
Qed.

Lemma strip_lstrip (s : string) : strip (lstrip s) = strip s.
Proof.
  unfold strip. now rewrite lstrip_idem.
Qed.

Lemma strip_rstrip (s : string) : strip (rstrip s) = strip s.
Proof.
  unfold strip. now rewrite lstrip_rstrip, rstrip_idem.
Qed.

Lemma strip_idem (s : string) : strip (strip s) = strip s.
Proof.
  unfold strip at 2. now rewrite strip_rstrip, strip_lstrip.
Qed.

(** White space is cut at the two ends only. *)
Lemma has_char_lstrip (c : ascii) (s : string) :
  has_char c (lstrip s) = true -> has_char c s = true.
Proof.
  induction s as [|x s IH]; [discriminate|].
  cbn [lstrip]. destruct (is_space x); [|auto].
  intro H. cbn [has_char]. rewrite (IH H). apply orb_true_r.
Qed.

Lemma has_char_rstrip (c : ascii) (s : string) :
  has_char c (rstrip s) = true -> has_char c s = true.
Proof.
  induction s as [|x s IH]; [discriminate|].
  cbn [rstrip]. destruct (rstrip s) as [|d r].
  - destruct (is_space x); [discriminate|].
    cbn [has_char]. rewrite orb_false_r. intros ->. reflexivity.
  - cbn [has_char] in *. intro H. apply orb_prop in H as [H|H].
    + now rewrite H.
    + rewrite (IH H). apply orb_true_r.
Qed.

Lemma has_char_strip (c : ascii) (s : string) :
  has_char c s = false -> has_char c (strip s) = false.
Proof.
  intro H. destruct (has_char c (strip s)) eqn:E; [|reflexivity].
  unfold strip in E. apply has_char_rstrip, has_char_lstrip in E. congruence.
Qed.

(** A character that is not white space survives. *)
Lemma lstrip_keeps (c : ascii) (s : string) :
  is_space c = false -> has_char c s = true -> has_char c (lstrip s) = true.
Proof.
  intros Hc. induction s as [|x s IH]; [discriminate|].
  cbn [lstrip has_char]. destruct (is_space x) eqn:Ex; [|auto].
  destruct (Ascii.eqb_spec x c) as [->|_]; [congruence | exact IH].
Qed.

Lemma rstrip_keeps (c : ascii) (s : string) :
  is_space c = false -> has_char c s = true -> has_char c (rstrip s) = true.
Proof.
  intros Hc. induction s as [|x s IH]; [discriminate|].
  cbn [rstrip has_char]. intro H.
  destruct (Ascii.eqb_spec x c) as [->|Hne].
  - rewrite Hc. destruct (rstrip s); cbn [has_char]; now rewrite Ascii.eqb_refl.
  - cbn [orb] in H. specialize (IH H).
    destruct (rstrip s) as [|d r]; [discriminate|].
    cbn [has_char] in *. rewrite IH. apply orb_true_r.
Qed.

Lemma strip_keeps (c : ascii) (s : string) :
  is_space c = false -> has_char c s = true -> strip s <> "".
Proof.
  intros Hc H E.
  pose proof (rstrip_keeps c _ Hc (lstrip_keeps c s Hc H)) as K.
  unfold strip in E. rewrite E in K. discriminate.
Qed.

Lemma has_char_app (c : ascii) (a b : string) :
  has_char c (a ++ b) = has_char c a || has_char c b.
Proof.
  induction a as [|x a IH]; [reflexivity|].
  cbn [append has_char]. now rewrite IH, orb_assoc.
Qed.

(** *** Cutting at a separator *)

Lemma split_clean (sep : ascii) (s : string) :
  has_char sep s = false -> split sep s = [s].
Proof.
  induction s as [|x s IH]; [reflexivity|].
  cbn [has_char split]. intro H. apply orb_false_elim in H as [Hx Hs].
  now rewrite Hx, (IH Hs).
Qed.

Lemma split_app (sep : ascii) (s t : string) :
  has_char sep s = false -> split sep (s ++ String sep t) = s :: split sep t.
Proof.
  induction s as [|x s IH].
  - intros _. cbn. now rewrite Ascii.eqb_refl.
  - cbn [has_char append split]. intro H. apply orb_false_elim in H as [Hx Hs].
    now rewrite Hx, (IH Hs).
Qed.

Lemma split_single (sep : ascii) (s p : string) : split sep s = [p] -> s = p.
Proof.
  revert p; induction s as [|x s IH]; intros p.
  - cbn. now intros [= <-].
  - cbn [split]. destruct (Ascii.eqb x sep).
    + intro H. injection H as _ H. now destruct (split_nonempty sep s).
    + destruct (split sep s) as [|q qs] eqn:E; [now destruct (split_nonempty sep s)|].
      intro H. injection H as <- ->. now rewrite (IH q eq_refl).
Qed.

Lemma split_lstrip (s : string) :
  split "|" (lstrip s)
  = match split "|" s with
    | [] => []
    | p :: ps => lstrip p :: ps
    end.
Proof.
  induction s as [|x s IH]; [reflexivity|].
  cbn [lstrip]. destruct (is_space x) eqn:Ex.
  - rewrite IH. cbn [split].
    rewrite (proj2 (Ascii.eqb_neq x "|")) by (intros ->; discriminate Ex).
    destruct (split "|" s) as [|p ps] eqn:E; [now destruct (split_nonempty "|" s)|].
    cbn [lstrip]. now rewrite Ex.
  - cbn [split]. destruct (Ascii.eqb x "|"); [reflexivity|].
    destruct (split "|" s); cbn [lstrip]; now rewrite Ex.
Qed.

Lemma rstrip_cons (x : ascii) (s : string) :
  rstrip s <> "" -> rstrip (String x s) = String x (rstrip s).
Proof.
  intro H. cbn [rstrip]. destruct (rstrip s); [contradiction | reflexivity].
Qed.

Lemma rstrip_cons_blank (x : ascii) (s : string) :
  rstrip s = "" ->
  rstrip (String x s) = if is_space x then "" else String x "".
Proof.
  intro H. cbn [rstrip]. now rewrite H.
Qed.

Lemma split_rstrip (s : string) :
  exists front last,
    split "|" s = (front ++ [last])%list
    /\ split "|" (rstrip s) = (front ++ [rstrip last])%list.
Proof.
  induction s as [|x s IH].
  - exists [], "". split; reflexivity.
  - destruct IH as (front & last & Hs & Hr).
    destruct (string_dec (rstrip s) "") as [E|E].
    + (* the rest is blank: it is one piece, made of white space *)
      rewrite (rstrip_cons_blank x s E). rewrite E in Hr.
      assert (Hfront : front = []).
      { destruct front as [|f front]; [reflexivity|].
        cbn in Hr. destruct front; discriminate Hr. }
      subst front. cbn [app] in Hs, Hr. injection Hr as Hr.
      cbn [split]. rewrite Hs.
      destruct (Ascii.eqb_spec x "|") as [->|Hne].
      * exists [""], last. split; [reflexivity|]. cbn. now rewrite <- Hr.
      * exists [], (String x last). split; [reflexivity|].
        cbn [app]. rewrite (rstrip_cons_blank x last (eq_sym Hr)).
        destruct (is_space x); [reflexivity|].
        cbn [split]. now rewrite (proj2 (Ascii.eqb_neq x "|") Hne).
    + rewrite (rstrip_cons x s E). cbn [split]. rewrite Hr, Hs.
      destruct (Ascii.eqb x "|").
      * exists ("" :: front), last. split; reflexivity.
      * destruct front as [|f front].
        -- exists [], (String x last). cbn [app]. split; [reflexivity|].
           cbn [app] in Hr. apply split_single in Hr.
           rewrite rstrip_cons by congruence. reflexivity.
        -- exists (String x f :: front), last. split; reflexivity.
Qed.

(** Stripping a line does not change its stripped parts. *)
Lemma parts_of_strip (s : string) :
  Decoder.parts_of (strip s) = Decoder.parts_of s.
Proof.
  unfold Decoder.parts_of. change (strip s) with (rstrip (lstrip s)).
  destruct (split_rstrip (lstrip s)) as (front & last & Hs & Hr).
  rewrite Hr. rewrite split_lstrip in Hs.
  destruct (split "|" s) as [|p ps] eqn:E; [now destruct (split_nonempty "|" s)|].
  rewrite map_app. cbn [map]. rewrite strip_rstrip.
  change [strip last] with (map strip [last]). rewrite <- map_app, <- Hs.
  cbn [map]. now rewrite strip_lstrip.
Qed.

End StripFacts.

Module RoundTripFacts.
Import Text TextFacts StripFacts Schema Decoder Assembler.

#[local] Open Scope string_scope.
#[local] Open Scope list_scope.
#[local] Open Scope nat_scope.

(** *** One formatted row is one line *)

Lemma parts_of_join (cells : list string) :
  cells <> [] ->
  forallb (fun c => negb (has_char "|" c)) cells = true ->
  parts_of (join "|" cells) = map strip cells.
Proof.
  unfold parts_of, join.
  induction cells as [|c cells IH]; [contradiction|].
  intros _ H. cbn [forallb] in H. apply andb_prop in H as [Hc Hrest].
  apply negb_true_iff in Hc.
  destruct cells as [|c' cells].
  - cbn [String.concat]. now rewrite (split_clean "|" c Hc).
  - change (String.concat "|" (c :: c' :: cells))
      with ((c ++ String "|" (String.concat "|" (c' :: cells)))%string).
    rewrite (split_app "|" c _ Hc). cbn [map]. f_equal.
    apply IH; [discriminate | exact Hrest].
Qed.

Lemma join_has_no (x : ascii) (cells : list string) :
  Ascii.eqb x "|" = false ->
  forallb (fun c => negb (has_char x c)) cells = true ->
  has_char x (join "|" cells) = false.
Proof.
  intros Hx. unfold join. induction cells as [|c cells IH]; [reflexivity|].
  intro H. cbn [forallb] in H. apply andb_prop in H as [Hc Hrest].
  apply negb_true_iff in Hc.
  destruct cells as [|c' cells]; [exact Hc|].
  change (String.concat "|" (c :: c' :: cells))
    with ((c ++ String "|" (String.concat "|" (c' :: cells)))%string).
  rewrite has_char_app, Hc. cbn [has_char orb].
  rewrite Ascii.eqb_sym, Hx. apply IH. exact Hrest.
Qed.

Lemma join_has_pipe (c c' : string) (cells : list string) :
  has_char "|" (join "|" (c :: c' :: cells)) = true.
Proof.
  unfold join.
  change (String.concat "|" (c :: c' :: cells))
    with ((c ++ String "|" (String.concat "|" (c' :: cells)))%string).
  rewrite has_char_app. cbn [has_char]. rewrite Ascii.eqb_refl. apply orb_true_r.
Qed.

Lemma clean_cells (cells : list string) :
  forallb clean cells = true ->
  forallb (fun c => negb (has_char "|" c)) cells = true
  /\ forallb (fun c => negb (has_char (ascii_of_nat 10) c)) cells = true.
Proof.
  induction cells as [|c cells IH]; [now split|].
  cbn [forallb]. intro H. apply andb_prop in H as [Hc Hrest].
  unfold clean in Hc. apply andb_prop in Hc as [H1 H2].
  destruct (IH Hrest) as [I1 I2]. now rewrite H1, H2, I1, I2.
Qed.

(** The loop on a text of one line that is not blank. *)
Lemma single_line row cap (n : nat) (line : string) :
  has_char Decoder.LF line = false -> strip line <> "" ->
  for_lines row cap (first_lines (S n) line) []
  = bind (row 0 (parts_of line))
         (fun r => Ok match r with
                      | Some x => [x]
                      | None => []
                      end).
Proof.
  intros Hlf Hne. unfold first_lines.
  rewrite (split_clean Decoder.LF (strip line)) by now apply has_char_strip.
  cbn [firstn]. rewrite firstn_nil.
  change (enumerate [strip line]) with [(0, strip line)].
  cbn [for_lines]. rewrite strip_idem, parts_of_strip.
  destruct (strip line) as [|x t]; [contradiction|]. cbn [is_empty].
  destruct (row 0 (parts_of line)) as [[r|]|e]; cbn [bind app]; [| |reflexivity];
    destruct cap as [m|]; try reflexivity;
    destruct (m <=? _); reflexivity.
Qed.

(** Decoding the line of one formatted row of at least two clean cells. *)
Lemma decode_joined row cap (n : nat) (c c' : string) (cells : list string) :
  forallb clean (c :: c' :: cells) = true ->
  for_lines row cap (first_lines (S n) (join "|" (c :: c' :: cells))) []
  = bind (row 0 (map strip (c :: c' :: cells)))
         (fun r => Ok match r with
                      | Some x => [x]
                      | None => []
                      end).
Proof.
  intro H. destruct (clean_cells _ H) as [Hpipe Hlf].
  rewrite single_line.
  - rewrite parts_of_join; [reflexivity | discriminate | exact Hpipe].
  - apply join_has_no; [reflexivity | exact Hlf].
  - apply (strip_keeps "|"); [reflexivity | apply join_has_pipe].
Qed.

Lemma forallb_clean_firstn (n : nat) (cells : list string) :
  forallb clean cells = true -> forallb clean (firstn n cells) = true.
Proof.
  rewrite !forallb_forall. intros H x Hx. apply H.
  rewrite <- (firstn_skipn n cells). apply in_or_app. now left.
Qed.

(** C5, as stated, fails for the phase field: the row is well formed,
    and the decoded record has six columns, with a computed duration
    under col2, the two dates moved to col3 and col4, and the team
    replaced by the default text. *)
Lemma phases_round_trip_fails :
  let cells := ["Cadrage"; "Etude"; "2024-01-01"; "2024-01-05"; "MOA"] in
  forallb clean cells = true
  /\ length cells = length (columns_of "phases")
  /\ format_table_for_context [row_of_cells cells] "phases"
     = "Cadrage|Etude|2024-01-01|2024-01-05|MOA"
  /\ parse_phases (format_table_for_context [row_of_cells cells] "phases")
     = Ok [[("col0", Str "Cadrage"); ("col1", Str "Etude"); ("col2", Str "5");
            ("col3", Str "2024-01-01"); ("col4", Str "2024-01-05");
            ("col5", Str "Équipe projet")]]
  /\ [Str "Cadrage"; Str "Etude"; Str "5"; Str "2024-01-01"; Str "2024-01-05";
      Str "Équipe projet"] <> map Str cells.
Proof.
  cbv zeta. repeat split; try (vm_compute; reflexivity).
  discriminate.
Qed.

(** C5, amended.  For a well-formed row, formatting the row and decoding
    the line gives exactly one record.  For constraints, risks,
    deliverables and milestones its columns are the stripped cells of
    the row, with the criticality, the probability and the impact mapped
    to their categories and the date column replaced by the date
    extracted from it.  For construction costs the first and last
    columns are the stripped cells, the day count and the daily rate are
    the numbers extracted from their cells, and the total is their
    product, whatever the total cell held.  For phases the record has
    another layout: col0 and col1 are the first two cells, col2 is the
    computed duration, col3 and col4 are the start and end dates. *)
Theorem format_then_decode (c0 c1 c2 c3 c4 : string)
  (Hclean : forallb clean [c0; c1; c2; c3; c4] = true) :
  parse_contraintes (format_table_for_context [row_of_cells [c0; c1; c2; c3]] "contraintes")
  = Ok [[("col0", Str (strip c0)); ("col1", Str (strip c1));
         ("col2", Str (map_criticality (strip c2))); ("col3", Str (strip c3))]]
  /\ parse_risques (format_table_for_context [row_of_cells [c0; c1; c2; c3; c4]] "risques")
     = Ok [[("col0", Str (strip c0)); ("col1", Str (map_probability (strip c1)));
            ("col2", Str (map_impact (strip c2))); ("col3", Str (strip c3));
            ("col4", Str (strip c4))]]
  /\ parse_livrables (format_table_for_context [row_of_cells [c0; c1; c2; c3]] "livrables")
     = Ok [[("col0", Str (strip c0)); ("col1", Str (strip c1));
            ("col2", Str (extract_date (strip c2))); ("col3", Str (strip c3))]]
  /\ parse_jalons (format_table_for_context [row_of_cells [c0; c1; c2; c3]] "jalons")
     = Ok [[("col0", Str (strip c0)); ("col1", Str (strip c1));
            ("col2", Str (extract_date (strip c2))); ("col3", Str (strip c3))]]
  /\ parse_couts_construction
       (format_table_for_context [row_of_cells [c0; c1; c2; c3; c4]] "coutsConstruction")
     = Ok [[("col0", Str (strip c0));
            ("col1", Str (str_of_Z (extract_number (strip c1))));
            ("col2", Str (str_of_Z (extract_number (strip c2))));
            ("col3", Str (str_of_Z (extract_number (strip c1) * extract_number (strip c2))));
            ("col4", Str (strip c4))]]
  /\ (exists c5,
        parse_phases (format_table_for_context [row_of_cells [c0; c1; c2; c3; c4]] "phases")
        = Ok [[("col0", Str (strip c0)); ("col1", Str (strip c1));
               ("col2", Str (str_of_Z (calculate_days_between_dates (strip c2) (strip c3))));
               ("col3", Str (strip c2)); ("col4", Str (strip c3)); ("col5", Str c5)]]).
Proof.
  pose proof (forallb_clean_firstn 4 _ Hclean) as Hclean4. cbn [firstn] in Hclean4.
  change (format_table_for_context [row_of_cells [c0; c1; c2; c3]] "contraintes")
    with (join "|" [c0; c1; c2; c3]).
  change (format_table_for_context [row_of_cells [c0; c1; c2; c3]] "livrables")
    with (join "|" [c0; c1; c2; c3]).
  change (format_table_for_context [row_of_cells [c0; c1; c2; c3]] "jalons")
    with (join "|" [c0; c1; c2; c3]).
  change (format_table_for_context [row_of_cells [c0; c1; c2; c3; c4]] "risques")
    with (join "|" [c0; c1; c2; c3; c4]).
  change (format_table_for_context [row_of_cells [c0; c1; c2; c3; c4]] "coutsConstruction")
    with (join "|" [c0; c1; c2; c3; c4]).
  change (format_table_for_context [row_of_cells [c0; c1; c2; c3; c4]] "phases")
    with (join "|" [c0; c1; c2; c3; c4]).
  unfold parse_contraintes, parse_risques, parse_livrables, parse_jalons,
    parse_couts_construction, parse_phases.
  rewrite !decode_joined by assumption.
  repeat split. eexists. reflexivity.
Qed.

Lemma format_then_decode_witness :
  forallb clean ["Retard"; " Faible "; "MAJEUR"; "Suivi hebdomadaire"; "PMO"] = true
  /\ parse_risques
       (format_table_for_context
          [row_of_cells ["Retard"; " Faible "; "MAJEUR"; "Suivi hebdomadaire"; "PMO"]]
          "risques")
     = Ok [[("col0", Str (strip "Retard")); ("col1", Str (map_probability (strip " Faible ")));
            ("col2", Str (map_impact (strip "MAJEUR")));
            ("col3", Str (strip "Suivi hebdomadaire")); ("col4", Str (strip "PMO"))]].
Proof.
  assert (H : forallb clean ["Retard"; " Faible "; "MAJEUR"; "Suivi hebdomadaire"; "PMO"]
              = true) by reflexivity.
  split; [exact H|].
  exact (proj1 (proj2 (format_then_decode "Retard" " Faible " "MAJEUR"
                         "Suivi hebdomadaire" "PMO" H))).
Defined.

End RoundTripFacts.

(** * Further properties of the code *)

Module TrainingExtras.
Import Training Collator TrainingFacts.

#[local] Open Scope string_scope.
#[local] Open Scope list_scope.
#[local] Open Scope nat_scope.

Section Masking.

Variable tokenize : string -> nat -> list Z.
Variables bos eos : option Z.
Variable config : ModelConfig.

#[local] Abbreviation run := (preprocess_example_fast tokenize bos eos config).
#[local] Abbreviation prompt_span u :=
  (length (opt_token bos) + length (prompt_tokens tokenize config u)).

Lemma labels_eq (u a : string) :
  labels (run u a)
  = firstn (length (input_ids (run u a)))
      (repeat IGNORE (prompt_span u) ++ skipn (prompt_span u) (input_ids (run u a))).
Proof.
  unfold preprocess_example_fast. cbn [labels input_ids].
  set (ids := if _ <? _ then _ else _).
  set (p := length (opt_token bos) + length (prompt_tokens tokenize config u)).
  destruct (Nat.eqb_spec (length (repeat IGNORE p ++ skipn p ids)) (length ids)) as [E|E];
    cbn [negb]; [|reflexivity].
  rewrite <- E. symmetry. apply firstn_all.
Qed.

(** X1.  In a preprocessed example the label of every position of the
    prompt span (the BOS token and the prompt tokens) is the sentinel
    -100, and the label of every later position is the token at that
    position. *)
Theorem labels_mask_prompt (u a : string) (i : nat)
  (Hi : i < length (labels (run u a))) :
  nth i (labels (run u a)) 0%Z
  = if i <? prompt_span u then IGNORE else nth i (input_ids (run u a)) 0%Z.
Proof.
  assert (Hlen : i < length (input_ids (run u a))).
  { destruct (lengths_agree tokenize bos eos config u a) as [H1 H2].
    rewrite H1, H2. exact Hi. }
  rewrite labels_eq, nth_firstn.
  destruct (Nat.ltb_spec i (length (input_ids (run u a)))) as [_|H]; [|lia].
  set (p := prompt_span u).
  destruct (Nat.ltb_spec i p) as [Hp|Hp].
  - rewrite app_nth1 by (rewrite repeat_length; exact Hp).
    apply nth_repeat_lt. exact Hp.
  - rewrite app_nth2 by (rewrite repeat_length; lia).
    rewrite repeat_length, nth_skipn. f_equal. lia.
Qed.

End Masking.

Lemma labels_mask_prompt_witness :
  3 < length (labels (preprocess_example_fast char_tokenize (Some 1%Z) (Some 2%Z)
                        default_config "a" "<START>ok<END>"))
  /\ nth 3 (labels (preprocess_example_fast char_tokenize (Some 1%Z) (Some 2%Z)
                      default_config "a" "<START>ok<END>")) 0%Z
     = IGNORE.
Proof.
  assert (H : 3 < length (labels (preprocess_example_fast char_tokenize (Some 1%Z)
                                    (Some 2%Z) default_config "a" "<START>ok<END>")))
    by (vm_compute; lia).
  split; [exact H|].
  exact (labels_mask_prompt char_tokenize (Some 1%Z) (Some 2%Z) default_config
           "a" "<START>ok<END>" 3 H).
Defined.

(** X2.  With the default budgets and a tokenizer that honours its
    truncation, cutting the concatenation to [max_length] drops at most
    two tokens; whenever it drops anything, the end marker is among
    them: the example is then the first 1536 tokens of BOS, prompt and
    response. *)
Theorem cut_drops_end_marker
  (tokenize : string -> nat -> list Z) (bos eos : option Z) (u a : string)
  (Htok : truncating tokenize) :
  let ex := preprocess_example_fast tokenize bos eos default_config u a in
  let whole := concatenation tokenize bos eos default_config u a in
  length whole <= length (input_ids ex) + 2
  /\ (max_length default_config < length whole ->
      input_ids ex
      = firstn (max_length default_config)
          (opt_token bos ++ prompt_tokens tokenize default_config u
             ++ response_tokens tokenize default_config a)).
Proof.
  cbv zeta. rewrite input_ids_firstn.
  pose proof (Htok (Prompt.training_prompt u) (max_prompt_length default_config)) as Hp.
  pose proof (Htok a (max_response_length default_config)) as Hr.
  pose proof (length_opt_token bos) as Hb.
  pose proof (length_opt_token eos) as He.
  unfold concatenation. fold (prompt_tokens tokenize default_config u) in Hp.
  fold (response_tokens tokenize default_config a) in Hr.
  set (P := prompt_tokens tokenize default_config u) in *.
  set (R := response_tokens tokenize default_config a) in *.
  cbn [max_prompt_length max_response_length max_length default_config] in *.
  split.
  - rewrite length_firstn, !length_app. lia.
  - intro Hcut. rewrite !length_app in Hcut.
    rewrite !app_assoc. rewrite firstn_app.
    replace (1536 - length (((opt_token bos ++ P) ++ R))) with 0
      by (rewrite !length_app; lia).
    cbn [firstn]. now rewrite app_nil_r.
Qed.

Lemma cut_drops_end_marker_witness :
  truncating char_tokenize
  /\ max_length default_config
     < length (concatenation char_tokenize (Some 1%Z) (Some 2%Z) default_config
                 long_user long_assistant)
  /\ input_ids (preprocess_example_fast char_tokenize (Some 1%Z) (Some 2%Z)
                  default_config long_user long_assistant)
     = firstn (max_length default_config)
         (opt_token (Some 1%Z) ++ prompt_tokens char_tokenize default_config long_user
            ++ response_tokens char_tokenize default_config long_assistant).
Proof.
  assert (H : max_length default_config
              < length (concatenation char_tokenize (Some 1%Z) (Some 2%Z) default_config
                          long_user long_assistant)) by (vm_compute; lia).
  split; [exact char_tokenize_truncating | split; [exact H|]].
  exact (proj2 (cut_drops_end_marker char_tokenize (Some 1%Z) (Some 2%Z)
                  long_user long_assistant char_tokenize_truncating) H).
Defined.

(** *** The collator *)

Lemma round_up_spec (p m : nat) :
  p <> 0 -> m <= round_up p m /\ round_up p m < m + p /\ round_up p m mod p = 0.
Proof.
  intro Hp. unfold round_up.
  pose proof (Nat.div_mod_eq (m + p - 1) p) as E.
  pose proof (Nat.mod_upper_bound (m + p - 1) p Hp) as Hr.
  repeat split.
  - nia.
  - nia.
  - apply Nat.Div0.mod_mul.
Qed.

Lemma tensor_rectangular (rows : list (list Z)) (L : nat) :
  Forall (fun r => length r = L) rows -> tensor rows = Ok rows.
Proof.
  intro H. destruct rows as [|r rest]; [reflexivity|].
  cbn [tensor]. inversion H as [|? ? Hr Hrest]; subst.
  replace (forallb (fun x => length x =? length r) rest) with true; [reflexivity|].
  symmetry. apply forallb_forall. intros x Hx.
  rewrite Forall_forall in Hrest. rewrite (Hrest x Hx). apply Nat.eqb_refl.
Qed.

Lemma learned_pad (l : list Z) (n : nat) : learned (l ++ repeat IGNORE n) = learned l.
Proof.
  rewrite learned_app, learned_repeat_IGNORE. lia.
Qed.

(** The common length of the rows of a batch. *)
Lemma collate_ok (pad : Z) (p : nat) (features : list Example) :
  features <> [] -> Forall aligned features ->
  let m := list_max (map (fun f => length (input_ids f)) features) in
  let L := if p =? 0 then m else round_up p m in
  m <= L
  /\ Forall (fun f => length (input_ids f) <= m) features
  /\ collate pad p features
     = Ok {| batch_input_ids :=
               map (fun f => input_ids f ++ repeat pad (L - length (input_ids f))) features;
             batch_attention_mask :=
               map (fun f => attention_mask f ++ repeat 0%Z (L - length (input_ids f)))
                   features;
             batch_labels :=
               map (fun f => labels f ++ repeat IGNORE (L - length (input_ids f)))
                   features |}.
Proof.
  intros Hne Hal m L.
  assert (HmL : m <= L).
  { unfold L. destruct (Nat.eqb_spec p 0) as [_|Hp]; [lia|].
    now destruct (round_up_spec p m Hp). }
  assert (Hm : Forall (fun f => length (input_ids f) <= m) features).
  { pose proof (proj1 (list_max_le (map (fun f => length (input_ids f)) features) m)
                  (Nat.le_refl _)) as H.
    now rewrite Forall_map in H. }
  split; [exact HmL | split; [exact Hm|]].
  unfold collate.
  assert (Hmax : max_len (map input_ids features) = Ok m).
  { unfold max_len, m. rewrite map_map.
    destruct features; [contradiction | reflexivity]. }
  rewrite Hmax. cbn [bind]. fold L.
  rewrite !(tensor_rectangular _ L); [reflexivity | | |].
  - apply Forall_map. rewrite Forall_forall in *. intros f Hf.
    destruct (Hal f Hf) as [_ Hl]. specialize (Hm f Hf).
    rewrite length_app, repeat_length. lia.
  - apply Forall_map. rewrite Forall_forall in *. intros f Hf.
    destruct (Hal f Hf) as [Hk _]. specialize (Hm f Hf).
    rewrite length_app, repeat_length. lia.
  - apply Forall_map. rewrite Forall_forall in *. intros f Hf.
    specialize (Hm f Hf). rewrite length_app, repeat_length. lia.
Qed.

Lemma Forall2_map_self {A B : Type} (g : A -> B) (Q : A -> B -> Prop) (l : list A) :
  (forall x, Q x (g x)) -> Forall2 Q l (map g l).
Proof.
  intro H. induction l as [|x l IH]; constructor; auto.
Qed.

(** X3.  On a batch that is not empty, of examples whose three sequences
    have equal lengths, the collator returns three rectangular tables of
    width L: the longest [input_ids], rounded up to the next multiple of
    [pad_to_multiple_of] when it is not 0.  Each row is its example
    followed by padding (the pad token, 0 for the mask, -100 for the
    labels), so padding adds no label that takes part in the loss. *)
Theorem collate_pads (pad : Z) (p : nat) (features : list Example)
  (Hne : features <> []) (Hal : Forall aligned features) :
  let m := list_max (map (fun f => length (input_ids f)) features) in
  let L := if p =? 0 then m else round_up p m in
  exists b,
    collate pad p features = Ok b
    /\ m <= L /\ (p <> 0 -> L mod p = 0 /\ L < m + p)
    /\ Forall (fun r => length r = L) (batch_input_ids b)
    /\ Forall (fun r => length r = L) (batch_attention_mask b)
    /\ Forall (fun r => length r = L) (batch_labels b)
    /\ Forall2 (fun f r => r = input_ids f ++ repeat pad (L - length (input_ids f)))
               features (batch_input_ids b)
    /\ Forall2 (fun f r => r = attention_mask f ++ repeat 0%Z (L - length (input_ids f)))
               features (batch_attention_mask b)
    /\ Forall2 (fun f r => r = labels f ++ repeat IGNORE (L - length (input_ids f))
                           /\ learned r = learned (labels f))
               features (batch_labels b).
Proof.
  intros m L.
  destruct (collate_ok pad p features Hne Hal) as (HmL & Hm & Hrun).
  fold m in HmL, Hm, Hrun. fold L in HmL, Hrun.
  eexists. split; [exact Hrun|]. cbn [batch_input_ids batch_attention_mask batch_labels].
  split; [exact HmL|]. split.
  { intro Hp. unfold L. rewrite (proj2 (Nat.eqb_neq p 0) Hp).
    destruct (round_up_spec p m Hp) as (_ & H1 & H2). now split. }
  assert (Hrows : forall (g : Example -> list Z) (x : Z),
             (forall f, In f features -> length (g f) = length (input_ids f)) ->
             Forall (fun r => length r = L)
                    (map (fun f => g f ++ repeat x (L - length (input_ids f))) features)).
  { intros g x Hg. apply Forall_map. rewrite Forall_forall in *. intros f Hf.
    specialize (Hm f Hf). rewrite length_app, repeat_length, (Hg f Hf). lia. }
  pose proof (fun (A : Type) (g : Example -> A) Q => Forall2_map_self g Q features)
    as Hpair.
  rewrite Forall_forall in Hal.
  repeat split.
  - apply Hrows. reflexivity.
  - apply Hrows. intros f Hf. now destruct (Hal f Hf).
  - apply Hrows. intros f Hf. now destruct (Hal f Hf).
  - apply (Hpair _ _ (fun f r => r = input_ids f ++ repeat pad (L - length (input_ids f)))).
    reflexivity.
  - apply (Hpair _ _ (fun f r => r = attention_mask f
                                   ++ repeat 0%Z (L - length (input_ids f)))).
    reflexivity.
  - apply (Hpair _ _ (fun f r => r = labels f ++ repeat IGNORE (L - length (input_ids f))
                                 /\ learned r = learned (labels f))).
    intro f. split; [reflexivity | apply learned_pad].
Qed.

Lemma collate_pads_witness :
  let features := [ {| input_ids := [1; 70; 71]%Z; attention_mask := [1; 1; 1]%Z;
                       labels := [-100; 70; 71]%Z |};
                    {| input_ids := [1]%Z; attention_mask := [1]%Z;
                       labels := [-100]%Z |} ] in
  features <> [] /\ Forall aligned features
  /\ exists b, collate 2%Z 8 features = Ok b
               /\ Forall (fun r => length r = 8) (batch_labels b).
Proof.
  cbv zeta.
  assert (Hne : [ {| input_ids := [1; 70; 71]%Z; attention_mask := [1; 1; 1]%Z;
                     labels := [-100; 70; 71]%Z |};
                  {| input_ids := [1]%Z; attention_mask := [1]%Z;
                     labels := [-100]%Z |} ] <> []) by discriminate.
  assert (Hal : Forall aligned
                  [ {| input_ids := [1; 70; 71]%Z; attention_mask := [1; 1; 1]%Z;
                       labels := [-100; 70; 71]%Z |};
                    {| input_ids := [1]%Z; attention_mask := [1]%Z;
                       labels := [-100]%Z |} ])
    by (repeat constructor).
  split; [exact Hne | split; [exact Hal|]].
  destruct (collate_pads 2%Z 8 _ Hne Hal) as (b & Hrun & _ & _ & _ & _ & Hl & _).
  exists b. split; [exact Hrun | exact Hl].
Defined.

(** X4.  The collator never fails on preprocessed examples: for every
    batch of message pairs that is not empty, padding the preprocessed
    examples returns a batch with one row per pair, and its labels hold
    at most [max_response_length + 1] positions per row that take part
    in the loss. *)
Theorem collate_preprocessed
  (tokenize : string -> nat -> list Z) (bos eos : option Z) (config : ModelConfig)
  (pad : Z) (p : nat) (pairs : list (string * string))
  (Htok : truncating tokenize) (Hne : pairs <> []) :
  exists b,
    collate pad p
      (map (fun '(u, a) => preprocess_example_fast tokenize bos eos config u a) pairs)
    = Ok b
    /\ length (batch_input_ids b) = length pairs
    /\ length (batch_labels b) = length pairs
    /\ Forall (fun r => learned r <= max_response_length config + 1) (batch_labels b).
Proof.
  set (features := map (fun '(u, a) => preprocess_example_fast tokenize bos eos config u a)
                       pairs).
  assert (Hfne : features <> []) by (unfold features; destruct pairs; [contradiction | discriminate]).
  assert (Hal : Forall aligned features).
  { unfold features. apply Forall_map. apply Forall_forall. intros [u a] _.
    destruct (lengths_agree tokenize bos eos config u a) as [H1 H2].
    split; congruence. }
  destruct (collate_ok pad p features Hfne Hal) as (_ & _ & Hrun).
  eexists. split; [exact Hrun|]. cbn [batch_input_ids batch_labels].
  rewrite !length_map. unfold features at 1 2. rewrite !length_map.
  split; [reflexivity | split; [reflexivity|]].
  apply Forall_map. unfold features. apply Forall_map. apply Forall_forall.
  intros [u a] _. rewrite learned_pad.
  pose proof (learned_bound tokenize bos eos config u a) as Hb.
  pose proof (Htok a (max_response_length config)) as Hr.
  pose proof (length_opt_token eos) as He.
  unfold response_tokens in Hb. lia.
Qed.

Lemma collate_preprocessed_witness :
  truncating char_tokenize
  /\ [("<TASK>besoin</TASK>", "<START>ok<END>"); ("a", "<START>b<END>")] <> []
  /\ exists b,
       collate 2%Z 8
         (map (fun '(u, a) => preprocess_example_fast char_tokenize (Some 1%Z) (Some 2%Z)
                                default_config u a)
              [("<TASK>besoin</TASK>", "<START>ok<END>"); ("a", "<START>b<END>")])
       = Ok b
       /\ length (batch_input_ids b) = 2.
Proof.
  assert (Hne : [("<TASK>besoin</TASK>", "<START>ok<END>"); ("a", "<START>b<END>")]
                <> (@nil (string * string))) by discriminate.
  split; [exact char_tokenize_truncating | split; [exact Hne|]].
  destruct (collate_preprocessed char_tokenize (Some 1%Z) (Some 2%Z) default_config
              2%Z 8 _ char_tokenize_truncating Hne) as (b & Hrun & Hlen & _).
  exists b. split; [exact Hrun | exact Hlen].
Defined.

End TrainingExtras.

Module MarkerFacts.
Import Text TextFacts StripFacts Markers.

#[local] Open Scope string_scope.
#[local] Open Scope list_scope.
#[local] Open Scope nat_scope.

(** *** Prefixes and occurrences *)

Lemma prefix_nil (s : string) : prefix "" s = true.
Proof.
  now destruct s.
Qed.

Lemma prefix_app (w s : string) : prefix w (w ++ s)%string = true.
Proof.
  induction w as [|a w IH]; [apply prefix_nil|].
  cbn. destruct (ascii_dec a a); [exact IH | contradiction].
Qed.

Lemma prefix_mono (w x r : string) : prefix w x = true -> prefix w (x ++ r)%string = true.
Proof.
  revert x; induction w as [|a w IH]; intros x H; [apply prefix_nil|].
  destruct x as [|b x]; [discriminate|]. cbn in *.
  destruct (ascii_dec a b); [now apply IH | discriminate].
Qed.

Lemma prefix_head (m c : ascii) (w s : string) :
  Ascii.eqb c m = false -> prefix (String m w) (String c s) = false.
Proof.
  intro H. cbn. destruct (ascii_dec m c) as [->|_]; [|reflexivity].
  now rewrite Ascii.eqb_refl in H.
Qed.

Lemma contains_mono (w x r : string) :
  contains w x = true -> contains w (x ++ r)%string = true.
Proof.
  induction x as [|c x IH]; intro H.
  - cbn in H. rewrite orb_false_r in H. destruct w; [|discriminate].
    destruct r; reflexivity.
  - cbn [contains append] in *. apply orb_prop in H as [H|H].
    + change (String c (x ++ r)%string) with ((String c x ++ r)%string).
      now rewrite (prefix_mono _ _ r H).
    + rewrite (IH H). apply orb_true_r.
Qed.

Lemma contains_here (w s : string) : contains w (w ++ s)%string = true.
Proof.
  pose proof (prefix_app w s) as H.
  destruct (w ++ s)%string; cbn [contains]; now rewrite H.
Qed.

Lemma contains_suffix (w x s : string) :
  contains w s = true -> contains w (x ++ s)%string = true.
Proof.
  intro H. induction x as [|c x IH]; [exact H|].
  cbn [append contains]. rewrite IH. apply orb_true_r.
Qed.

Lemma contains_lstrip (w s : string) :
  contains w (lstrip s) = true -> contains w s = true.
Proof.
  induction s as [|c s IH]; [auto|].
  cbn [lstrip]. destruct (is_space c); [|auto].
  intro H. cbn [contains]. rewrite (IH H). apply orb_true_r.
Qed.

Lemma rstrip_prefix (s : string) : exists r, s = (rstrip s ++ r)%string.
Proof.
  induction s as [|c s [r IH]]; [now exists ""|].
  cbn [rstrip]. destruct (rstrip s) as [|d t].
  - destruct (is_space c).
    + now exists (String c s).
    + exists s. reflexivity.
  - exists r. cbn [append]. cbn [append] in IH. now rewrite <- IH.
Qed.

Lemma contains_strip (w s : string) :
  contains w (strip s) = true -> contains w s = true.
Proof.
  unfold strip. intro H. apply contains_lstrip.
  destruct (rstrip_prefix (lstrip s)) as [r E]. rewrite E.
  now apply contains_mono.
Qed.

Lemma append_nil_r (s : string) : (s ++ "")%string = s.
Proof.
  induction s as [|c s IH]; [reflexivity | cbn; now rewrite IH].
Qed.

(** *** Cutting at a marker *)

Section Split.

Variable m : ascii.
Variable w : string.

#[local] Abbreviation sep := (String m w).

Lemma split_from_nonempty (s : string) (k : nat) : split_from sep s k <> [].
Proof.
  revert k; induction s as [|c s IH]; intros k; [discriminate|].
  cbn [split_from]. destruct k as [|k]; [|apply IH].
  destruct (prefix sep (String c s)); [discriminate|].
  destruct (split_from sep s 0); discriminate.
Qed.

Lemma split_from_skip (x s : string) :
  split_from sep (x ++ s)%string (String.length x) = split_from sep s 0.
Proof.
  induction x as [|c x IH]; [reflexivity | exact IH].
Qed.

Lemma split_str_sep (s : string) :
  split_str sep (sep ++ s)%string = "" :: split_str sep s.
Proof.
  unfold split_str. cbn [append split_from].
  change (String m (w ++ s)%string) with ((sep ++ s)%string).
  rewrite prefix_app.
  replace (String.length sep - 1) with (String.length w) by (cbn [String.length]; lia).
  now rewrite split_from_skip.
Qed.

Lemma split_str_clean_head (t s : string) :
  has_char m t = false ->
  split_str sep (t ++ s)%string
  = match split_str sep s with
    | [] => []
    | p :: ps => (t ++ p)%string :: ps
    end.
Proof.
  unfold split_str. induction t as [|c t IH]; intro H.
  - cbn [append]. destruct (split_from sep s 0) as [|p ps] eqn:E; [|reflexivity].
    now destruct (split_from_nonempty s 0).
  - cbn [has_char] in H. apply orb_false_elim in H as [Hc Ht].
    cbn [append split_from]. rewrite (prefix_head m c w _ Hc), (IH Ht).
    destruct (split_from sep s 0) as [|p ps] eqn:E; [|reflexivity].
    now destruct (split_from_nonempty s 0).
Qed.

Lemma contains_has_char (s : string) : contains sep s = true -> has_char m s = true.
Proof.
  induction s as [|c s IH]; [discriminate|].
  cbn [contains has_char]. intro H. apply orb_prop in H as [H|H].
  - cbn in H. destruct (ascii_dec m c) as [->|]; [|discriminate].
    now rewrite Ascii.eqb_refl.
  - rewrite (IH H). apply orb_true_r.
Qed.

(** Every piece is free of the separator, and the first piece is a
    prefix of the text. *)
Lemma split_from_pieces (s : string) :
  forall k,
    Forall (fun p => contains sep p = false) (split_from sep s k)
    /\ (k = 0 -> exists p ps r, split_from sep s 0 = p :: ps /\ s = (p ++ r)%string).
Proof.
  induction s as [|c s IH]; intro k.
  - split; [repeat constructor|]. intros _. now exists "", [], "".
  - cbn [split_from]. destruct k as [|k].
    + destruct (prefix sep (String c s)) eqn:Ep.
      * split; [|intros _; now exists "", (split_from sep s (String.length sep - 1)),
                                     (String c s)].
        constructor; [reflexivity | apply IH].
      * destruct (IH 0) as [Hall Hhead].
        destruct (Hhead eq_refl) as (p & ps & r & E & Es). rewrite E in Hall |- *.
        apply Forall_cons_iff in Hall as [Hp Hps].
        split.
        -- constructor; [|exact Hps]. cbn [contains]. rewrite Hp, orb_false_r.
           destruct (prefix sep (String c p)) eqn:Eq; [|reflexivity].
           apply (prefix_mono _ _ r) in Eq. cbn [append] in Eq.
           rewrite <- Es in Eq. congruence.
        -- intros _. exists (String c p), ps, r. split; [reflexivity|].
           cbn [append]. now rewrite <- Es.
    + split; [apply IH | discriminate].
Qed.

Lemma split_str_two (s : string) :
  contains sep s = true -> exists p q rest, split_str sep s = p :: q :: rest.
Proof.
  unfold split_str. induction s as [|c s IH]; [discriminate|].
  cbn [contains split_from]. destruct (prefix sep (String c s)) eqn:Ep.
  - intros _. destruct (split_from sep s (String.length sep - 1)) as [|q rest] eqn:E.
    + now destruct (split_from_nonempty s (String.length sep - 1)).
    + now exists "", q, rest.
  - cbn [orb]. intro H. destruct (IH H) as (p & q & rest & E). rewrite E.
    now exists (String c p), q, rest.
Qed.

Lemma split_str_none (s : string) : contains sep s = false -> split_str sep s = [s].
Proof.
  unfold split_str. induction s as [|c s IH]; [reflexivity|].
  cbn [contains split_from]. intro H. apply orb_false_elim in H as [Hp Hs].
  now rewrite Hp, (IH Hs).
Qed.

End Split.

(** X5.  When the raw response holds both markers, the content returned
    by [generate] holds neither of them and has no white space at its
    ends; when a marker is missing, the response is returned as it
    is. *)
Theorem extracted_content_has_no_marker (response : string) :
  (contains "<START>" response = true -> contains "<END>" response = true ->
     contains "<START>" (extract_content response) = false
     /\ contains "<END>" (extract_content response) = false
     /\ strip (extract_content response) = extract_content response)
  /\ (contains "<START>" response = false \/ contains "<END>" response = false ->
     extract_content response = response).
Proof.
  split.
  - intros Hs He. unfold extract_content. rewrite Hs, He. cbn [andb].
    destruct (split_str_two "<" "START>" response Hs) as (p & after & rest & E).
    rewrite E. cbn [index nth_error bind].
    assert (Hafter : contains "<START>" after = false).
    { pose proof (proj1 (split_from_pieces "<" "START>" response 0)) as Hall.
      unfold split_str in E. rewrite E in Hall.
      apply Forall_cons_iff in Hall as [_ Hall].
      now apply Forall_cons_iff in Hall as [Hq _]. }
    destruct (split_from_pieces "<" "END>" after 0) as [Hall Hhead].
    destruct (Hhead eq_refl) as (inner & ps & r & Ei & Er).
    unfold split_str. rewrite Ei in Hall |- *. cbn [index nth_error bind except].
    apply Forall_cons_iff in Hall as [Hinner _].
    repeat split.
    + destruct (contains "<START>" (strip inner)) eqn:Ec; [|reflexivity].
      apply contains_strip in Ec. apply (contains_mono _ _ r) in Ec.
      rewrite <- Er in Ec. congruence.
    + destruct (contains "<END>" (strip inner)) eqn:Ec; [|reflexivity].
      apply contains_strip in Ec. congruence.
    + apply strip_idem.
  - intros H. unfold extract_content.
    destruct H as [H|H]; rewrite H; [reflexivity | now rewrite andb_false_r].
Qed.

Lemma extracted_content_has_no_marker_witness :
  contains "<START>" "bruit<START> Banque <END>suite<START>x" = true
  /\ contains "<END>" "bruit<START> Banque <END>suite<START>x" = true
  /\ contains "<END>" (extract_content "bruit<START> Banque <END>suite<START>x") = false.
Proof.
  assert (Hs : contains "<START>" "bruit<START> Banque <END>suite<START>x" = true)
    by reflexivity.
  assert (He : contains "<END>" "bruit<START> Banque <END>suite<START>x" = true)
    by reflexivity.
  split; [exact Hs | split; [exact He|]].
  exact (proj1 (proj2 (proj1 (extracted_content_has_no_marker
                                "bruit<START> Banque <END>suite<START>x") Hs He))).
Defined.

Lemma head_of_split (m : ascii) (w s : string) :
  exists h hs, split_str (String m w) s = h :: hs.
Proof.
  unfold split_str. destruct (split_from (String m w) s 0) as [|h hs] eqn:E.
  - now destruct (split_from_nonempty m w s 0).
  - eauto.
Qed.

(** X6.  A response made of a preamble, the start marker, a body, the
    end marker and anything after it, where the preamble and the body
    hold no '<', yields the body, stripped. *)
Theorem extracted_content_is_body (a b c : string)
  (Ha : has_char "<" a = false) (Hb : has_char "<" b = false) :
  extract_content (a ++ "<START>" ++ b ++ "<END>" ++ c)%string = strip b.
Proof.
  unfold extract_content.
  assert (Hs : contains "<START>" (a ++ "<START>" ++ b ++ "<END>" ++ c)%string = true).
  { apply contains_suffix. apply contains_here. }
  assert (He : contains "<END>" (a ++ "<START>" ++ b ++ "<END>" ++ c)%string = true).
  { apply contains_suffix. apply contains_suffix. apply contains_suffix.
    apply contains_here. }
  rewrite Hs, He. cbn [andb].
  rewrite (split_str_clean_head "<" "START>" a _ Ha), split_str_sep.
  cbn [index nth_error bind].
  rewrite (split_str_clean_head "<" "START>" b _ Hb).
  destruct (head_of_split "<" "START>" c) as (h & hs & Eh).
  assert (E1 : split_str "<START>" ("<END>" ++ c)%string = ("<END>" ++ h)%string :: hs).
  { unfold split_str in *. cbn. now rewrite Eh. }
  rewrite E1. cbn [index nth_error bind].
  rewrite (split_str_clean_head "<" "END>" b _ Hb), split_str_sep.
  cbn [index nth_error bind except]. now rewrite append_nil_r.
Qed.

Lemma extracted_content_is_body_witness :
  has_char "<" "Voici : " = false /\ has_char "<" " Banque de detail " = false
  /\ extract_content ("Voici : " ++ "<START>" ++ " Banque de detail " ++ "<END>" ++ "</s>")
     = strip " Banque de detail ".
Proof.
  split; [reflexivity | split; [reflexivity|]].
  exact (extracted_content_is_body "Voici : " " Banque de detail " "</s>"
           eq_refl eq_refl).
Defined.

(** X7.  The task read back from the user turn of a training record is
    the task it was built from, when the task holds no '<'; a user turn
    without the task marker gives 'unknown'. *)
Theorem task_read_back (t c : string) :
  (has_char "<" t = false -> task_of (Prompt.user_turn t c) = t)
  /\ (contains "<TASK>" c = false -> task_of c = "unknown").
Proof.
  split.
  - intro Ht. unfold task_of, Prompt.user_turn.
    rewrite split_str_sep. cbn [index nth_error bind].
    rewrite (split_str_clean_head "<" "TASK>" t _ Ht).
    remember (Prompt.LF ++ "<CONTEXT>" ++ Prompt.LF ++ c ++ Prompt.LF ++ "</CONTEXT>")%string
      as rest eqn:Erest. clear Erest.
    destruct (head_of_split "<" "TASK>" rest) as (h & hs & Eh).
    assert (E1 : split_str "<TASK>" ("</TASK>" ++ rest)%string
                 = ("</TASK>" ++ h)%string :: hs).
    { unfold split_str in *. cbn. now rewrite Eh. }
    rewrite E1. cbn [index nth_error bind].
    rewrite (split_str_clean_head "<" "/TASK>" t _ Ht), split_str_sep.
    cbn [index nth_error bind except]. apply append_nil_r.
  - intro H. unfold task_of. now rewrite (split_str_none "<" "TASK>" c H).
Qed.

Lemma task_read_back_witness :
  has_char "<" "coutsConstruction" = false
  /\ task_of (Prompt.user_turn "coutsConstruction" "client: ACME") = "coutsConstruction"
  /\ contains "<TASK>" "client: ACME" = false
  /\ task_of "client: ACME" = "unknown".
Proof.
  split; [reflexivity | split; [| split; [reflexivity|]]].
  - exact (proj1 (task_read_back "coutsConstruction" "client: ACME") eq_refl).
  - exact (proj2 (task_read_back "coutsConstruction" "client: ACME") eq_refl).
Defined.

End MarkerFacts.

(** ** Durations, numbers and dates read by the decoder *)

Module DecoderExtras.
Import Text Calendar Schema Decoder TextFacts StripFacts DatesFacts DecoderFacts.

#[local] Open Scope string_scope.
#[local] Open Scope nat_scope.

(** *** Durations *)

(** X8.  [calculate_days_between_dates] never returns less than 1,
    whatever the two texts; when both dates parse and the end precedes
    the start, the loop does not run and the result is 1. *)
Theorem duration_at_least_one (ds de : string) :
  (1 <= calculate_days_between_dates ds de)%Z
  /\ (forall s e, parse_date ds = Ok (Some s) -> parse_date de = Ok (Some e) ->
        (e < s)%Z -> calculate_days_between_dates ds de = 1%Z).
Proof.
  split.
  - unfold calculate_days_between_dates.
    destruct (parse_date ds) as [[s|]|x]; cbn [bind except bound].
    + destruct (parse_date de) as [[e|]|y]; cbn [bind except bound]; try lia.
      destruct (count_days _ s 0) as [days|z]; cbn [bind except]; lia.
    + destruct (parse_date de) as [[e|]|y]; cbn [bind except bound]; lia.
    + lia.
  - intros s e Hs He Hlt. rewrite (calculate_unfold ds de s e Hs He).
    replace (Z.to_nat (e + 1 - s)) with 0 by lia. reflexivity.
Qed.

Lemma duration_at_least_one_witness :
  parse_date "2024-03-15" = Ok (Some 738960%Z)
  /\ parse_date "01/03/2024" = Ok (Some 738946%Z)
  /\ calculate_days_between_dates "2024-03-15" "01/03/2024" = 1%Z.
Proof.
  split; [reflexivity | split; [reflexivity |]].
  apply (proj2 (duration_at_least_one "2024-03-15" "01/03/2024") 738960%Z 738946%Z).
  - reflexivity.
  - reflexivity.
  - lia.
Defined.

Lemma phases_row_duration (i : nat) (parts : list string) (r : record) :
  phases_row i parts = Ok (Some r) ->
  exists d, Dict.get r "col2" = Some (Str (str_of_Z d)) /\ (1 <= d)%Z.
Proof.
  by_cases_on_parts parts; intro H; try discriminate H; injection H as <-;
    try (exists 20%Z; split; [reflexivity | lia]);
    (eexists; split; [reflexivity | apply duration_at_least_one]).
Qed.

(** X9.  The phase decoder returns for every text, and the duration
    stored under col2 of every record is the decimal writing of an
    integer that is at least 1: the computed number of business days,
    or the default 20. *)
Theorem phase_durations_positive (content : string) :
  exists rows,
    parse_phases content = Ok rows
    /\ Forall (fun r => exists d, Dict.get r "col2" = Some (Str (str_of_Z d)) /\ (1 <= d)%Z)
              rows.
Proof.
  destruct (for_lines_returns phases_row (Some 8)
              (some_returns phases_row phases_row_total) (first_lines 8 content) [])
    as [rows Hrun].
  exists rows. split; [exact Hrun|].
  exact (proj1 (for_lines_inv phases_row _ (Some 8) phases_row_duration _ _ _ Hrun
                  (Forall_nil _))).
Qed.

(** *** Numbers *)

Lemma digits_value_nonneg (s : string) : forall acc, (0 <= acc)%Z -> (0 <= digits_value acc s)%Z.
Proof.
  induction s as [|c s IH]; intros acc H; cbn [digits_value]; [exact H|].
  apply IH. unfold digit_value. lia.
Qed.

(** X10.  [extract_number] never returns a negative number: a sign in
    front of the digits is not read. *)
Theorem extract_number_nonneg (text : string) : (0 <= extract_number text)%Z.
Proof.
  unfold extract_number.
  destruct (search_digits _); [apply digits_value_nonneg|]; lia.
Qed.

Lemma has_char_digits (m : ascii) (d : string) :
  is_digit m = false -> all_digits d = true -> has_char m d = false.
Proof.
  intros Hm. unfold all_digits.
  induction d as [|c d IH]; cbn [list_ascii_of_string forallb has_char]; [reflexivity|].
  intro H. apply andb_true_iff in H as [Hc Hd].
  rewrite (IH Hd), orb_false_r.
  destruct (Ascii.eqb_spec c m) as [->|]; [congruence | reflexivity].
Qed.

Lemma all_digits_app (a b : string) :
  all_digits (a ++ b) = all_digits a && all_digits b.
Proof.
  unfold all_digits. induction a as [|c a IH]; [reflexivity|].
  cbn [append list_ascii_of_string forallb]. now rewrite IH, andb_assoc.
Qed.

(** A string without the first character of [old] has no occurrence of
    it. *)
Lemma replace_app_absent (m : ascii) (w new a b : string) :
  has_char m a = false ->
  replace_from (String m w) new (a ++ b) 0 = a ++ replace_from (String m w) new b 0.
Proof.
  induction a as [|c a IH]; [reflexivity|].
  cbn [has_char]. intro H. apply orb_false_iff in H as [Hc Ha].
  cbn [append replace_from prefix].
  destruct (ascii_dec m c) as [->|_]; [now rewrite Ascii.eqb_refl in Hc|].
  now rewrite (IH Ha).
Qed.

Lemma replace_absent (m : ascii) (w new a : string) :
  has_char m a = false -> replace (String m w) new a = a.
Proof.
  intro H. unfold replace.
  rewrite <- (MarkerFacts.append_nil_r a) at 1.
  rewrite (replace_app_absent m w new a "" H). apply MarkerFacts.append_nil_r.
Qed.

Lemma span_digits_app (d r : string) :
  all_digits d = true ->
  span_digits (d ++ r) = (d ++ fst (span_digits r), snd (span_digits r)).
Proof.
  unfold all_digits. induction d as [|c d IH];
    cbn [list_ascii_of_string forallb append span_digits].
  - intros _. now destruct (span_digits r).
  - intro H. apply andb_true_iff in H as [Hc Hd].
    rewrite Hc, (IH Hd). reflexivity.
Qed.

Lemma search_digits_head (d r : string) :
  all_digits d = true -> d <> "" ->
  search_digits (d ++ r) = Some (d ++ fst (span_digits r)).
Proof.
  intros Hd Hne. destruct d as [|c d]; [contradiction|].
  pose proof (span_digits_app (String c d) r Hd) as Hs.
  unfold all_digits in Hd. cbn [list_ascii_of_string forallb] in Hd.
  apply andb_true_iff in Hd as [Hc _].
  cbn [append search_digits]. rewrite Hc.
  cbn [append] in Hs. now rewrite Hs.
Qed.

Lemma digits_value_app (a b : string) :
  forall acc, digits_value acc (a ++ b) = digits_value (digits_value acc a) b.
Proof.
  induction a as [|c a IH]; intro acc; [reflexivity|].
  cbn [append digits_value]. apply IH.
Qed.

Lemma search_digits_all (d : string) :
  all_digits d = true ->
  match search_digits d with
  | Some run => digits_value 0 run
  | None => 0%Z
  end = digits_value 0 d.
Proof.
  intro Hd. destruct d as [|c d]; [reflexivity|].
  rewrite <- (MarkerFacts.append_nil_r (String c d)) at 1.
  rewrite (search_digits_head (String c d) "" Hd) by discriminate.
  cbn [span_digits fst]. now rewrite MarkerFacts.append_nil_r.
Qed.

(** An occurrence of a one-character [old] at the head is replaced. *)
Lemma replace_here (m : ascii) (new e : string) :
  replace_from (String m "") new (String m e) 0 = new ++ replace_from (String m "") new e 0.
Proof.
  assert (H : prefix (String m "") (String m e) = true)
    by exact (MarkerFacts.prefix_app (String m "") e).
  cbn [replace_from]. rewrite H. reflexivity.
Qed.

Ltac no_separator :=
  repeat rewrite has_char_app;
  repeat match goal with
         | |- context [has_char ?m ?x] =>
             is_var x; rewrite (has_char_digits m x) by (assumption || reflexivity)
         end;
  reflexivity.

(** X11.  How [extract_number] reads a number written with its usual
    separators, for runs of digits [d] and [e].  A final k multiplies by
    a thousand; a space or a comma between two runs is dropped, so that
    the two runs read as one number (a decimal comma is lost: 1,5 reads
    15); a point ends the number, so only the integer part is read. *)
Theorem extract_number_separators (d e : string)
  (Hd : all_digits d = true) (He : all_digits e = true) :
  extract_number (d ++ "k") = (1000 * digits_value 0 d)%Z
  /\ extract_number (d ++ " " ++ e) = digits_value 0 (d ++ e)
  /\ extract_number (d ++ "," ++ e) = digits_value 0 (d ++ e)
  /\ (d <> "" -> extract_number (d ++ "." ++ e) = digits_value 0 d).
Proof.
  assert (Hde : all_digits (d ++ e) = true) by (rewrite all_digits_app, Hd, He; reflexivity).
  unfold extract_number. repeat split.
  - rewrite (replace_absent " " "" "" (d ++ "k")) by no_separator.
    rewrite (replace_absent "," "" "" (d ++ "k")) by no_separator.
    rewrite (replace_absent _ _ "" (d ++ "k")) by no_separator.
    unfold replace. rewrite (replace_app_absent "k" "" "000" d "k") by no_separator.
    rewrite (replace_here "k" "000" "").
    change ("000" ++ replace_from "k" "000" "" 0) with "000".
    assert (H0 : all_digits (d ++ "000") = true)
      by (rewrite all_digits_app, Hd; reflexivity).
    rewrite (search_digits_all _ H0), digits_value_app. cbn [digits_value].
    change (digit_value "0") with 0%Z. lia.
  - unfold replace at 4. rewrite (replace_app_absent " " "" "" d (" " ++ e)) by no_separator.
    change (" " ++ e) with (String " " e). rewrite (replace_here " " "" e).
    change ("" ++ replace_from " " "" e 0) with (replace " " "" e).
    rewrite (replace_absent " " "" "" e) by no_separator.
    rewrite (replace_absent "," "" "" (d ++ e)) by no_separator.
    rewrite (replace_absent _ _ "" (d ++ e)) by no_separator.
    rewrite (replace_absent "k" "" "000" (d ++ e)) by no_separator.
    exact (search_digits_all _ Hde).
  - rewrite (replace_absent " " "" "" (d ++ "," ++ e)) by no_separator.
    unfold replace at 3. rewrite (replace_app_absent "," "" "" d ("," ++ e)) by no_separator.
    change ("," ++ e) with (String "," e). rewrite (replace_here "," "" e).
    change ("" ++ replace_from "," "" e 0) with (replace "," "" e).
    rewrite (replace_absent "," "" "" e) by no_separator.
    rewrite (replace_absent _ _ "" (d ++ e)) by no_separator.
    rewrite (replace_absent "k" "" "000" (d ++ e)) by no_separator.
    exact (search_digits_all _ Hde).
  - intro Hne.
    rewrite (replace_absent " " "" "" (d ++ "." ++ e)) by no_separator.
    rewrite (replace_absent "," "" "" (d ++ "." ++ e)) by no_separator.
    rewrite (replace_absent _ _ "" (d ++ "." ++ e)) by no_separator.
    rewrite (replace_absent "k" "" "000" (d ++ "." ++ e)) by no_separator.
    rewrite (search_digits_head d _ Hd Hne).
    cbn [append span_digits]. change (is_digit ".") with false. cbv iota. cbn [fst].
    now rewrite MarkerFacts.append_nil_r.
Qed.

Lemma extract_number_separators_witness :
  extract_number "12k" = 12000%Z
  /\ extract_number "1 200" = 1200%Z
  /\ extract_number "1,5" = 15%Z
  /\ extract_number "12.75" = 12%Z.
Proof.
  destruct (extract_number_separators "12" "" eq_refl eq_refl) as (Hk & _).
  destruct (extract_number_separators "1" "200" eq_refl eq_refl) as (_ & Hs & _).
  destruct (extract_number_separators "1" "5" eq_refl eq_refl) as (_ & _ & Hc & _).
  destruct (extract_number_separators "12" "75" eq_refl eq_refl) as (_ & _ & _ & Hp).
  split; [exact Hk | split; [exact Hs | split; [exact Hc |]]].
  apply Hp. discriminate.
Defined.

(** *** Categories *)

Lemma map_criticality_closed (t : string) : In (map_criticality t) ["Faible"; "Élevé"; "Moyen"].
Proof.
  unfold map_criticality. destruct (any_in _ _); [now left|].
  destruct (any_in _ _); [right; now left | right; right; now left].
Qed.

Lemma map_probability_closed (t : string) :
  In (map_probability t) ["Faible"; "Élevée"; "Moyenne"].
Proof.
  unfold map_probability. destruct (any_in _ _); [now left|].
  destruct (any_in _ _); [right; now left | right; right; now left].
Qed.

Lemma map_impact_closed (t : string) : In (map_impact t) ["Faible"; "Élevé"; "Moyen"].
Proof.
  unfold map_impact. destruct (any_in _ _); [now left|].
  destruct (any_in _ _); [right; now left | right; right; now left].
Qed.

Lemma contraintes_row_category (i : nat) (parts : list string) (r : record) :
  contraintes_row i parts = Ok (Some r) ->
  exists w, Dict.get r "col2" = Some (Str w) /\ In w ["Faible"; "Élevé"; "Moyen"].
Proof.
  by_cases_on_parts parts; intro H; try discriminate H; injection H as <-;
    (eexists; split; [reflexivity | apply map_criticality_closed]).
Qed.

Lemma risques_row_category (i : nat) (parts : list string) (r : record) :
  risques_row i parts = Ok (Some r) ->
  exists p w,
    Dict.get r "col1" = Some (Str p) /\ In p ["Faible"; "Élevée"; "Moyenne"]
    /\ Dict.get r "col2" = Some (Str w) /\ In w ["Faible"; "Élevé"; "Moyen"].
Proof.
  by_cases_on_parts parts; intro H; try discriminate H; injection H as <-;
    (do 2 eexists; split; [reflexivity | split; [apply map_probability_closed |
       split; [reflexivity | apply map_impact_closed]]]).
Qed.

(** X12.  Whatever the model wrote, the constraint decoder stores one
    of the three criticality levels under col2 of every record, and the
    risk decoder one of the three probability levels under col1 and one
    of the three impact levels under col2. *)
Theorem severity_columns_closed (content : string) :
  (exists rows,
     parse_contraintes content = Ok rows
     /\ Forall (fun r => exists w, Dict.get r "col2" = Some (Str w)
                                   /\ In w ["Faible"; "Élevé"; "Moyen"]) rows)
  /\ (exists rows,
     parse_risques content = Ok rows
     /\ Forall (fun r => exists p w,
                  Dict.get r "col1" = Some (Str p) /\ In p ["Faible"; "Élevée"; "Moyenne"]
                  /\ Dict.get r "col2" = Some (Str w) /\ In w ["Faible"; "Élevé"; "Moyen"])
               rows).
Proof.
  split.
  - destruct (for_lines_returns contraintes_row None contraintes_row_returns
                (first_lines 5 content) []) as [rows Hrun].
    exists rows. split; [exact Hrun|].
    exact (proj1 (for_lines_inv contraintes_row _ None contraintes_row_category _ _ _ Hrun
                    (Forall_nil _))).
  - destruct (for_lines_returns risques_row None risques_row_returns
                (first_lines 6 content) []) as [rows Hrun].
    exists rows. split; [exact Hrun|].
    exact (proj1 (for_lines_inv risques_row _ None risques_row_category _ _ _ Hrun
                    (Forall_nil _))).
Qed.

(** *** Costs *)

Lemma construction_row_totals (i : nat) (parts : list string) (r : record) :
  couts_construction_row i parts = Ok (Some r) ->
  exists n t,
    (0 <= n)%Z /\ (0 <= t)%Z
    /\ Dict.get r "col1" = Some (Str (str_of_Z n))
    /\ Dict.get r "col2" = Some (Str (str_of_Z t))
    /\ Dict.get r "col3" = Some (Str (str_of_Z (n * t))).
Proof.
  intro H. destruct (construction_total_is_product i parts r H)
    as (p1 & p2 & _ & _ & H1 & H2 & H3).
  exists (extract_number p1), (extract_number p2).
  repeat split; try assumption; apply extract_number_nonneg.
Qed.

(** X13.  The construction-cost decoder returns for every text, and in
    every record the total under col3 is the product of the day count
    under col1 and the daily rate under col2, two integers that are not
    negative: the total the model wrote is not read. *)
Theorem construction_totals_recomputed (content : string) :
  exists rows,
    parse_couts_construction content = Ok rows
    /\ Forall (fun r => exists n t,
                 (0 <= n)%Z /\ (0 <= t)%Z
                 /\ Dict.get r "col1" = Some (Str (str_of_Z n))
                 /\ Dict.get r "col2" = Some (Str (str_of_Z t))
                 /\ Dict.get r "col3" = Some (Str (str_of_Z (n * t)))) rows.
Proof.
  destruct (for_lines_returns couts_construction_row None couts_construction_row_returns
              (first_lines 7 content) []) as [rows Hrun].
  exists rows. split; [exact Hrun|].
  exact (proj1 (for_lines_inv couts_construction_row _ None construction_row_totals _ _ _ Hrun
                  (Forall_nil _))).
Qed.




End DecoderExtras.

(** ** Dates found in free text *)

Module DateTextFacts.
Import Text Calendar Decoder TextFacts StripFacts.

#[local] Open Scope string_scope.
#[local] Open Scope nat_scope.

Lemma digit_not_space (c : ascii) : is_digit c = true -> is_space c = false.
Proof.
  unfold is_digit, is_space, between. intro H.
  apply andb_true_iff in H as [H1 _]. apply Nat.leb_le in H1.
  apply orb_false_iff. split; apply andb_false_iff; right; apply Nat.leb_gt; lia.
Qed.

Lemma rstrip_end (s : string) (z : ascii) :
  is_space z = false -> rstrip (s ++ String z "") = s ++ String z "".
Proof.
  intro Hz. induction s as [|c s IH].
  - cbn [append rstrip]. now rewrite Hz.
  - cbn [append]. rewrite rstrip_cons; rewrite IH; [reflexivity|].
    destruct s; discriminate.
Qed.

(** A text that starts and ends with a digit is its own [strip]. *)
Lemma strip_between_digits (a z : ascii) (s : string) :
  is_digit a = true -> is_digit z = true ->
  strip (String a (s ++ String z "")) = String a (s ++ String z "").
Proof.
  intros Ha Hz. unfold strip. cbn [lstrip]. rewrite (digit_not_space a Ha).
  exact (rstrip_end (String a s) z (digit_not_space z Hz)).
Qed.

Ltac explode m H :=
  repeat (destruct m as [|? m]; cbn [String.length] in H; [discriminate H|]);
  destruct m; [|discriminate H].

Ltac split_andb :=
  repeat match goal with
         | H : _ && _ = true |- _ => apply andb_true_iff in H as [? ?]
         end.

(** *** The two shapes of a result *)

Lemma iso_at_shape (s m : string) :
  iso_at s = Some m ->
  exists a b c d e f g h,
    m = String a (String b (String c (String d (String "-"
          (String e (String f (String "-" (String g (String h "")))))))))
    /\ forallb is_digit [a; b; c; d; e; f; g; h] = true.
Proof.
  unfold iso_at. generalize (take 10 s). intro t.
  destruct (String.length t =? 10) eqn:L; cbn [andb]; [|discriminate].
  apply Nat.eqb_eq in L. explode t L.
  unfold all_digits.
  cbn [substring list_ascii_of_string forallb].
  match goal with |- (if ?c then _ else _) = _ -> _ => destruct c eqn:C end; [|discriminate].
  intro H. injection H as <-. split_andb.
  repeat match goal with
         | H : String.eqb _ _ = true |- _ => apply String.eqb_eq in H; injection H as ->
         end.
  do 8 eexists. split; [reflexivity|].
  cbn [forallb].
  repeat match goal with H : is_digit _ = true |- _ => rewrite H; clear H end.
  reflexivity.
Qed.

Lemma search_iso_found (s m : string) :
  search_iso s = Some m -> exists t, iso_at t = Some m.
Proof.
  induction s as [|c s IH]; cbn [search_iso].
  - destruct (iso_at "") eqn:E; [|discriminate].
    intro H. injection H as <-. now exists "".
  - destruct (iso_at (String c s)) eqn:E.
    + intro H. injection H as <-. now exists (String c s).
    + exact IH.
Qed.

Lemma digits12_shape (s d r : string) :
  In (d, r) (digits12_ways s) ->
  exists a b, zfill 2 d = String a (String b "") /\ is_digit a = true /\ is_digit b = true.
Proof.
  unfold digits12_ways. intro H. apply in_app_or in H as [H|H].
  - destruct s as [|a [|b s]]; try contradiction.
    destruct (is_digit a) eqn:Ha; [|contradiction].
    destruct (is_digit b) eqn:Hb; [|contradiction].
    cbn [andb In] in H. destruct H as [H|[]]. injection H as <- <-.
    exists a, b. now repeat split.
  - destruct s as [|a s]; try contradiction.
    destruct (is_digit a) eqn:Ha; [|contradiction].
    cbn [In] in H. destruct H as [H|[]]. injection H as <- <-.
    exists "0"%char, a. now repeat split.
Qed.

Lemma digits4_shape (s y r : string) :
  In (y, r) (digits4_ways s) ->
  exists a b c d,
    y = String a (String b (String c (String d "")))
    /\ forallb is_digit [a; b; c; d] = true.
Proof.
  unfold digits4_ways. generalize (take 4 s). intro t.
  destruct (String.length t =? 4) eqn:L; cbn [andb]; [|contradiction].
  destruct (all_digits t) eqn:D; [|contradiction].
  cbn [In]. intros [H|[]]. injection H as <- _.
  apply Nat.eqb_eq in L. explode t L.
  do 4 eexists. split; [reflexivity | exact D].
Qed.

Lemma dmy_ways_shape (s day month year : string) :
  In (day, month, year) (dmy_ways s) ->
  exists a b c d e f g h,
    zfill 2 day ++ "/" ++ zfill 2 month ++ "/" ++ year
    = String a (String b (String "/" (String c (String d (String "/"
        (String e (String f (String g (String h "")))))))))
    /\ forallb is_digit [a; b; c; d; e; f; g; h] = true.
Proof.
  unfold dmy_ways. intro H.
  apply in_flat_map in H as ([d0 r1] & Hd & H).
  apply in_flat_map in H as (r2 & _ & H).
  apply in_flat_map in H as ([m0 r3] & Hm & H).
  apply in_flat_map in H as (r4 & _ & H).
  apply in_map_iff in H as ([y r5] & E & Hy).
  injection E as <- <- <-.
  destruct (digits12_shape _ _ _ Hd) as (a & b & -> & Ha & Hb).
  destruct (digits12_shape _ _ _ Hm) as (c & d & -> & Hc & Hd').
  destruct (digits4_shape _ _ _ Hy) as (e & f & g & h & -> & Hy').
  exists a, b, c, d, e, f, g, h. split; [reflexivity|].
  cbn [forallb] in *. rewrite Ha, Hb, Hc, Hd'. exact Hy'.
Qed.

Lemma search_dmy_found (s : string) (g : string * string * string) :
  search_dmy s = Some g -> exists t, In g (dmy_ways t).
Proof.
  induction s as [|c s IH]; cbn [search_dmy].
  - destruct (dmy_ways "") eqn:E; [discriminate|].
    intro H. injection H as <-. exists "". rewrite E. now left.
  - destruct (dmy_ways (String c s)) eqn:E.
    + exact IH.
    + intro H. injection H as <-. exists (String c s). rewrite E. now left.
Qed.

(** *** Each shape is read back as itself *)

Section Digits.

Variables a b c d e f g h : ascii.
Hypothesis Hall : forallb is_digit [a; b; c; d; e; f; g; h] = true.

#[local] Abbreviation iso :=
  (String a (String b (String c (String d (String "-"
     (String e (String f (String "-" (String g (String h "")))))))))).

#[local] Abbreviation dmy :=
  (String a (String b (String "/" (String c (String d (String "/"
     (String e (String f (String g (String h "")))))))))).

Lemma iso_at_iso : iso_at iso = Some iso.
Proof.
  cbn [forallb] in Hall. split_andb.
  unfold iso_at, take, all_digits.
  cbn [substring String.length Nat.eqb list_ascii_of_string forallb andb].
  repeat match goal with H : is_digit _ = true |- _ => rewrite H; clear H end.
  reflexivity.
Qed.

Lemma extract_date_iso : extract_date iso = iso.
Proof.
  pose proof iso_at_iso as Hiso.
  cbn [forallb] in Hall. split_andb.
  unfold extract_date.
  change iso with (String a (String b (String c (String d (String "-"
     (String e (String f (String "-" (String g ""))))))) ++ String h "")) at 2.
  rewrite strip_between_digits by assumption.
  cbn [append is_empty orb String.length Nat.ltb Nat.leb].
  cbn [search_iso]. rewrite Hiso. reflexivity.
Qed.

Lemma search_iso_dmy : search_iso dmy = None.
Proof.
  cbn [forallb] in Hall. split_andb.
  cbn [search_iso]. unfold iso_at, take, all_digits.
  cbn [substring String.length Nat.eqb list_ascii_of_string forallb andb].
  repeat match goal with H : is_digit _ = true |- _ => rewrite H; clear H end.
  reflexivity.
Qed.

Lemma dmy_ways_dmy :
  exists rest,
    dmy_ways dmy
    = (String a (String b ""), String c (String d ""),
       String e (String f (String g (String h "")))) :: rest.
Proof.
  cbn [forallb] in Hall. split_andb.
  unfold dmy_ways, digits12_ways.
  repeat match goal with H : is_digit _ = true |- _ => rewrite H end.
  cbn [andb app flat_map lit_ways].
  change (Ascii.eqb "/" "/") with true. cbv iota. cbn [app flat_map].
  repeat match goal with H : is_digit _ = true |- _ => rewrite H end.
  cbn [andb app flat_map lit_ways].
  change (Ascii.eqb "/" "/") with true. cbv iota. cbn [app flat_map].
  unfold digits4_ways, take, all_digits.
  cbn [substring String.length Nat.eqb list_ascii_of_string forallb andb].
  repeat match goal with H : is_digit _ = true |- _ => rewrite H end.
  cbn [andb map app]. eexists. reflexivity.
Qed.

Lemma extract_date_dmy : extract_date dmy = dmy.
Proof.
  pose proof search_iso_dmy as Hiso. destruct dmy_ways_dmy as [rest Hdmy].
  cbn [forallb] in Hall. split_andb.
  unfold extract_date.
  change dmy with (String a (String b (String "/" (String c (String d (String "/"
     (String e (String f (String g ""))))))) ++ String h "")) at 2.
  rewrite strip_between_digits by assumption.
  cbn [append is_empty orb String.length Nat.ltb Nat.leb].
  rewrite Hiso. cbn [search_dmy]. rewrite Hdmy. reflexivity.
Qed.

End Digits.

Lemma extract_date_shape (text : string) :
  extract_date text = ""
  \/ exists a b c d e f g h,
       forallb is_digit [a; b; c; d; e; f; g; h] = true
       /\ (extract_date text
           = String a (String b (String c (String d (String "-"
               (String e (String f (String "-" (String g (String h "")))))))))
           \/ extract_date text
              = String a (String b (String "/" (String c (String d (String "/"
                  (String e (String f (String g (String h "")))))))))).
Proof.
  unfold extract_date.
  destruct (is_empty text || (String.length (strip text) <? 6)); [now left|].
  destruct (search_iso text) as [m|] eqn:Ei.
  - right. destruct (search_iso_found _ _ Ei) as [t Ht].
    destruct (iso_at_shape _ _ Ht) as (a & b & c & d & e & f & g & h & -> & Hall).
    exists a, b, c, d, e, f, g, h. split; [exact Hall | now left].
  - destruct (search_dmy text) as [[[day month] year]|] eqn:Ed; [|now left].
    right. destruct (search_dmy_found _ _ Ed) as [t Ht].
    destruct (dmy_ways_shape _ _ _ _ Ht) as (a & b & c & d & e & f & g & h & E & Hall).
    exists a, b, c, d, e, f, g, h. split; [exact Hall | right; exact E].
Qed.

(** X15.  [extract_date] returns the empty string or a date of ten
    characters, and a date it returns is read back as itself: applying
    the function to its own result changes nothing. *)
Theorem extract_date_normal_form (text : string) :
  (extract_date text = "" \/ String.length (extract_date text) = 10)
  /\ extract_date (extract_date text) = extract_date text.
Proof.
  destruct (extract_date_shape text)
    as [E|(a & b & c & d & e & f & g & h & Hall & [E|E])]; rewrite E.
  - split; [now left | reflexivity].
  - split; [now right | exact (extract_date_iso a b c d e f g h Hall)].
  - split; [now right | exact (extract_date_dmy a b c d e f g h Hall)].
Qed.

End DateTextFacts.

(** ** The caller context and the order of the used fields *)

Module AssemblerExtras.
Import Text Schema Assembler AssemblerFacts.

#[local] Open Scope string_scope.
#[local] Open Scope list_scope.
#[local] Open Scope nat_scope.

(** *** Renaming of the caller's keys *)

Lemma get_set {V : Type} (d : list (string * V)) (k k' : string) (v : V) :
  Dict.get (Dict.set d k v) k' = if String.eqb k k' then Some v else Dict.get d k'.
Proof.
  induction d as [|[x w] d IH]; cbn [Dict.set Dict.get].
  - reflexivity.
  - destruct (String.eqb_spec x k) as [->|Hxk]; cbn [Dict.get].
    + destruct (String.eqb k k'); reflexivity.
    + rewrite IH. destruct (String.eqb_spec x k') as [->|Hxk']; [|reflexivity].
      now rewrite (proj2 (String.eqb_neq k k')) by congruence.
Qed.

Lemma find_app {A : Type} (p : A -> bool) (l1 l2 : list A) :
  find p (l1 ++ l2) = match find p l1 with
                      | Some x => Some x
                      | None => find p l2
                      end.
Proof.
  induction l1 as [|x l1 IH]; [reflexivity|].
  cbn [app find]. destruct (p x); [reflexivity | exact IH].
Qed.

Lemma renamed_lookup (fctx acc : context) (k : string) :
  Dict.get
    (fold_left
       (fun model_context '(key, v) =>
          let model_key := match Dict.get mapping key with
                           | Some k => k
                           | None => key
                           end in
          Dict.set model_context model_key v)
       fctx acc) k
  = match find (fun e => String.eqb match Dict.get mapping (fst e) with
                                    | Some k' => k'
                                    | None => fst e
                                    end k) (rev fctx) with
    | Some e => Some (snd e)
    | None => Dict.get acc k
    end.
Proof.
  revert acc. induction fctx as [|[key v] fctx IH]; intro acc; [reflexivity|].
  cbn [fold_left rev]. rewrite IH, find_app.
  destruct (find _ (rev fctx)); [reflexivity|].
  cbn [find fst snd]. rewrite get_set.
  destruct (String.eqb _ k); reflexivity.
Qed.

Lemma renamed_key (key k : string) :
  match Dict.get mapping key with
  | Some k' => k'
  | None => key
  end = k ->
  In k (map snd mapping) \/ Dict.get mapping k = None.
Proof.
  destruct (Dict.get mapping key) as [k'|] eqn:E; intros <-.
  - left. apply get_In in E. exact (in_map snd _ _ E).
  - now right.
Qed.

(** X16.  [map_frontend_to_model_fields] renames the keys of the caller
    context by the mapping table and keeps the others.  Looking a key up
    in the result gives the value of the last entry of the caller
    context whose renamed key it is: when the caller sends both a
    frontend name and the model name it stands for, the later entry
    wins.  The five frontend names that the table renames to another
    name (sector, project_type, complexity, contexte, lots) are never
    keys of the result. *)
Theorem frontend_keys_renamed (fctx : context) (k : string) :
  Dict.get (map_frontend_to_model_fields fctx) k
  = match find (fun e => String.eqb match Dict.get mapping (fst e) with
                                    | Some k' => k'
                                    | None => fst e
                                    end k) (rev fctx) with
    | Some e => Some (snd e)
    | None => None
    end
  /\ (In k ["sector"; "project_type"; "complexity"; "contexte"; "lots"] ->
      Dict.mem (map_frontend_to_model_fields fctx) k = false).
Proof.
  assert (H : Dict.get (map_frontend_to_model_fields fctx) k
              = match find (fun e => String.eqb match Dict.get mapping (fst e) with
                                                | Some k' => k'
                                                | None => fst e
                                                end k) (rev fctx) with
                | Some e => Some (snd e)
                | None => None
                end)
    by exact (renamed_lookup fctx [] k).
  split; [exact H|].
  intro Hk. unfold Dict.mem. rewrite H.
  destruct (find _ (rev fctx)) as [e|] eqn:E; [|reflexivity].
  apply find_some in E as [_ E]. apply String.eqb_eq in E.
  apply renamed_key in E. exfalso.
  cbn [In] in Hk.
  destruct Hk as [<-|[<-|[<-|[<-|[<-|[]]]]]];
    (destruct E as [E|E]; [|discriminate E]);
    cbn [map snd mapping In] in E;
    repeat (destruct E as [E|E]; [discriminate E|]); exact E.
Qed.

Lemma frontend_keys_renamed_witness :
  In "sector" ["sector"; "project_type"; "complexity"; "contexte"; "lots"]
  /\ Dict.mem (map_frontend_to_model_fields
                 [("secteur", Scalar "Banque" true); ("sector", Scalar "Assurance" true)])
              "sector" = false
  /\ Dict.get (map_frontend_to_model_fields
                 [("secteur", Scalar "Banque" true); ("sector", Scalar "Assurance" true)])
              "secteur" = Some (Scalar "Assurance" true).
Proof.
  assert (H : In "sector" ["sector"; "project_type"; "complexity"; "contexte"; "lots"])
    by (left; reflexivity).
  split; [exact H | split].
  - exact (proj2 (frontend_keys_renamed
                    [("secteur", Scalar "Banque" true); ("sector", Scalar "Assurance" true)]
                    "sector") H).
  - reflexivity.
Defined.

(** *** The order of the used fields *)

Section Layout.

Variable ctx : context.

Lemma relevant_fold_used (l : list string) :
  forall st, exists extra,
    snd (fold_left (relevant_step ctx) l st) = snd st ++ extra
    /\ length extra <= length l.
Proof.
  induction l as [|f l IH]; intro st.
  - exists []. cbn. split; [now rewrite app_nil_r | lia].
  - cbn [fold_left]. destruct (IH (relevant_step ctx st f)) as (extra & E & Hlen).
    assert (Hstep : snd (relevant_step ctx st f) = snd st
                    \/ snd (relevant_step ctx st f) = snd st ++ [f]).
    { unfold relevant_step. destruct (Dict.get ctx f) as [v|]; [|now left].
      destruct (negb (mem f (snd st))); [apply append_field_used | now left]. }
    destruct Hstep as [Hs|Hs]; rewrite Hs in E.
    + exists extra. split; [exact E | cbn [length]; lia].
    + exists (f :: extra). split; [now rewrite E, <- app_assoc | cbn [length]; lia].
Qed.

Lemma after_always_used : snd (after_always ctx) = filter (marked ctx) ALWAYS_INCLUDED.
Proof.
  unfold after_always. now rewrite (always_fold ctx ALWAYS_INCLUDED always_not_tabular).
Qed.

Lemma after_relevant_used (n : nat) (target : string) :
  exists extra,
    snd (after_relevant n target ctx) = filter (marked ctx) ALWAYS_INCLUDED ++ extra
    /\ length extra <= n.
Proof.
  unfold after_relevant.
  destruct (relevant_fold_used (firstn n (relevant_of target)) (after_always ctx))
    as (extra & E & Hlen).
  exists extra. rewrite E, after_always_used. split; [reflexivity|].
  rewrite length_firstn in Hlen. lia.
Qed.

End Layout.

(** X17.  For every strategy, target, caller context and outcome of the
    random draws, the list of used fields starts with the
    always-included fields that have a true value in the context, in the
    fixed order client, secteur, typeProjet, complexite, libelle, annee;
    it goes on with at most 2 further fields under the minimal strategy,
    at most 4 under medium and related, and at most 7 under any other
    strategy. *)
Theorem used_fields_layout
  (target : string) (fctx : context) (complexity : string) (g : rng) :
  exists extra,
    snd (assemble target fctx complexity g)
    = filter (marked (map_frontend_to_model_fields fctx)) ALWAYS_INCLUDED ++ extra
    /\ length extra
       <= (if String.eqb complexity "minimal" then 2
           else if String.eqb complexity "medium" || String.eqb complexity "related" then 4
           else 7).
Proof.
  unfold assemble. set (ctx := map_frontend_to_model_fields fctx).
  destruct (String.eqb complexity "minimal"); [apply after_relevant_used|].
  destruct (String.eqb complexity "medium" || String.eqb complexity "related").
  - destruct (after_relevant_used ctx 3 target) as (extra & E & Hlen).
    set (st := after_relevant 3 target ctx) in *.
    assert (Hkeep : exists extra0,
               snd st = filter (marked ctx) ALWAYS_INCLUDED ++ extra0 /\ length extra0 <= 4)
      by (exists extra; split; [exact E | lia]).
    destruct (random_fields target _ (snd st)) as [|p pool]; [exact Hkeep|].
    destruct (fst (choice (p :: pool) g)) as [f|]; [|exact Hkeep].
    unfold random_step. destruct (Dict.get ctx f) as [v|]; [|exact Hkeep].
    destruct (append_field_used f v st) as [Hs|Hs]; rewrite Hs; [exact Hkeep|].
    exists (extra ++ [f]). rewrite E, <- app_assoc. split; [reflexivity|].
    rewrite length_app. cbn [length]. lia.
  - destruct (after_relevant_used ctx 2 target) as (extra & E & Hlen).
    set (st := after_relevant 2 target ctx) in *.
    destruct (shuffle _ g) as [shuffled g1].
    pose proof (randint_range g1) as Hk.
    destruct (randint 3 5 g1) as [k g2]. cbn [fst] in Hk.
    destruct st as [parts used]. cbn [snd] in E.
    rewrite random_fold. cbn [snd].
    exists (extra ++ filter (appendable ctx) (firstn k shuffled)).
    rewrite E, <- app_assoc. split; [reflexivity|].
    rewrite length_app.
    pose proof (filter_length_le (appendable ctx) (firstn k shuffled)) as Hf.
    rewrite length_firstn in Hf. lia.
Qed.

End AssemblerExtras.

(** ** Validation of a year and discovery of the latest checkpoint *)

Module EndpointFacts.
Import Text TextFacts StripFacts Endpoints.

#[local] Open Scope string_scope.
#[local] Open Scope list_scope.
#[local] Open Scope nat_scope.

(** X18.  [validate_field] finds a value valid exactly when the field
    is not annee, or [int] of the value returns a year from 2024 to
    2030; it never gives more than one warning. *)
Theorem validation_verdict (field : string) (value : jvalue) :
  (fst (validate_field field value) = true
   <-> field <> "annee"
       \/ exists year, int_of value = Some year /\ (2024 <= year <= 2030)%Z)
  /\ length (snd (validate_field field value)) <= 1.
Proof.
  unfold validate_field, year_warnings. cbn [fst snd].
  destruct (String.eqb_spec field "annee") as [->|Hne].
  - destruct (int_of value) as [year|].
    + destruct (Z.ltb_spec year 2024) as [H1|H1]; cbn [orb].
      * split; [|cbn; lia]. split; [discriminate|].
        intros [H|(y & E & Hy)]; [contradiction | injection E as <-; lia].
      * destruct (Z.ltb_spec 2030 year) as [H2|H2].
        -- split; [|cbn; lia]. split; [discriminate|].
           intros [H|(y & E & Hy)]; [contradiction | injection E as <-; lia].
        -- split; [|cbn; lia]. split; [|reflexivity].
           intros _. right. exists year. split; [reflexivity | lia].
    + split; [|cbn; lia]. split; [discriminate|].
      intros [H|(y & E & _)]; [contradiction | discriminate].
  - split; [|cbn; lia]. split; [now left | reflexivity].
Qed.

Lemma validation_verdict_witness :
  int_of (JStr " 2026 ") = Some 2026%Z
  /\ fst (validate_field "annee" (JStr " 2026 ")) = true.
Proof.
  split; [reflexivity|].
  apply (proj2 (proj1 (validation_verdict "annee" (JStr " 2026 ")))).
  right. exists 2026%Z. split; [reflexivity | lia].
Defined.

(** *** The step of a checkpoint *)

Lemma split_no_sep (sep : ascii) (s p : string) :
  In p (split sep s) -> has_char sep p = false.
Proof.
  revert p. induction s as [|c s IH]; intros p; cbn [split].
  - intros [<-|[]]. reflexivity.
  - destruct (Ascii.eqb c sep) eqn:E.
    + intros [<-|H]; [reflexivity | now apply IH].
    + destruct (split sep s) as [|q qs].
      * intros [<-|[]]. cbn [has_char]. now rewrite E.
      * intros [<-|H].
        -- cbn [has_char]. rewrite E. apply IH. now left.
        -- apply IH. now right.
Qed.

Lemma int_body_nonneg (s : string) :
  forall acc prev v, (0 <= acc)%Z -> int_body acc prev s = Some v -> (0 <= v)%Z.
Proof.
  induction s as [|c s IH]; intros acc prev v Hacc; cbn [int_body].
  - destruct prev; [|discriminate]. intro H. injection H as <-. exact Hacc.
  - destruct (is_digit c).
    + apply IH. unfold digit_value. lia.
    + destruct (Ascii.eqb c "_" && prev); [|discriminate].
      destruct s as [|d s']; [discriminate|].
      destruct (is_digit d); [|discriminate]. now apply IH.
Qed.

(** The sign of [int(s)] is read from the first character of the
    stripped text. *)
Lemma py_int_sign (s : string) :
  exists sign body,
    (sign = 1%Z \/ has_char "-" (strip s) = true)
    /\ py_int s = match int_body 0 false body with
                  | Some v => Ok (sign * v)%Z
                  | None => Raise ValueError
                  end.
Proof.
  unfold py_int. destruct (strip s) as [|c r].
  - exists 1%Z, "". split; [now left | reflexivity].
  - destruct c as [b0 b1 b2 b3 b4 b5 b6 b7].
    destruct b0, b1, b2, b3, b4, b5, b6, b7;
      (do 2 eexists; split; [|reflexivity]; (now left) || (right; reflexivity)).
Qed.

Lemma py_int_nonneg (p : string) (z : Z) :
  has_char "-" p = false -> py_int p = Ok z -> (0 <= z)%Z.
Proof.
  intros Hp H. destruct (py_int_sign p) as (sign & body & Hs & E).
  rewrite E in H. destruct (int_body 0 false body) as [v|] eqn:Ev; [|discriminate].
  injection H as <-.
  destruct Hs as [->|Hs].
  - pose proof (int_body_nonneg body 0 false v (Z.le_refl 0) Ev). lia.
  - rewrite (has_char_strip "-" p Hp) in Hs. discriminate.
Qed.

Lemma checkpoint_step_nonneg (path_join : string -> string -> string)
    (output_dir : string) (entry : string * bool) (step : Z) (path : string) :
  checkpoint_of path_join output_dir entry = Some (step, path) -> (0 <= step)%Z.
Proof.
  unfold checkpoint_of. destruct entry as [item is_dir].
  destruct (is_dir && prefix "checkpoint-" item); [|discriminate].
  unfold index. destruct (nth_error (split "-" item) 1) as [p|] eqn:Ep; [|discriminate].
  destruct (py_int p) as [z|e] eqn:Ez; [|discriminate].
  intro H. injection H as <- _.
  apply (py_int_nonneg p z); [|exact Ez].
  apply (split_no_sep "-" item). exact (nth_error_In _ _ Ep).
Qed.

(** *** The sort *)

Lemma insert_desc_In (x y : Z * string) (l : list (Z * string)) :
  In y (insert_desc x l) <-> y = x \/ In y l.
Proof.
  induction l as [|h t IH]; cbn [insert_desc].
  - cbn. intuition congruence.
  - destruct (fst h <? fst x)%Z; cbn [In]; [intuition congruence|].
    rewrite IH. intuition.
Qed.

(** After an insertion the head is not smaller than any other element,
    when this held before. *)
Lemma insert_desc_head (x : Z * string) (l : list (Z * string)) :
  match l with
  | [] => True
  | h :: t => Forall (fun y => (fst y <= fst h)%Z) t
  end ->
  match insert_desc x l with
  | [] => False
  | h :: t => Forall (fun y => (fst y <= fst h)%Z) t
  end.
Proof.
  destruct l as [|h t]; cbn [insert_desc]; [constructor|].
  intro H. destruct (Z.ltb_spec (fst h) (fst x)) as [Hlt|Hge].
  - constructor; [lia|]. eapply Forall_impl; [|exact H]. cbv beta. intros; lia.
  - apply Forall_forall. intros y Hy. apply insert_desc_In in Hy as [->|Hy]; [exact Hge|].
    rewrite Forall_forall in H. now apply H.
Qed.

Lemma sort_desc_fold (l : list (Z * string)) :
  forall acc,
    match acc with
    | [] => True
    | h :: t => Forall (fun y => (fst y <= fst h)%Z) t
    end ->
    let r := fold_left (fun acc x => insert_desc x acc) l acc in
    match r with
    | [] => acc = [] /\ l = []
    | h :: t => Forall (fun y => (fst y <= fst h)%Z) t
    end
    /\ forall y, In y r <-> In y acc \/ In y l.
Proof.
  induction l as [|x l IH]; intros acc Hacc; cbv zeta.
  - cbn [fold_left]. split; [destruct acc; auto | cbn; tauto].
  - cbn [fold_left].
    pose proof (insert_desc_head x acc Hacc) as Hh.
    assert (Hacc' : match insert_desc x acc with
                    | [] => True
                    | h :: t => Forall (fun y => (fst y <= fst h)%Z) t
                    end) by (destruct (insert_desc x acc); [exact I | exact Hh]).
    destruct (IH (insert_desc x acc) Hacc') as [H1 H2]. cbv zeta in H1, H2.
    split.
    + destruct (fold_left _ l (insert_desc x acc)); [|exact H1].
      destruct H1 as [H1 _]. rewrite H1 in Hh. contradiction.
    + intro y. rewrite H2, insert_desc_In. cbn [In]. intuition.
Qed.

(** X19.  [find_latest_checkpoint] returns [None] exactly when the
    output directory does not exist or no entry of it is a directory
    named checkpoint- followed by a step that [int] reads.  Otherwise it
    returns the path of such an entry whose step is the greatest of all;
    the step is never negative, since the text read holds no hyphen. *)
Theorem latest_checkpoint (path_join : string -> string -> string)
    (output_dir : string) (exists_ : bool) (listing : list (string * bool)) :
  (find_latest_checkpoint path_join output_dir exists_ listing = None
   <-> exists_ = false
       \/ forall entry, In entry listing ->
            checkpoint_of path_join output_dir entry = None)
  /\ (forall path,
        find_latest_checkpoint path_join output_dir exists_ listing = Some path ->
        exists entry step,
          In entry listing
          /\ checkpoint_of path_join output_dir entry = Some (step, path)
          /\ (0 <= step)%Z
          /\ forall entry' step' path',
               In entry' listing ->
               checkpoint_of path_join output_dir entry' = Some (step', path') ->
               (step' <= step)%Z).
Proof.
  unfold find_latest_checkpoint.
  set (found := flat_map (fun entry => match checkpoint_of path_join output_dir entry with
                                       | Some x => [x]
                                       | None => []
                                       end) listing).
  assert (Hfound : forall x, In x found
                     <-> exists entry, In entry listing
                           /\ checkpoint_of path_join output_dir entry = Some x).
  { intro x. unfold found. rewrite in_flat_map. split.
    - intros (entry & Hin & Hx). exists entry. split; [exact Hin|].
      destruct (checkpoint_of path_join output_dir entry) as [y|]; [|contradiction].
      destruct Hx as [<-|[]]. reflexivity.
    - intros (entry & Hin & E). exists entry. split; [exact Hin|]. rewrite E. now left. }
  destruct exists_.
  - destruct (sort_desc_fold found [] I) as [Hhead Hin]. cbv zeta in Hhead, Hin.
    fold (sort_desc found) in Hhead, Hin.
    destruct (sort_desc found) as [|[step path] t] eqn:Es.
    + destruct Hhead as [_ Hnil]. split.
      * split; [|reflexivity]. intros _. right. intros entry Hentry.
        destruct (checkpoint_of path_join output_dir entry) as [x|] eqn:E; [|reflexivity].
        assert (Hx : In x found) by (apply Hfound; eauto).
        rewrite Hnil in Hx. contradiction.
      * intros p H. discriminate.
    + destruct (proj1 (Hin (step, path)) (or_introl eq_refl)) as [[]|Hsp].
      apply Hfound in Hsp as (entry & Hentry & E).
      split.
      * split; [discriminate|]. intros [H|H]; [discriminate|].
        rewrite (H entry Hentry) in E. discriminate.
      * intros p H. injection H as <-. exists entry, step.
        split; [exact Hentry|]. split; [exact E|].
        split; [exact (checkpoint_step_nonneg _ _ _ _ _ E)|].
        intros entry' step' path' Hentry' E'.
        assert (Hx : In (step', path') ((step, path) :: t)).
        { apply Hin. right. apply Hfound. eauto. }
        destruct Hx as [Hx|Hx]; [injection Hx as <- _; lia|].
        rewrite Forall_forall in Hhead. exact (Hhead _ Hx).
  - cbn. split; [split; [now left | reflexivity] | intros p H; discriminate].
Qed.

Lemma latest_checkpoint_witness :
  find_latest_checkpoint (fun d f => d ++ "/" ++ f)%string "out" true
    [("checkpoint-150", true); ("runs", true); ("checkpoint-1200", true);
     ("checkpoint-900", false)]
  = Some "out/checkpoint-1200"
  /\ exists entry step,
       In entry [("checkpoint-150", true); ("runs", true); ("checkpoint-1200", true);
                 ("checkpoint-900", false)]
       /\ checkpoint_of (fun d f => d ++ "/" ++ f)%string "out" entry
          = Some (step, "out/checkpoint-1200")
       /\ (0 <= step)%Z.
Proof.
  assert (H : find_latest_checkpoint (fun d f => d ++ "/" ++ f)%string "out" true
                [("checkpoint-150", true); ("runs", true); ("checkpoint-1200", true);
                 ("checkpoint-900", false)]
              = Some "out/checkpoint-1200") by reflexivity.
  split; [exact H|].
  destruct (proj2 (latest_checkpoint _ _ _ _) _ H) as (entry & step & Hin & E & Hpos & _).
  exists entry, step. repeat split; assumption.
Defined.

End EndpointFacts.

(** ** What a generation request ends in *)

Module GenerateFacts.
Import Text Schema Decoder Assembler Markers Generate DecoderFacts AssemblerFacts.

#[local] Open Scope string_scope.
#[local] Open Scope list_scope.
#[local] Open Scope nat_scope.

(** Every table type but the operating costs decodes without raising;
    an unknown type decodes to the empty list. *)
Lemma parse_table_total (content f : string) :
  f <> "coutsFonctionnement" -> exists rows, parse_table_content content f = Ok rows.
Proof.
  intro H. unfold parse_table_content.
  destruct (String.eqb f "contraintes");
    [exact (for_lines_returns _ None contraintes_row_returns _ [])|].
  destruct (String.eqb f "risques");
    [exact (for_lines_returns _ None risques_row_returns _ [])|].
  destruct (String.eqb f "phases");
    [exact (for_lines_returns _ (Some 8) (some_returns _ phases_row_total) _ [])|].
  destruct (String.eqb f "livrables");
    [exact (for_lines_returns _ None livrables_row_returns _ [])|].
  destruct (String.eqb f "jalons");
    [exact (for_lines_returns _ (Some 5) (some_returns _ jalons_row_total) _ [])|].
  destruct (String.eqb f "coutsConstruction");
    [exact (for_lines_returns _ None couts_construction_row_returns _ [])|].
  destruct (String.eqb_spec f "coutsFonctionnement"); [contradiction|].
  now exists [].
Qed.


Section Endpoint.

Variable decode : string -> string.
Variable count_tokens : string -> nat.

Lemma request_answered (f : string) (ctx : context) (s : string) (g : rng) :
  f <> "coutsFonctionnement" ->
  exists r log, generate_field true decode count_tokens f ctx s g = Returned r log.
Proof.
  intro Hne. unfold generate_field. cbn [negb].
  destruct (build_context_identical_to_training _ ctx _ g) as [context_str used_fields].
  destruct (mem f table_fields); [|eauto].
  assert (Hpt : (if String.eqb f "lots" then "phases" else f) <> "coutsFonctionnement")
    by (destruct (String.eqb f "lots"); [discriminate | exact Hne]).
  destruct (parse_table_total (generate decode (Prompt.build_prompt_identical_to_training
              (if String.eqb (if String.eqb f "lots" then "phases" else f) "contexte"
               then "contexte_proj" else if String.eqb f "lots" then "phases" else f)
              context_str)) _ Hpt) as [rows Hr].
  rewrite Hr. eauto.
Qed.




(** X22.  A request for the field lots and a request for the field
    phases, on the same context, strategy and random draws, give the
    model the same prompt, with the task phases and the same used
    fields.  The first is answered with the records that the phase
    decoder reads from the text of the model, at most 8; the second with
    the text itself: phases is not among the fields whose response is
    decoded. *)
Theorem lots_and_phases (ctx : context) (s : string) (g : rng) :
  exists r1 l1 r2 l2 rows,
    generate_field true decode count_tokens "lots" ctx s g = Returned r1 l1
    /\ generate_field true decode count_tokens "phases" ctx s g = Returned r2 l2
    /\ task r1 = "phases" /\ task r2 = "phases"
    /\ log_prompt l1 = log_prompt l2
    /\ context_fields r1 = context_fields r2
    /\ value r2 = Raw (log_raw_response l2)
    /\ value r1 = Rows rows
    /\ parse_phases (log_raw_response l1) = Ok rows
    /\ length rows <= 8.
Proof.
  unfold generate_field. cbn [negb]. cbv zeta.
  change (mem "lots" table_fields) with true.
  change (mem "phases" table_fields) with false.
  change (String.eqb "lots" "lots") with true.
  change (String.eqb "phases" "lots") with false. cbv iota.
  change (String.eqb "phases" "contexte") with false. cbv iota.
  destruct (build_context_identical_to_training "phases" ctx _ g)
    as [context_str used_fields].
  change (parse_table_content ?c "phases") with (parse_phases c).
  destruct (decoder_shape phases_row (Some 8) 8 6
              (generate decode (Prompt.build_prompt_identical_to_training "phases" context_str))
              (some_returns phases_row phases_row_total) phases_row_shape)
    as (rows & Hrun & Hlen & _).
  fold (parse_phases (generate decode
          (Prompt.build_prompt_identical_to_training "phases" context_str))) in Hrun.
  rewrite Hrun.
  do 4 eexists. exists rows. repeat split; try reflexivity; assumption.
Qed.

End Endpoint.


(** *** Several fields *)

Lemma set_not_nil {V : Type} (d : list (string * V)) (k : string) (v : V) :
  Dict.set d k v <> [].
Proof.
  destruct d as [|[x w] d]; cbn [Dict.set]; [discriminate|].
  destruct (String.eqb x k); discriminate.
Qed.

Lemma mem_set {V : Type} (d : list (string * V)) (k k' : string) (v : V) :
  Dict.mem (Dict.set d k v) k' = String.eqb k k' || Dict.mem d k'.
Proof.
  unfold Dict.mem. rewrite AssemblerExtras.get_set. now destruct (String.eqb k k').
Qed.

Lemma map_snd_enumerate {A : Type} (l : list A) : map snd (enumerate l) = l.
Proof.
  unfold enumerate. generalize 0.
  induction l as [|x l IH]; intro k; cbn [length seq combine map snd]; [reflexivity|].
  now rewrite IH.
Qed.

Section Multiple.

Variable decode : nat -> string -> string.
Variable count_tokens : string -> nat.
Variable draws : nat -> rng.
Variable ctx : context.
Variable strategy : string.

(** A field is a key of the results or of the errors after the loop
    exactly when it was one before or is one of the fields of the
    loop. *)
Lemma multiple_keys (is_loaded : bool) (l : list (nat * string)) :
  forall results errors f,
    Dict.mem (fst (fold_left (multiple_step is_loaded decode count_tokens draws ctx strategy)
                             l (results, errors))) f
    || Dict.mem (snd (fold_left (multiple_step is_loaded decode count_tokens draws ctx strategy)
                                l (results, errors))) f
    = Dict.mem results f || Dict.mem errors f || existsb (String.eqb f) (map snd l).
Proof.
  induction l as [|[k x] l IH]; intros results errors f.
  - cbn [fold_left fst snd map existsb]. now rewrite orb_false_r.
  - cbn [fold_left map snd existsb]. unfold multiple_step at 2 4.
    destruct (generate_field is_loaded (decode k) count_tokens x ctx strategy (draws k))
      as [r log|status log]; rewrite IH, mem_set, (String.eqb_sym f x);
      destruct (String.eqb x f), (Dict.mem results f), (Dict.mem errors f); reflexivity.
Qed.

Lemma multiple_answered (l : list (nat * string)) :
  (forall kf, In kf l -> snd kf <> "coutsFonctionnement") ->
  forall results errors,
    snd (fold_left (multiple_step true decode count_tokens draws ctx strategy)
                   l (results, errors)) = errors.
Proof.
  induction l as [|[k x] l IH]; intros Hall results errors; [reflexivity|].
  cbn [fold_left]. unfold multiple_step at 2.
  destruct (request_answered (decode k) count_tokens x ctx strategy (draws k)
              (Hall (k, x) (or_introl eq_refl))) as (r & log & ->).
  apply IH. intros kf Hkf. apply Hall. now right.
Qed.

Lemma multiple_failed (l : list (nat * string)) :
  forall results errors,
    fst (fold_left (multiple_step false decode count_tokens draws ctx strategy)
                   l (results, errors)) = results
    /\ (errors <> [] \/ l <> [] ->
        snd (fold_left (multiple_step false decode count_tokens draws ctx strategy)
                       l (results, errors)) <> []).
Proof.
  induction l as [|[k x] l IH]; intros results errors.
  - cbn [fold_left fst snd]. split; [reflexivity|]. intros [H|H]; [exact H | now destruct H].
  - cbn [fold_left]. unfold multiple_step at 2 4.
    change (generate_field false (decode k) count_tokens x ctx strategy (draws k))
      with (Failed 503 None).
    destruct (IH results (Dict.set errors x 503)) as [H1 H2].
    split; [exact H1|]. intros _. apply H2. left. apply set_not_nil.
Qed.

(** X23.  [generate_multiple_fields] handles the first five fields of
    the request and no other: a field is a key of the results or of the
    errors exactly when it is one of them.  With a loaded model and no
    coutsFonctionnement among them, every call is answered: the request
    succeeds and reports no error.  Without a loaded model nothing is
    generated, and the request still succeeds when it names no field. *)
Theorem several_fields (is_loaded : bool) (fields : list string) :
  let s := generate_multiple_fields is_loaded decode count_tokens draws fields ctx strategy in
  (forall f,
     Dict.mem (results s) f
     || match errors s with
        | Some e => Dict.mem e f
        | None => false
        end
     = existsb (String.eqb f) (firstn 5 fields))
  /\ (is_loaded = true ->
      (forall f, In f (firstn 5 fields) -> f <> "coutsFonctionnement") ->
      success s = true /\ errors s = None)
  /\ (is_loaded = false -> results s = [] /\ (success s = true <-> fields = [])).
Proof.
  cbv zeta. unfold generate_multiple_fields.
  pose proof (multiple_keys is_loaded (enumerate (firstn 5 fields)) [] []) as Hkeys.
  pose proof (multiple_answered (enumerate (firstn 5 fields))) as Hans.
  pose proof (multiple_failed (enumerate (firstn 5 fields)) [] []) as Hfail.
  rewrite map_snd_enumerate in Hkeys.
  split; [|split].
  - intro f. specialize (Hkeys f).
    assert (Hnil : forall V : Type, @Dict.mem V [] f = false) by reflexivity.
    rewrite !Hnil in Hkeys. cbn [orb] in Hkeys.
    destruct (fold_left _ _ _) as [res errs]. cbn [fst snd results errors] in *.
    rewrite <- Hkeys. destruct errs; [now rewrite Hnil | reflexivity].
  - intros -> Hall.
    rewrite (surjective_pairing (fold_left _ _ _)), Hans.
    + now split.
    + intros kf Hkf. apply Hall. rewrite <- (map_snd_enumerate (firstn 5 fields)).
      now apply in_map.
  - intros ->. destruct Hfail as [H1 H2]. split; [|split].
    + destruct (fold_left _ _ _) as [res errs]. exact H1.
    + intro Hs. destruct fields as [|f0 fields]; [reflexivity|].
      exfalso. destruct (fold_left _ _ _) as [res errs].
      cbn [fst snd success] in *. destruct errs; [|discriminate Hs].
      apply H2; [|reflexivity]. right.
      unfold enumerate. cbn [firstn length seq combine]. discriminate.
    + intros ->. reflexivity.
Qed.

End Multiple.

Lemma several_fields_witness :
  success (generate_multiple_fields false (fun _ _ => "") String.length (fun _ => [])
             [] [("client", Scalar "ACME" true)] "full") = true
  /\ results (generate_multiple_fields false (fun _ _ => "") String.length (fun _ => [])
                ["besoin"; "lots"] [("client", Scalar "ACME" true)] "full") = []
  /\ success (generate_multiple_fields true (fun _ _ => "<START>Texte<END>") String.length
                (fun _ => []) ["besoin"; "lots"] [("client", Scalar "ACME" true)] "full")
     = true.
Proof.
  split; [|split].
  - apply (proj2 (proj2 (several_fields (fun _ _ => "") String.length (fun _ => [])
                           [("client", Scalar "ACME" true)] "full" false []))).
    + reflexivity.
    + reflexivity.
  - apply (proj2 (proj2 (several_fields (fun _ _ => "") String.length (fun _ => [])
                           [("client", Scalar "ACME" true)] "full" false ["besoin"; "lots"]))).
    reflexivity.
  - apply (proj1 (proj2 (several_fields (fun _ _ => "<START>Texte<END>") String.length
                           (fun _ => []) [("client", Scalar "ACME" true)] "full" true
                           ["besoin"; "lots"]))).
    + reflexivity.
    + intros f [<-|[<-|[]]]; discriminate.
Defined.

End GenerateFacts.

(** ** The records that the loader keeps *)

Module DatasetFacts.
Import Text Dataset.

#[local] Open Scope string_scope.
#[local] Open Scope list_scope.
#[local] Open Scope nat_scope.

Lemma is_string_eq (v : json) (s : string) : is_string v s = true -> v = JString s.
Proof.
  destruct v; try discriminate. cbn [is_string]. intro H.
  apply String.eqb_eq in H. now subst.
Qed.

Lemma get_or_role (m : json) (role : json) (s : string) :
  get_or "role" JNull m = Returns role -> is_string role s = true ->
  exists members, m = JObject members /\ Dict.get members "role" = Some (JString s).
Proof.
  destruct m as [| | | | |members]; try discriminate.
  cbn [get_or]. intros H Hs. injection H as <-.
  exists members. split; [reflexivity|].
  destruct (Dict.get members "role") as [x|]; [|discriminate Hs].
  now rewrite (is_string_eq x s Hs).
Qed.

(** X24.  [validate_entry] returns [True] exactly for an object whose
    member messages is a list of two objects, the first with the role
    user and the second with the role assistant and a content that is a
    string starting with <START> and ending with <END>.  Nothing is
    asked of the content of the user message. *)
Theorem valid_entries (entry : json) :
  validate_entry entry = Returns true
  <-> exists members m0 m1 s,
        entry = JObject members
        /\ Dict.get members "messages" = Some (JArray [JObject m0; JObject m1])
        /\ Dict.get m0 "role" = Some (JString "user")
        /\ Dict.get m1 "role" = Some (JString "assistant")
        /\ Dict.get m1 "content" = Some (JString s)
        /\ prefix "<START>" s = true /\ endswith "<END>" s = true.
Proof.
  split.
  - unfold validate_entry.
    destruct (has_key "messages" entry) as [present|e] eqn:Hk; cbn [then_]; [|discriminate].
    destruct present; cbn [negb]; [|discriminate].
    destruct (item "messages" entry) as [messages|e] eqn:Hi; cbn [then_]; [|discriminate].
    destruct (len messages) as [n|e] eqn:Hn; cbn [then_]; [|discriminate].
    destruct (n =? 2) eqn:E2; cbn [negb]; [|discriminate].
    apply Nat.eqb_eq in E2. subst n.
    destruct (at_ 0 messages) as [m0|e] eqn:H0; cbn [then_]; [|discriminate].
    destruct (get_or "role" JNull m0) as [role0|e] eqn:Hr0; cbn [then_]; [|discriminate].
    destruct (is_string role0 "user") eqn:Hu; cbn [negb]; [|discriminate].
    destruct (at_ 1 messages) as [m1|e] eqn:H1; cbn [then_]; [|discriminate].
    destruct (get_or "role" JNull m1) as [role1|e] eqn:Hr1; cbn [then_]; [|discriminate].
    destruct (is_string role1 "assistant") eqn:Ha; cbn [negb]; [|discriminate].
    destruct (get_or "content" (JString "") m1) as [response|e] eqn:Hc; cbn [then_];
      [|discriminate].
    destruct response as [| | |s| |]; try discriminate.
    intro H. injection H as H. apply andb_true_iff in H as [Hp He].
    destruct (get_or_role m0 role0 "user" Hr0 Hu) as (d0 & -> & G0).
    destruct (get_or_role m1 role1 "assistant" Hr1 Ha) as (d1 & -> & G1).
    destruct entry as [| | | | |members]; try discriminate.
    cbn [item] in Hi.
    destruct (Dict.get members "messages") as [x|] eqn:Gm; [|discriminate].
    injection Hi as ->.
    destruct messages as [| | |t|items|d]; try discriminate.
    + cbn [at_] in H0. destruct (nth_error (chars t) 0); discriminate.
    + cbn [len] in Hn. injection Hn as Hn.
      destruct items as [|x0 [|x1 [|x2 items]]]; try discriminate.
      cbn [at_ nth_error] in H0, H1. injection H0 as ->. injection H1 as ->.
      cbn [get_or] in Hc. injection Hc as Hc.
      exists members, d0, d1, s. repeat split; try assumption.
      destruct (Dict.get d1 "content") as [x|]; [now subst|].
      injection Hc as <-. discriminate.
  - intros (members & m0 & m1 & s & -> & Gm & G0 & G1 & Gc & Hp & He).
    unfold validate_entry. cbn [has_key item then_]. unfold Dict.mem.
    rewrite Gm. cbn [negb then_ len length Nat.eqb at_ nth_error get_or].
    rewrite G0, G1, Gc. cbn [is_string]. cbn. now rewrite Hp, He.
Qed.

Lemma valid_entries_witness :
  validate_entry
    (JObject [("messages",
               JArray [JObject [("role", JString "user")];
                       JObject [("role", JString "assistant");
                                ("content", JString "<START>Banque<END>")]])])
  = Returns true.
Proof.
  apply (proj2 (valid_entries _)).
  exists [("messages",
           JArray [JObject [("role", JString "user")];
                   JObject [("role", JString "assistant");
                            ("content", JString "<START>Banque<END>")]])],
         [("role", JString "user")],
         [("role", JString "assistant"); ("content", JString "<START>Banque<END>")],
         "<START>Banque<END>".
  repeat split; reflexivity.
Defined.

Section Loading.

Variable loads : string -> option json.

(** The records of a file that pass the validation, in the order of the
    lines. *)
#[local] Abbreviation kept lines :=
  (flat_map (fun line => match loads line with
                         | Some entry =>
                             match validate_entry entry with
                             | Returns true => [entry]
                             | _ => []
                             end
                         | None => []
                         end) lines).

Lemma load_fold (lines : list string) :
  forall data st,
    let out := fold_left (fun acc line => load_line acc (loads line)) lines (data, st) in
    fst out = data ++ kept lines
    /\ valid (snd out) = valid st + length (kept lines)
    /\ valid (snd out) + invalid (snd out) + errors (snd out)
       = valid st + invalid st + errors st + length lines.
Proof.
  induction lines as [|line lines IH]; intros data st; cbv zeta.
  - cbn. rewrite app_nil_r. repeat split; lia.
  - cbn [fold_left flat_map length].
    destruct (loads line) as [entry|]; cbn [load_line].
    + destruct (validate_entry entry) as [[|]|e].
      * destruct (IH (data ++ [entry]) {| valid := valid st + 1; invalid := invalid st;
                                          errors := errors st |}) as (Hd & Hv & Hs).
        cbv zeta in Hd, Hv, Hs. cbn [valid invalid errors] in Hv, Hs.
        split; [now rewrite Hd, <- app_assoc | cbn [app length]; split; lia].
      * destruct (IH data {| valid := valid st; invalid := invalid st + 1;
                             errors := errors st |}) as (Hd & Hv & Hs).
        cbv zeta in Hd, Hv, Hs. cbn [valid invalid errors] in Hv, Hs.
        split; [exact Hd | cbn [app]; split; lia].
      * destruct (IH data {| valid := valid st; invalid := invalid st;
                             errors := errors st + 1 |}) as (Hd & Hv & Hs).
        cbv zeta in Hd, Hv, Hs. cbn [valid invalid errors] in Hv, Hs.
        split; [exact Hd | cbn [app]; split; lia].
    + destruct (IH data {| valid := valid st; invalid := invalid st;
                           errors := errors st + 1 |}) as (Hd & Hv & Hs).
      cbv zeta in Hd, Hv, Hs. cbn [valid invalid errors] in Hv, Hs.
      split; [exact Hd | cbn [app]; split; lia].
Qed.

(** X25.  [load_dataset] keeps, in the order of the lines, exactly the
    records that parse and that [validate_entry] accepts; a line that
    does not parse, or on which the validation raises, is counted as an
    error and the loading goes on.  The counter of valid records grows
    by the number of records kept, and the three counters together grow
    by the number of lines. *)
Theorem loaded_records (lines : list string) (st : stats) :
  let out := load_dataset loads lines st in
  fst out = kept lines
  /\ Forall (fun entry => validate_entry entry = Returns true) (fst out)
  /\ valid (snd out) = valid st + length (fst out)
  /\ valid (snd out) + invalid (snd out) + errors (snd out)
     = valid st + invalid st + errors st + length lines.
Proof.
  cbv zeta. unfold load_dataset.
  destruct (load_fold lines [] st) as (Hd & Hv & Hs). cbv zeta in Hd, Hv, Hs.
  cbn [app] in Hd. rewrite Hd. repeat split; try assumption.
  apply Forall_forall. intros entry Hin.
  apply in_flat_map in Hin as (line & _ & Hin).
  destruct (loads line) as [e|]; [|contradiction].
  destruct (validate_entry e) as [[|]|x] eqn:E; try contradiction.
  destruct Hin as [<-|[]]. exact E.
Qed.

End Loading.

End DatasetFacts.

(** ** Tables of several rows *)

Module TableFacts.
Import Text TextFacts StripFacts Schema Decoder Assembler DecoderFacts RoundTripFacts.

#[local] Open Scope string_scope.
#[local] Open Scope list_scope.
#[local] Open Scope nat_scope.

Lemma parts_of_lstrip (s : string) : parts_of (lstrip s) = parts_of s.
Proof.
  unfold parts_of. rewrite split_lstrip.
  destruct (split "|" s) as [|p ps]; [reflexivity|].
  cbn [map]. now rewrite strip_lstrip.
Qed.

Lemma parts_of_rstrip (s : string) : parts_of (rstrip s) = parts_of s.
Proof.
  unfold parts_of. destruct (split_rstrip s) as (front & last & Hs & Hr).
  rewrite Hs, Hr, !map_app. cbn [map]. now rewrite strip_rstrip.
Qed.

Lemma lstrip_app (a b : string) :
  lstrip a <> "" -> lstrip (a ++ b)%string = (lstrip a ++ b)%string.
Proof.
  induction a as [|x a IH]; [contradiction|].
  cbn [append lstrip]. destruct (is_space x); [exact IH | reflexivity].
Qed.

Lemma rstrip_app (a b : string) :
  rstrip b <> "" -> rstrip (a ++ b)%string = (a ++ rstrip b)%string.
Proof.
  intro H. induction a as [|x a IH]; [reflexivity|].
  cbn [append]. rewrite rstrip_cons; rewrite IH; [reflexivity|].
  destruct a; cbn [append]; [exact H | discriminate].
Qed.

Lemma no_char_lstrip (c : ascii) (s : string) :
  has_char c s = false -> has_char c (lstrip s) = false.
Proof.
  intro H. destruct (has_char c (lstrip s)) eqn:E; [|reflexivity].
  apply has_char_lstrip in E. congruence.
Qed.

Lemma no_char_rstrip (c : ascii) (s : string) :
  has_char c s = false -> has_char c (rstrip s) = false.
Proof.
  intro H. destruct (has_char c (rstrip s)) eqn:E; [|reflexivity].
  apply has_char_rstrip in E. congruence.
Qed.

Lemma pipe_not_blank (s : string) : has_char "|" s = true -> rstrip s <> "".
Proof.
  intros H E. pose proof (rstrip_keeps "|" s eq_refl H) as K. rewrite E in K. discriminate.
Qed.

Lemma join_cons (l : string) (l2 : string) (rest : list string) :
  join Assembler.LF (l :: l2 :: rest)
  = (l ++ String Decoder.LF (join Assembler.LF (l2 :: rest)))%string.
Proof. reflexivity. Qed.

Lemma join_has_pipe_line (l : string) (rest : list string) :
  has_char "|" l = true -> has_char "|" (join Assembler.LF (l :: rest)) = true.
Proof.
  intro H. destruct rest as [|l2 rest]; [exact H|].
  rewrite join_cons, has_char_app, H. reflexivity.
Qed.

(** A line of a table, and what stripping the text leaves of it: the
    same parts, a pipe, and no newline. *)
#[local] Abbreviation kept_as l l' :=
  (parts_of l' = parts_of l /\ has_char "|" l' = true /\ has_char Decoder.LF l' = false).

Lemma rstrip_join (lines : list string) :
  lines <> [] ->
  Forall (fun l => has_char "|" l = true /\ has_char Decoder.LF l = false) lines ->
  exists lines',
    rstrip (join Assembler.LF lines) = join Assembler.LF lines'
    /\ Forall2 (fun l l' => kept_as l l') lines lines'.
Proof.
  induction lines as [|l lines IH]; [contradiction|].
  intros _ Hall. apply Forall_cons_iff in Hall as [[Hp Hn] Hall].
  destruct lines as [|l2 rest].
  - exists [rstrip l]. split; [reflexivity|].
    constructor; [|constructor].
    split; [apply parts_of_rstrip|].
    split; [now apply rstrip_keeps | now apply no_char_rstrip].
  - destruct (IH ltac:(discriminate) Hall) as (lines' & Hr & H2).
    pose proof Hall as Hall'. apply Forall_cons_iff in Hall' as [[Hp2 _] _].
    assert (Hne : rstrip (join Assembler.LF (l2 :: rest)) <> "")
      by (apply pipe_not_blank, join_has_pipe_line, Hp2).
    exists (l :: lines'). split.
    + rewrite join_cons, rstrip_app.
      * rewrite rstrip_cons by exact Hne. rewrite Hr.
        destruct lines' as [|l2' rest']; [inversion H2 | reflexivity].
      * rewrite rstrip_cons by exact Hne. discriminate.
    + constructor; [now repeat split | exact H2].
Qed.

Lemma strip_join (lines : list string) :
  lines <> [] ->
  Forall (fun l => has_char "|" l = true /\ has_char Decoder.LF l = false) lines ->
  exists lines',
    strip (join Assembler.LF lines) = join Assembler.LF lines'
    /\ Forall2 (fun l l' => kept_as l l') lines lines'.
Proof.
  intros Hne Hall. destruct lines as [|l0 rest]; [contradiction|].
  apply Forall_cons_iff in Hall as [[Hp Hn] Hall].
  assert (Hl : lstrip (join Assembler.LF (l0 :: rest))
               = join Assembler.LF (lstrip l0 :: rest)).
  { destruct rest as [|l1 rest]; [reflexivity|].
    rewrite !join_cons. apply lstrip_app.
    intro E. pose proof (lstrip_keeps "|" l0 eq_refl Hp) as K. rewrite E in K. discriminate. }
  unfold strip. rewrite Hl.
  destruct (rstrip_join (lstrip l0 :: rest)) as (lines' & Hr & H2).
  - discriminate.
  - constructor; [|exact Hall].
    split; [now apply lstrip_keeps | now apply no_char_lstrip].
  - exists lines'. split; [exact Hr|].
    inversion H2 as [|a b la lb (H0 & H0p & H0n) Hrest]; subst.
    constructor; [|exact Hrest].
    split; [now rewrite H0, parts_of_lstrip | now split].
Qed.

Lemma split_join (lines : list string) :
  lines <> [] ->
  Forall (fun l => has_char Decoder.LF l = false) lines ->
  split Decoder.LF (join Assembler.LF lines) = lines.
Proof.
  induction lines as [|l lines IH]; [contradiction|].
  intros _ Hall. apply Forall_cons_iff in Hall as [Hn Hall].
  destruct lines as [|l2 rest].
  - now apply split_clean.
  - rewrite join_cons, (split_app Decoder.LF l _ Hn). f_equal.
    apply IH; [discriminate | exact Hall].
Qed.

Section Uncapped.

Variable row : nat -> list string -> result (option record).
Variable f : list string -> option record.
Hypothesis Hrow : forall i parts, row i parts = Ok (f parts).

(** The loop without a cap, on lines that are not blank. *)
Lemma for_lines_closed (lines : list string) :
  Forall (fun l => has_char "|" l = true) lines ->
  forall k rows0,
    for_lines row None (combine (seq k (length lines)) lines) rows0
    = Ok (rows0 ++ flat_map (fun l => match f (parts_of l) with
                                      | Some r => [r]
                                      | None => []
                                      end) lines).
Proof.
  induction lines as [|l lines IH]; intros Hall k rows0.
  - cbn. now rewrite app_nil_r.
  - apply Forall_cons_iff in Hall as [Hp Hall].
    cbn [length seq combine for_lines flat_map].
    destruct (strip l) as [|c t] eqn:E; [now destruct (strip_keeps "|" l eq_refl Hp)|].
    cbn [is_empty]. rewrite Hrow. cbn [bind].
    rewrite (IH Hall). destruct (f (parts_of l)); [|reflexivity].
    now rewrite <- app_assoc.
Qed.

Lemma same_records (lines lines' : list string) :
  Forall2 (fun l l' => kept_as l l') lines lines' ->
  forall n,
    Forall (fun l => has_char "|" l = true) (firstn n lines')
    /\ flat_map (fun l => match f (parts_of l) with
                          | Some r => [r]
                          | None => []
                          end) (firstn n lines')
       = flat_map (fun l => match f (parts_of l) with
                            | Some r => [r]
                            | None => []
                            end) (firstn n lines).
Proof.
  induction 1 as [|l l' lines lines' (Hparts & Hp & _) _ IH]; intro n.
  - rewrite !firstn_nil. split; [constructor | reflexivity].
  - destruct n as [|n]; [split; [constructor | reflexivity]|].
    cbn [firstn flat_map]. destruct (IH n) as [IH1 IH2].
    split; [now constructor|]. now rewrite Hparts, IH2.
Qed.

(** Decoding a text made of lines that all hold a pipe: the records of
    the first [n] lines, in order. *)
Lemma decode_table (n : nat) (lines : list string) :
  Forall (fun l => has_char "|" l = true /\ has_char Decoder.LF l = false) lines ->
  for_lines row None (first_lines n (join Assembler.LF lines)) []
  = Ok (flat_map (fun l => match f (parts_of l) with
                           | Some r => [r]
                           | None => []
                           end) (firstn n lines)).
Proof.
  intro Hall. destruct lines as [|l0 rest].
  - rewrite firstn_nil. now apply blank_text_decodes_to_nil.
  - destruct (strip_join (l0 :: rest) ltac:(discriminate) Hall) as (lines' & Hs & H2).
    unfold first_lines. rewrite Hs, split_join.
    + unfold enumerate. destruct (same_records _ _ H2 n) as [Hp Hsame].
      rewrite (for_lines_closed _ Hp 0 []). cbn [app]. now rewrite Hsame.
    + inversion H2; discriminate.
    + clear Hs. induction H2 as [|a b la lb (_ & _ & Hn) _ IH]; constructor; auto.
      apply IH. now apply Forall_cons_iff in Hall as [_ Hall].
Qed.

(** Decoding the formatted rows of a table whose rows have at least two
    clean cells. *)
Lemma decode_rows {T : Type} (cells : T -> list string) (h : T -> record)
    (n : nat) (rows : list T) :
  (forall t, In t rows ->
     forallb clean (cells t) = true /\ 2 <= length (cells t)
     /\ f (map strip (cells t)) = Some (h t)) ->
  for_lines row None
    (first_lines n (join Assembler.LF (map (fun t => join "|" (cells t)) rows))) []
  = Ok (map h (firstn n rows)).
Proof.
  intro H. rewrite decode_table.
  - f_equal. rewrite firstn_map.
    assert (Hn : forall t, In t (firstn n rows) -> In t rows)
      by (intros t; apply AssemblerFacts.In_firstn).
    induction (firstn n rows) as [|t ts IH]; [reflexivity|].
    cbn [map flat_map]. destruct (H t (Hn t (or_introl eq_refl))) as (Hc & Hl & Hf).
    destruct (clean_cells _ Hc) as [Hpipe _].
    rewrite parts_of_join, Hf; [|destruct (cells t); [cbn in Hl; lia | discriminate]|exact Hpipe].
    cbn [app]. f_equal. apply IH. intros x Hx. apply Hn. now right.
  - apply Forall_forall. intros l Hl. apply in_map_iff in Hl as (t & <- & Ht).
    destruct (H t Ht) as (Hc & Hlen & _).
    destruct (clean_cells _ Hc) as [_ Hlf].
    split; [|apply join_has_no; [reflexivity | exact Hlf]].
    destruct (cells t) as [|c [|c' cs]]; [cbn in Hlen; lia | cbn in Hlen; lia |].
    apply join_has_pipe.
Qed.

End Uncapped.

Lemma format_lines {T : Type} (g : T -> Assembler.row) (line : T -> string)
    (field : string) (rows : list T) :
  (forall t, format_row (columns_of field) (g t) = line t) ->
  format_table_for_context (map g rows) field = join Assembler.LF (map line rows).
Proof.
  intro H. unfold format_table_for_context.
  rewrite <- (map_ext _ _ H), <- (map_map g (format_row (columns_of field))).
  now destruct (map g rows).
Qed.

(** X26.  A table of any number of rows survives the round trip through
    the context format, up to the number of lines the decoder reads.
    For rows of clean cells (no pipe, no newline), formatting the table
    and decoding the text gives the records of the first 5 rows for
    constraints, 6 for deliverables and risks, and 7 for construction
    costs, in order, each as for a single row; the rows beyond are
    lost. *)
Theorem tables_round_trip
  (rows4 : list (string * string * string * string))
  (rows5 : list (string * string * string * string * string))
  (H4 : Forall (fun '(c0, c1, c2, c3) => forallb clean [c0; c1; c2; c3] = true) rows4)
  (H5 : Forall (fun '(c0, c1, c2, c3, c4) => forallb clean [c0; c1; c2; c3; c4] = true)
               rows5) :
  parse_contraintes
    (format_table_for_context
       (map (fun '(c0, c1, c2, c3) => row_of_cells [c0; c1; c2; c3]) rows4) "contraintes")
  = Ok (map (fun '(c0, c1, c2, c3) =>
               [("col0", Str (strip c0)); ("col1", Str (strip c1));
                ("col2", Str (map_criticality (strip c2))); ("col3", Str (strip c3))])
            (firstn 5 rows4))
  /\ parse_livrables
       (format_table_for_context
          (map (fun '(c0, c1, c2, c3) => row_of_cells [c0; c1; c2; c3]) rows4) "livrables")
     = Ok (map (fun '(c0, c1, c2, c3) =>
                  [("col0", Str (strip c0)); ("col1", Str (strip c1));
                   ("col2", Str (extract_date (strip c2))); ("col3", Str (strip c3))])
               (firstn 6 rows4))
  /\ parse_risques
       (format_table_for_context
          (map (fun '(c0, c1, c2, c3, c4) => row_of_cells [c0; c1; c2; c3; c4]) rows5)
          "risques")
     = Ok (map (fun '(c0, c1, c2, c3, c4) =>
                  [("col0", Str (strip c0)); ("col1", Str (map_probability (strip c1)));
                   ("col2", Str (map_impact (strip c2))); ("col3", Str (strip c3));
                   ("col4", Str (strip c4))])
               (firstn 6 rows5))
  /\ parse_couts_construction
       (format_table_for_context
          (map (fun '(c0, c1, c2, c3, c4) => row_of_cells [c0; c1; c2; c3; c4]) rows5)
          "coutsConstruction")
     = Ok (map (fun '(c0, c1, c2, c3, c4) =>
                  [("col0", Str (strip c0));
                   ("col1", Str (str_of_Z (extract_number (strip c1))));
                   ("col2", Str (str_of_Z (extract_number (strip c2))));
                   ("col3", Str (str_of_Z (extract_number (strip c1)
                                           * extract_number (strip c2))));
                   ("col4", Str (strip c4))])
               (firstn 7 rows5)).
Proof.
  rewrite Forall_forall in H4, H5.
  repeat split.
  - rewrite (format_lines _ (fun '(c0, c1, c2, c3) => join "|" [c0; c1; c2; c3]))
      by (intros [[[c0 c1] c2] c3]; reflexivity).
    unfold parse_contraintes.
    rewrite (map_ext _ (fun t => join "|" (let '(c0, c1, c2, c3) := t in [c0; c1; c2; c3])))
      by (intros [[[c0 c1] c2] c3]; reflexivity).
    apply (decode_rows contraintes_row
             (fun parts => match contraintes_row 0 parts with
                           | Ok r => r
                           | Raise _ => None
                           end)).
    + intros i parts. by_cases_on_parts parts; reflexivity.
    + intros [[[c0 c1] c2] c3] Ht. specialize (H4 _ Ht). cbv beta iota in H4.
      split; [exact H4 | split; [cbn; lia | reflexivity]].
  - rewrite (format_lines _ (fun '(c0, c1, c2, c3) => join "|" [c0; c1; c2; c3]))
      by (intros [[[c0 c1] c2] c3]; reflexivity).
    unfold parse_livrables.
    rewrite (map_ext _ (fun t => join "|" (let '(c0, c1, c2, c3) := t in [c0; c1; c2; c3])))
      by (intros [[[c0 c1] c2] c3]; reflexivity).
    apply (decode_rows livrables_row
             (fun parts => match livrables_row 0 parts with
                           | Ok r => r
                           | Raise _ => None
                           end)).
    + intros i parts. by_cases_on_parts parts; reflexivity.
    + intros [[[c0 c1] c2] c3] Ht. specialize (H4 _ Ht). cbv beta iota in H4.
      split; [exact H4 | split; [cbn; lia | reflexivity]].
  - rewrite (format_lines _ (fun '(c0, c1, c2, c3, c4) => join "|" [c0; c1; c2; c3; c4]))
      by (intros [[[[c0 c1] c2] c3] c4]; reflexivity).
    unfold parse_risques.
    rewrite (map_ext _ (fun t => join "|" (let '(c0, c1, c2, c3, c4) := t in
                                           [c0; c1; c2; c3; c4])))
      by (intros [[[[c0 c1] c2] c3] c4]; reflexivity).
    apply (decode_rows risques_row
             (fun parts => match risques_row 0 parts with
                           | Ok r => r
                           | Raise _ => None
                           end)).
    + intros i parts. by_cases_on_parts parts; reflexivity.
    + intros [[[[c0 c1] c2] c3] c4] Ht. specialize (H5 _ Ht). cbv beta iota in H5.
      split; [exact H5 | split; [cbn; lia | reflexivity]].
  - rewrite (format_lines _ (fun '(c0, c1, c2, c3, c4) => join "|" [c0; c1; c2; c3; c4]))
      by (intros [[[[c0 c1] c2] c3] c4]; reflexivity).
    unfold parse_couts_construction.
    rewrite (map_ext _ (fun t => join "|" (let '(c0, c1, c2, c3, c4) := t in
                                           [c0; c1; c2; c3; c4])))
      by (intros [[[[c0 c1] c2] c3] c4]; reflexivity).
    apply (decode_rows couts_construction_row
             (fun parts => match couts_construction_row 0 parts with
                           | Ok r => r
                           | Raise _ => None
                           end)).
    + intros i parts. by_cases_on_parts parts; reflexivity.
    + intros [[[[c0 c1] c2] c3] c4] Ht. specialize (H5 _ Ht). cbv beta iota in H5.
      split; [exact H5 | split; [cbn; lia | reflexivity]].
Qed.

Lemma tables_round_trip_witness :
  parse_contraintes
    (format_table_for_context
       (map (fun '(c0, c1, c2, c3) => row_of_cells [c0; c1; c2; c3])
            [("Budget", "Plafond", "haute", "Suivi"); ("Delai", "Juin", "faible", "Jalons");
             ("RGPD", "Donnees", "critique", "DPO"); ("SI", "Legacy", "moyenne", "Audit");
             ("RH", "Equipe", "basse", "Recrutement"); ("Juridique", "Contrat", "haute", "Avocat")])
       "contraintes")
  = Ok (map (fun '(c0, c1, c2, c3) =>
               [("col0", Str (strip c0)); ("col1", Str (strip c1));
                ("col2", Str (map_criticality (strip c2))); ("col3", Str (strip c3))])
            (firstn 5
               [("Budget", "Plafond", "haute", "Suivi"); ("Delai", "Juin", "faible", "Jalons");
                ("RGPD", "Donnees", "critique", "DPO"); ("SI", "Legacy", "moyenne", "Audit");
                ("RH", "Equipe", "basse", "Recrutement");
                ("Juridique", "Contrat", "haute", "Avocat")])).
Proof.
  refine (proj1 (tables_round_trip
                   [("Budget", "Plafond", "haute", "Suivi"); ("Delai", "Juin", "faible", "Jalons");
                    ("RGPD", "Donnees", "critique", "DPO"); ("SI", "Legacy", "moyenne", "Audit");
                    ("RH", "Equipe", "basse", "Recrutement");
                    ("Juridique", "Contrat", "haute", "Avocat")]
                   [] _ _)).
  - repeat constructor.
  - constructor.
Defined.

End TableFacts.

(** ** Reading a prompt back *)

Module PromptExtras.
Import Text Prompt PromptFacts.

#[local] Open Scope string_scope.
#[local] Open Scope nat_scope.

Lemma append_cancel_l (a x y : string) : a ++ x = a ++ y -> x = y.
Proof.
  induction a as [|c a IH]; [auto|].
  cbn [append]. intro H. injection H as H. auto.
Qed.

Lemma length_append (a b : string) :
  String.length (a ++ b) = String.length a + String.length b.
Proof.
  induction a as [|c a IH]; [reflexivity|]. cbn [append String.length]. now rewrite IH.
Qed.

Lemma append_cancel_r (s : string) : forall a b, a ++ s = b ++ s -> a = b.
Proof.
  induction a as [|x a IH]; intros [|y b] H.
  - reflexivity.
  - apply (f_equal String.length) in H. cbn [append String.length] in H.
    rewrite length_append in H. lia.
  - apply (f_equal String.length) in H. cbn [append String.length] in H.
    rewrite length_append in H. lia.
  - cbn [append] in H. injection H as -> H. f_equal. now apply IH.
Qed.

(** Two texts without [m], each followed by [m], end at the same place. *)
Lemma first_mark (m : ascii) (t : string) :
  forall t' x y,
    has_char m t = false -> has_char m t' = false ->
    t ++ String m x = t' ++ String m y -> t = t' /\ x = y.
Proof.
  induction t as [|c t IH]; intros [|c' t'] x y Ht Ht' H; cbn [append has_char] in *.
  - injection H as ->. now split.
  - injection H as <- _. rewrite Ascii.eqb_refl in Ht'. discriminate.
  - injection H as -> _. rewrite Ascii.eqb_refl in Ht. discriminate.
  - injection H as -> H.
    apply orb_false_iff in Ht as [_ Ht]. apply orb_false_iff in Ht' as [_ Ht'].
    destruct (IH t' x y Ht Ht' H) as [-> ->]. now split.
Qed.

(** X27.  A prompt determines the request it was built from: two tasks
    without '<' and two contexts that give the same prompt are the same
    task and the same context. *)
Theorem prompt_determines_request (t t' c c' : string)
  (Ht : has_char "<" t = false) (Ht' : has_char "<" t' = false)
  (H : build_prompt_identical_to_training t c = build_prompt_identical_to_training t' c') :
  t = t' /\ c = c'.
Proof.
  unfold build_prompt_identical_to_training in H.
  apply (append_cancel_l "[INST] <TASK>") in H.
  change ("</TASK>" ++ LF ++ "<CONTEXT>" ++ LF ++ c ++ LF ++ "</CONTEXT> [/INST]")
    with (String "<" ("/TASK>" ++ LF ++ "<CONTEXT>" ++ LF ++ c ++ LF ++ "</CONTEXT> [/INST]"))
    in H.
  change ("</TASK>" ++ LF ++ "<CONTEXT>" ++ LF ++ c' ++ LF ++ "</CONTEXT> [/INST]")
    with (String "<" ("/TASK>" ++ LF ++ "<CONTEXT>" ++ LF ++ c' ++ LF ++ "</CONTEXT> [/INST]"))
    in H.
  apply (first_mark "<" t t' _ _ Ht Ht') in H as [-> H].
  split; [reflexivity|].
  apply (append_cancel_l ("/TASK>" ++ LF ++ "<CONTEXT>" ++ LF)) in H.
  exact (append_cancel_r _ _ _ H).
Qed.

Lemma prompt_determines_request_witness :
  has_char "<" "phases" = false
  /\ build_prompt_identical_to_training "phases" "client: ACME"
     = build_prompt_identical_to_training "phases" "client: ACME"
  /\ "phases" = "phases" /\ "client: ACME" = "client: ACME".
Proof.
  split; [reflexivity | split; [reflexivity|]].
  exact (prompt_determines_request "phases" "phases" "client: ACME" "client: ACME"
           eq_refl eq_refl eq_refl).
Defined.

End PromptExtras.
